(** * ESP32WebSocketControl: the protocol engine

    A shallow embedding of the variable registry, the message router, the
    streaming state machine and the sample buffer of
    [lib/ESP32WebSocketLib/ESP32WebSocket.h] (which also carries the
    implementation file [ESP32WebSocket.cpp]) and [src/main.cpp].

    Conventions.
    - C [int] is a [Z] kept inside [INT_MIN .. INT_MAX]; [uint16_t] and
      [uint32_t] are [Z] with the wrap-around written out.
    - C [float] and [double] are IEEE-754 binary32 and binary64, taken from
      the Standard Library's [SpecFloat] ([prec = 24], [emax = 128] and
      [prec = 53], [emax = 1024]); every conversion between them, and
      between them and [int], is written out.
    - The file-scope statics of the library and the globals of the sketch
      are the fields of one record that every operation passes along.
    - What the device sends, and each call through a stream callback, is
      appended to a trace of effects.
    - The [Serial] debug log is not part of the state.  The return sites of
      [setVariableValueInternal] differ only by the diagnostic they print;
      the embedding names them in its result type.
    - A JSON document is a tree.  A received text frame comes with what
      [deserializeJson] makes of it; a document that is sent is recorded as
      built, before [serializeJson].  The configuration list is built in
      a document whose capacity the library computes, so its memory pool
      is modelled and what does not fit is left out, as ArduinoJson does;
      the documents of fixed capacity (256 bytes for a received command
      and for a value, 192 for a status) are taken to hold what the
      program writes into them.
    - The event handler and [loop()] run to completion one after the
      other. *)

From Stdlib Require Import ZArith Bool Lia.
From Stdlib Require Import Floats.SpecFloat.
From Stdlib Require Import Strings.Byte.
From stdpp Require Import base list gmap strings.

Local Open Scope Z_scope.
#[local] Set Warnings "-clear-no-such-hyp".

(** ** Machine integers *)

Definition INT_MIN : Z := -2147483648.
Definition INT_MAX : Z := 2147483647.

Definition in_int_range (z : Z) : bool := (INT_MIN <=? z) && (z <=? INT_MAX).

(** Two's-complement wrap of a [Z] into [int]. *)
Definition wrap_int (z : Z) : Z := (z + 2 ^ 31) mod 2 ^ 32 - 2 ^ 31.

Definition wrap_u16 (z : Z) : Z := z mod 2 ^ 16.
Definition wrap_u32 (z : Z) : Z := z mod 2 ^ 32.

(** ** IEEE-754 numbers: C [float] and [double] *)

Module IEEE.

(** [float] values are [spec_float]s that are valid for binary32,
    [double] values are [spec_float]s that are valid for binary64. *)
Definition valid_float (f : spec_float) : bool := valid_binary 24 128 f.
Definition valid_double (d : spec_float) : bool := valid_binary 53 1024 d.

(** [static_cast<float>(z)] and [static_cast<double>(z)], round to
    nearest even. *)
Definition float_of_Z (z : Z) : spec_float := binary_normalize 24 128 z 0 false.
Definition double_of_Z (z : Z) : spec_float := binary_normalize 53 1024 z 0 false.

(** [static_cast<float>(d)] for a [double] [d]. *)
Definition float_of_double (d : spec_float) : spec_float :=
  match d with
  | S754_finite s m e => binary_round 24 128 s m e
  | _ => d
  end.

(** [static_cast<double>(f)] for a [float] [f]: the same number in the
    binary64 format. *)
Definition double_of_float (f : spec_float) : spec_float :=
  match f with
  | S754_finite s m e => binary_round 53 1024 s m e
  | _ => f
  end.

(** The magnitude of a finite number, rounded toward zero. *)
Definition trunc_mag (m : positive) (e : Z) : Z :=
  match e with
  | Z0 => Zpos m
  | Zpos p => Zpos m * 2 ^ Zpos p
  | Zneg p => Zpos m / 2 ^ Zpos p
  end.

(** Truncation toward zero; [None] for infinities and NaN. *)
Definition truncate (f : spec_float) : option Z :=
  match f with
  | S754_zero _ => Some 0
  | S754_finite s m e => Some (cond_Zopp s (trunc_mag m e))
  | _ => None
  end.

(** A finite number with no fractional part. *)
Definition is_integral (f : spec_float) : bool :=
  match f with
  | S754_zero _ => true
  | S754_finite _ m e =>
      match e with
      | Zneg p => Zpos m mod 2 ^ Zpos p =? 0
      | _ => true
      end
  | _ => false
  end.

(** A finite number with a nonzero fractional part. *)
Definition has_fraction (f : spec_float) : bool :=
  match f with
  | S754_finite _ m e =>
      match e with
      | Zneg p => negb (Zpos m mod 2 ^ Zpos p =? 0)
      | _ => false
      end
  | _ => false
  end.

(** The integer a finite number without fractional part stands for. *)
Definition integer_value (f : spec_float) : option Z :=
  if is_integral f then truncate f else None.

(** [x < y], [x > y] and [x == y] of C on operands of one format. *)
Definition lt (x y : spec_float) : bool := SFltb x y.
Definition gt (x y : spec_float) : bool := SFltb y x.
Definition le (x y : spec_float) : bool := SFleb x y.
Definition ge (x y : spec_float) : bool := SFleb y x.
Definition eq (x y : spec_float) : bool := SFeqb x y.

(** The [double] nearest to [m * 2 ^ e]: a decimal literal such as 125.5
    is [double_of_dyadic 251 (-1)]. *)
Definition double_of_dyadic (m e : Z) : spec_float := binary_normalize 53 1024 m e false.

(** The two stages of [binary_round]: the mantissa is aligned to the
    exponent of the format, then rounded to nearest even. *)
Definition round_stage1 (prec emax : Z) (m : positive) (e : Z) : shr_record * Z :=
  let '(mz, ez) := shl_align m e (fexp prec emax (Zpos (digits2_pos m) + e)) in
  shr_fexp prec emax (Zpos mz) ez loc_Exact.

Definition round_stage2 (prec emax : Z) (s : bool) (st1 : shr_record * Z) : spec_float :=
  let '(mrs', e') := st1 in
  let '(mrs'', e'') :=
    shr_fexp prec emax (round_nearest_even (shr_m mrs') (loc_of_shr_record mrs')) e' loc_Exact in
  match shr_m mrs'' with
  | Z0 => S754_zero s
  | Zpos m => if e'' <=? emax - prec then S754_finite s m e'' else S754_infinity s
  | _ => S754_nan
  end.

End IEEE.

(** ** JSON values: ArduinoJson's [JsonVariant]

    The program reads a candidate value only through [is<T>()] and
    [as<T>()].  ArduinoJson 6 keeps a number either as an integer or as a
    [double]; [is<int>()] holds for an integer that fits [int],
    [is<float>()] holds for every number, and [as<T>()] converts the stored
    number with a [static_cast], except that a number outside the target
    integer type converts to [0].  A string is the C string [strcmp]
    sees. *)

#[warnings="-register-all"] Inductive JsonVariant : Type :=
  | JNull
  | JBool (b : bool)
  | JInteger (z : Z)
  | JFloat (d : spec_float)
  | JString (s : string)
  | JArray (elements : list JsonVariant)
  | JObject (members : list (string * JsonVariant)).

Module Json.

Definition is_int (v : JsonVariant) : bool :=
  match v with
  | JInteger z => in_int_range z
  | _ => false
  end.

Definition is_float (v : JsonVariant) : bool :=
  match v with
  | JInteger _ | JFloat _ => true
  | _ => false
  end.

Definition is_string (v : JsonVariant) : bool :=
  match v with
  | JString _ => true
  | _ => false
  end.

Definition isNull (v : JsonVariant) : bool :=
  match v with
  | JNull => true
  | _ => false
  end.

(** [as<int>()]: a [double] converts when it lies between the [int]
    limits, by truncation. *)
Definition as_int (v : JsonVariant) : Z :=
  match v with
  | JInteger z => if in_int_range z then z else 0
  | JFloat d =>
      if IEEE.ge d (IEEE.double_of_Z INT_MIN) && IEEE.le d (IEEE.double_of_Z INT_MAX)
      then default 0 (IEEE.truncate d)
      else 0
  | JBool b => if b then 1 else 0
  | _ => 0
  end.

(** [as<float>()].  The program calls it on numbers only. *)
Definition as_float (v : JsonVariant) : spec_float :=
  match v with
  | JInteger z => IEEE.float_of_Z z
  | JFloat d => IEEE.float_of_double d
  | JBool b => IEEE.float_of_Z (if b then 1 else 0)
  | _ => S754_zero false
  end.

(** [as<String>()].  The program calls it on strings only. *)
Definition as_String (v : JsonVariant) : string :=
  match v with
  | JString s => s
  | _ => EmptyString
  end.

(** [as<const char*>()]: [None] is the null pointer. *)
Definition as_cstr (v : JsonVariant) : option string :=
  match v with
  | JString s => Some s
  | _ => None
  end.

Fixpoint assoc (key : string) (members : list (string * JsonVariant)) : option JsonVariant :=
  match members with
  | [] => None
  | (k, v) :: rest => if String.eqb key k then Some v else assoc key rest
  end.

(** [doc[key]]: the null variant when [doc] is no object or has no such
    member. *)
Definition member (key : string) (doc : JsonVariant) : JsonVariant :=
  match doc with
  | JObject members => default JNull (assoc key members)
  | _ => JNull
  end.

Definition containsKey (key : string) (doc : JsonVariant) : bool :=
  match doc with
  | JObject members =>
    match assoc key members with
    | Some _ => true
    | None => false
    end
  | _ => false
  end.

End Json.

(** ** The variable registry ([ESP32WebSocket.h]) *)

Inductive VarType : Type := TYPE_INT | TYPE_FLOAT | TYPE_STRING.

Record VariableConfig : Type := {
  name : string;
  type : VarType;
  intValue : Z;
  floatValue : spec_float;
  stringValue : string;
  minVal : spec_float;
  maxVal : spec_float;
  hasLimits : bool
}.

Definition set_intValue (v : VariableConfig) (x : Z) : VariableConfig :=
  {| name := name v; type := type v; intValue := x; floatValue := floatValue v;
     stringValue := stringValue v; minVal := minVal v; maxVal := maxVal v;
     hasLimits := hasLimits v |}.

Definition set_floatValue (v : VariableConfig) (x : spec_float) : VariableConfig :=
  {| name := name v; type := type v; intValue := intValue v; floatValue := x;
     stringValue := stringValue v; minVal := minVal v; maxVal := maxVal v;
     hasLimits := hasLimits v |}.

Definition set_stringValue (v : VariableConfig) (x : string) : VariableConfig :=
  {| name := name v; type := type v; intValue := intValue v; floatValue := floatValue v;
     stringValue := x; minVal := minVal v; maxVal := maxVal v;
     hasLimits := hasLimits v |}.

Definition varTypeToCharString (t : VarType) : string :=
  match t with
  | TYPE_INT => "INT"
  | TYPE_FLOAT => "FLOAT"
  | TYPE_STRING => "STRING"
  end.

(** The active member of a variable, as the JSON value the library writes
    into a document: [doc["value"] = var.intValue] and so on. *)
Definition json_of_value (v : VariableConfig) : JsonVariant :=
  match type v with
  | TYPE_INT => JInteger (intValue v)
  | TYPE_FLOAT => JFloat (IEEE.double_of_float (floatValue v))
  | TYPE_STRING => JString (stringValue v)
  end.

(** The return sites of [setVariableValueInternal]: [true], and the three
    [false] that print "Invalid index or uninitialized variables", "is not
    a compatible integer / a float/number / a string" and "is outside
    limits". *)
Inductive SetOutcome : Type := SetOk | InvalidIndex | TypeMismatch | OutOfRange.

Definition succeeded (r : SetOutcome) : bool :=
  match r with
  | SetOk => true
  | _ => false
  end.

(** The limit check of [setVariableValueInternal] on a value converted to
    [double]. *)
Definition out_of_limits (var : VariableConfig) (x : spec_float) : bool :=
  hasLimits var && (IEEE.lt x (minVal var) || IEEE.gt x (maxVal var)).

(** ** The sketch ([main.cpp]) *)

Definition SAMPLES_PER_CHUNK : Z := 25.

Record SensorDataPacket : Type := {
  reading1 : Z; reading2 : Z; reading3 : Z;
  reading4 : Z; reading5 : Z; reading6 : Z;
  time_ms : Z
}.

Definition byte_of_Z (z : Z) : byte :=
  default Byte.x00 (Byte.of_N (Z.to_N (z mod 256))).

Definition le16 (z : Z) : list byte :=
  [byte_of_Z z; byte_of_Z (Z.shiftr z 8)].

Definition le32 (z : Z) : list byte :=
  [byte_of_Z z; byte_of_Z (Z.shiftr z 8); byte_of_Z (Z.shiftr z 16); byte_of_Z (Z.shiftr z 24)].

(** The memory image of one packed record on the little-endian ESP32. *)
Definition packet_bytes (p : SensorDataPacket) : list byte :=
  le16 (reading1 p) ++ le16 (reading2 p) ++ le16 (reading3 p) ++
  le16 (reading4 p) ++ le16 (reading5 p) ++ le16 (reading6 p) ++
  le32 (time_ms p).

Definition PACKET_SIZE_BYTES : Z := 16.
Definition CHUNK_BUFFER_SIZE_BYTES : Z := SAMPLES_PER_CHUNK * PACKET_SIZE_BYTES.

Definition buffer_bytes (buf : list SensorDataPacket) : list byte :=
  flat_map packet_bytes buf.

Record Sketch : Type := {
  sensorDataBuffer : list SensorDataPacket;
  currentBufferIndex : Z;
  isAppStreaming : bool;
  streamStartTimeMs : Z
}.

(** A stream callback is a pointer to a function without arguments or
    result; it sees the sketch's globals and the millisecond clock. *)
Definition StreamControlCallback : Type := Z -> Sketch -> Sketch.

Definition application_onStreamStart : StreamControlCallback :=
  fun now sk =>
    {| sensorDataBuffer := sensorDataBuffer sk;
       currentBufferIndex := 0;
       isAppStreaming := true;
       streamStartTimeMs := now |}.

Definition application_onStreamStop : StreamControlCallback :=
  fun _ sk =>
    {| sensorDataBuffer := sensorDataBuffer sk;
       currentBufferIndex := currentBufferIndex sk;
       isAppStreaming := false;
       streamStartTimeMs := streamStartTimeMs sk |}.

Definition configurableVariables : list VariableConfig :=
  [ {| name := "led_intensity"; type := TYPE_INT; intValue := 128;
       floatValue := S754_zero false; stringValue := "";
       minVal := IEEE.double_of_Z 0; maxVal := IEEE.double_of_Z 255; hasLimits := true |};
    {| name := "update_interval"; type := TYPE_INT; intValue := 500;
       floatValue := S754_zero false; stringValue := "";
       minVal := IEEE.double_of_Z 50; maxVal := IEEE.double_of_Z 5000; hasLimits := true |};
    {| name := "motor_enable"; type := TYPE_INT; intValue := 0;
       floatValue := S754_zero false; stringValue := "";
       minVal := IEEE.double_of_Z 0; maxVal := IEEE.double_of_Z 1; hasLimits := true |};
    {| name := "device_label"; type := TYPE_STRING; intValue := 0;
       floatValue := S754_zero false; stringValue := "ESP32-01";
       minVal := IEEE.double_of_Z 0; maxVal := IEEE.double_of_Z 0; hasLimits := false |} ].

Definition numConfigurableVariables : Z := Z.of_nat (length configurableVariables).

(** ** The device: library statics, sketch globals, clock and trace *)

Inductive Hook : Type := OnStreamStart | OnStreamStop.

Inductive Effect : Type :=
  | SendText (clientId : N) (doc : JsonVariant)   (* ws.text(clientId, serialized doc) *)
  | BinaryAll (data : list byte)                  (* ws.binaryAll(data, len) *)
  | Invoke (h : Hook).                            (* a call through a stream callback *)

Record Device : Type := {
  _variables : option (list VariableConfig);      (* nullptr is None *)
  _numVariables : Z;
  _onStreamStartCallback : option StreamControlCallback;
  _onStreamStopCallback : option StreamControlCallback;
  _isStreaming : bool;
  ws_clients : gset N;                            (* the clients of the AsyncWebSocket ws *)
  sketch : Sketch;
  millis : Z;                                     (* the value millis() returns now *)
  effects : list Effect
}.

Definition with_variables (st : Device) (vars : option (list VariableConfig)) (n : Z) : Device :=
  {| _variables := vars; _numVariables := n;
     _onStreamStartCallback := _onStreamStartCallback st;
     _onStreamStopCallback := _onStreamStopCallback st;
     _isStreaming := _isStreaming st; ws_clients := ws_clients st;
     sketch := sketch st; millis := millis st; effects := effects st |}.

Definition with_callbacks (st : Device) (onStart onStop : option StreamControlCallback) : Device :=
  {| _variables := _variables st; _numVariables := _numVariables st;
     _onStreamStartCallback := onStart;
     _onStreamStopCallback := onStop;
     _isStreaming := _isStreaming st; ws_clients := ws_clients st;
     sketch := sketch st; millis := millis st; effects := effects st |}.

Definition with_isStreaming (st : Device) (b : bool) : Device :=
  {| _variables := _variables st; _numVariables := _numVariables st;
     _onStreamStartCallback := _onStreamStartCallback st;
     _onStreamStopCallback := _onStreamStopCallback st;
     _isStreaming := b; ws_clients := ws_clients st;
     sketch := sketch st; millis := millis st; effects := effects st |}.

Definition with_clients (st : Device) (cs : gset N) : Device :=
  {| _variables := _variables st; _numVariables := _numVariables st;
     _onStreamStartCallback := _onStreamStartCallback st;
     _onStreamStopCallback := _onStreamStopCallback st;
     _isStreaming := _isStreaming st; ws_clients := cs;
     sketch := sketch st; millis := millis st; effects := effects st |}.

Definition with_sketch (st : Device) (sk : Sketch) : Device :=
  {| _variables := _variables st; _numVariables := _numVariables st;
     _onStreamStartCallback := _onStreamStartCallback st;
     _onStreamStopCallback := _onStreamStopCallback st;
     _isStreaming := _isStreaming st; ws_clients := ws_clients st;
     sketch := sk; millis := millis st; effects := effects st |}.

Definition with_millis (st : Device) (t : Z) : Device :=
  {| _variables := _variables st; _numVariables := _numVariables st;
     _onStreamStartCallback := _onStreamStartCallback st;
     _onStreamStopCallback := _onStreamStopCallback st;
     _isStreaming := _isStreaming st; ws_clients := ws_clients st;
     sketch := sketch st; millis := t; effects := effects st |}.

Definition emit (e : Effect) (st : Device) : Device :=
  {| _variables := _variables st; _numVariables := _numVariables st;
     _onStreamStartCallback := _onStreamStartCallback st;
     _onStreamStopCallback := _onStreamStopCallback st;
     _isStreaming := _isStreaming st; ws_clients := ws_clients st;
     sketch := sketch st; millis := millis st; effects := effects st ++ [e] |}.

(** A call [cb()] through a stream callback. *)
Definition call (h : Hook) (cb : StreamControlCallback) (st : Device) : Device :=
  emit (Invoke h) (with_sketch st (cb (millis st) (sketch st))).

(** [ws.count()]. *)
Definition ws_count (st : Device) : Z := Z.of_nat (size (ws_clients st)).

(** The device before [setup()]: the initializers of the statics and of
    the globals. *)
Definition power_on : Device :=
  {| _variables := None; _numVariables := 0;
     _onStreamStartCallback := None; _onStreamStopCallback := None;
     _isStreaming := false; ws_clients := ∅;
     sketch := {| sensorDataBuffer :=
                    replicate (Z.to_nat SAMPLES_PER_CHUNK)
                      {| reading1 := 0; reading2 := 0; reading3 := 0; reading4 := 0;
                         reading5 := 0; reading6 := 0; time_ms := 0 |};
                  currentBufferIndex := 0;
                  isAppStreaming := false;
                  streamStartTimeMs := 0 |};
     millis := 0; effects := [] |}.

(** ** WebSocket events (ESPAsyncWebServer) *)

Inductive AwsFrameType : Type :=
  | WS_CONTINUATION | WS_TEXT | WS_BINARY | WS_DISCONNECT | WS_PING | WS_PONG.

Record AwsFrameInfo : Type := {
  info_opcode : AwsFrameType;
  info_final : bool;
  info_index : Z;
  info_len : Z
}.

(** The arguments of the event handler besides the client.  For a data
    event, [len] is the number of bytes received and [parsed] is what
    [deserializeJson] makes of them: [None] when it reports an error. *)
Inductive AwsEvent : Type :=
  | WS_EVT_CONNECT
  | WS_EVT_DISCONNECT
  | WS_EVT_DATA (info : AwsFrameInfo) (len : Z) (parsed : option JsonVariant)
  | WS_EVT_PONG
  | WS_EVT_ERROR.

Definition AwsFrameType_eqb (a b : AwsFrameType) : bool :=
  match a, b with
  | WS_CONTINUATION, WS_CONTINUATION | WS_TEXT, WS_TEXT | WS_BINARY, WS_BINARY
  | WS_DISCONNECT, WS_DISCONNECT | WS_PING, WS_PING | WS_PONG, WS_PONG => true
  | _, _ => false
  end.

(** ** The library ([ESP32WebSocket.cpp]): what does not convert a [float] *)

Fixpoint find_from (i : Z) (nm : string) (vars : list VariableConfig) : Z :=
  match vars with
  | [] => -1
  | v :: rest => if String.eqb nm (name v) then i else find_from (i + 1) nm rest
  end.

(** The loop runs over the first [_numVariables] elements. *)
Definition findVariableIndexInternal (nm : string) (st : Device) : Z :=
  match _variables st with
  | None => -1
  | Some vars =>
      if _numVariables st <=? 0 then -1
      else find_from 0 nm (take (Z.to_nat (_numVariables st)) vars)
  end.

Definition value_document (var : VariableConfig) : JsonVariant :=
  JObject [("variable", JString (name var)); ("value", json_of_value var)].

Definition sendVariableValueInternal (clientId : N) (variableIndex : Z) (st : Device) : Device :=
  match _variables st with
  | None => st
  | Some vars =>
      if (variableIndex <? 0) || (_numVariables st <=? variableIndex) then st
      else
        match vars !! Z.to_nat variableIndex with
        | None => st
        | Some var => emit (SendText clientId (value_document var)) st
        end
  end.

Definition status_document (status message : string) : JsonVariant :=
  JObject [("status", JString status); ("message", JString message)].

Definition sendStatusInternal (clientId : N) (status message : string) (st : Device) : Device :=
  emit (SendText clientId (status_document status message)) st.

(** *** ArduinoJson's memory pool

    A document keeps what it holds in a pool of the capacity it was made
    with: one slot for every array element and every object member, and
    one copy of every [String] it is handed, a string equal to a copy it
    already holds being shared.  Keys and values that are [const char*]
    are kept by pointer and take no room beyond their slot.  A request
    the room left does not cover is refused, the pool staying as it is.
    On the ESP32 a slot takes 16 bytes. *)

Module Pool.

Definition VARIANT_SLOT_SIZE : Z := 16.

Record MemoryPool : Type := {
  room : Z;
  copies : list string
}.

Definition create (capacity : Z) : MemoryPool := {| room := capacity; copies := [] |}.

Definition canAlloc (bytes : Z) (pool : MemoryPool) : bool := bytes <=? room pool.

Definition allocVariant (pool : MemoryPool) : option MemoryPool :=
  if canAlloc VARIANT_SLOT_SIZE pool
  then Some {| room := room pool - VARIANT_SLOT_SIZE; copies := copies pool |}
  else None.

Definition findString (s : string) (pool : MemoryPool) : bool :=
  existsb (String.eqb s) (copies pool).

(** The copy takes the bytes of the string and its terminator. *)
Definition saveString (s : string) (pool : MemoryPool) : option MemoryPool :=
  if findString s pool then Some pool
  else
    let n := Z.of_nat (String.length s) + 1 in
    if canAlloc n pool
    then Some {| room := room pool - n; copies := copies pool ++ [s] |}
    else None.

End Pool.

(** An object that is being filled, with the pool of its document. *)
Definition Building : Type := Pool.MemoryPool * list (string * JsonVariant).

(** [obj[key] = v] for a key the object does not have yet and a value
    that is a number, a boolean or a [const char*]: without room for the
    slot the member is not added. *)
Definition set_member (key : string) (v : JsonVariant) (b : Building) : Building :=
  match Pool.allocVariant (fst b) with
  | Some pool => (pool, snd b ++ [(key, v)])
  | None => b
  end.

(** [obj[key] = s] for a [String]: the slot is taken first; without room
    for the copy the member is there and holds null. *)
Definition set_member_String (key : string) (s : string) (b : Building) : Building :=
  match Pool.allocVariant (fst b) with
  | Some pool =>
      match Pool.saveString s pool with
      | Some pool' => (pool', snd b ++ [(key, JString s)])
      | None => (pool, snd b ++ [(key, JNull)])
      end
  | None => b
  end.

(** The [switch] that writes the "value" member. *)
Definition set_value (var : VariableConfig) (b : Building) : Building :=
  match type var with
  | TYPE_INT => set_member "value" (JInteger (intValue var)) b
  | TYPE_FLOAT => set_member "value" (JFloat (IEEE.double_of_float (floatValue var))) b
  | TYPE_STRING => set_member_String "value" (stringValue var) b
  end.

(** One pass of the loop that fills the "variables" array.  When
    [createNestedObject()] finds no room for the element it answers a
    null object, on which the assignments do nothing. *)
Definition add_variable (acc : Pool.MemoryPool * list JsonVariant) (var : VariableConfig)
    : Pool.MemoryPool * list JsonVariant :=
  match Pool.allocVariant (fst acc) with
  | None => acc
  | Some pool =>
      let b := set_member "name" (JString (name var)) (pool, []) in
      let b := set_member "type" (JString (varTypeToCharString (type var))) b in
      let b := set_value var b in
      let b := set_member "hasLimits" (JBool (hasLimits var)) b in
      let b := if hasLimits var
               then set_member "max" (JFloat (maxVal var))
                      (set_member "min" (JFloat (minVal var)) b)
               else b in
      (fst b, snd acc ++ [JObject (snd b)])
  end.

(** The configuration list as it leaves the loop, built in a
    [DynamicJsonDocument] of [numVariables * 100 + 128] bytes. *)
Definition config_document (numVariables : Z) (vars : list VariableConfig) : JsonVariant :=
  let root := set_member "status" (JString "var_config_list")
                (Pool.create (numVariables * 100 + 128), []) in
  match Pool.allocVariant (fst root) with
  | None => JObject (snd root)
  | Some pool =>
      JObject (snd root ++ [("variables", JArray (snd (foldl add_variable (pool, []) vars)))])
  end.

(** The elements of the "variables" array of [config_document]. *)
Definition config_entries (numVariables : Z) (vars : list VariableConfig) : list JsonVariant :=
  snd (foldl add_variable
         ({| Pool.room := numVariables * 100 + 128 - 2 * Pool.VARIANT_SLOT_SIZE;
             Pool.copies := [] |}, []) vars).

(** An element of the array with every member the loop writes. *)
Definition config_entry (var : VariableConfig) : JsonVariant :=
  JObject ([("name", JString (name var));
            ("type", JString (varTypeToCharString (type var)));
            ("value", json_of_value var);
            ("hasLimits", JBool (hasLimits var))] ++
           (if hasLimits var
            then [("min", JFloat (minVal var)); ("max", JFloat (maxVal var))]
            else [])).

(** The room the complete element of a variable asks of the pool: its
    slot in the array, a slot for each member, and the copy of a string
    value. *)
Definition entry_size (var : VariableConfig) : Z :=
  Pool.VARIANT_SLOT_SIZE * (if hasLimits var then 7 else 5) +
  match type var with
  | TYPE_STRING => Z.of_nat (String.length (stringValue var)) + 1
  | _ => 0
  end.

(** The room that is enough for the complete list: the two members of
    the root and every element. *)
Definition config_size (vars : list VariableConfig) : Z :=
  2 * Pool.VARIANT_SLOT_SIZE + foldr (fun var n => entry_size var + n) 0 vars.

Definition initWiFiWebSocketServer (appVariables : option (list VariableConfig))
    (appNumVariables : Z) (st : Device) : Device :=
  with_variables st appVariables appNumVariables.

Definition setStreamCallbacks (onStart onStop : option StreamControlCallback)
    (st : Device) : Device :=
  with_callbacks st onStart onStop.

Definition broadcastBinaryData (data : list byte) (st : Device) : Device :=
  if (0 <? ws_count st) && (0 <? Z.of_nat (length data))
  then emit (BinaryAll data) st
  else st.

(** ** The sketch's [setup()] and [loop()] ([main.cpp]) *)

(** [setup()], as far as the engine's state goes. *)
Definition setup (st : Device) : Device :=
  setStreamCallbacks (Some application_onStreamStart) (Some application_onStreamStop)
    (initWiFiWebSocketServer (Some configurableVariables) numConfigurableVariables st).

(** What [analogRead] returns on the six pins during one pass of
    [loop()]. *)
Record Readings : Type := {
  pin1 : Z; pin2 : Z; pin3 : Z; pin4 : Z; pin5 : Z; pin6 : Z
}.

Definition with_buffer (sk : Sketch) (buf : list SensorDataPacket) (i : Z) : Sketch :=
  {| sensorDataBuffer := buf; currentBufferIndex := i;
     isAppStreaming := isAppStreaming sk;
     streamStartTimeMs := streamStartTimeMs sk |}.

(** One pass of [loop()].  The idle branch keeps a timestamp local to
    the function and nothing else; it leaves the device as it is.  The
    index stays below [SAMPLES_PER_CHUNK] (see [inv_index]), so
    every write falls inside the array. *)
Definition loop (r : Readings) (st : Device) : Device :=
  let sk := sketch st in
  if isAppStreaming sk then
    let currentTimeMs := wrap_u32 (millis st - streamStartTimeMs sk) in
    let packet :=
      {| reading1 := wrap_u16 (pin1 r); reading2 := wrap_u16 (pin2 r);
         reading3 := wrap_u16 (pin3 r); reading4 := wrap_u16 (pin4 r);
         reading5 := wrap_u16 (pin5 r); reading6 := wrap_u16 (pin6 r);
         time_ms := currentTimeMs |} in
    let buf := <[Z.to_nat (currentBufferIndex sk) := packet]> (sensorDataBuffer sk) in
    let i := currentBufferIndex sk + 1 in
    if SAMPLES_PER_CHUNK <=? i then
      broadcastBinaryData
        (take (Z.to_nat CHUNK_BUFFER_SIZE_BYTES) (buffer_bytes buf))
        (with_sketch st (with_buffer sk buf 0))
    else with_sketch st (with_buffer sk buf i)
  else st.

(** ** Reading the trace and the documents *)

Definition is_invoke (h : Hook) (e : Effect) : bool :=
  match e, h with
  | Invoke OnStreamStart, OnStreamStart | Invoke OnStreamStop, OnStreamStop => true
  | _, _ => false
  end.

Definition is_text (e : Effect) : bool :=
  match e with
  | SendText _ _ => true
  | _ => false
  end.

Definition is_binary (e : Effect) : bool :=
  match e with
  | BinaryAll _ => true
  | _ => false
  end.

Definition invocations (h : Hook) (es : list Effect) : nat :=
  length (List.filter (is_invoke h) es).

Definition texts (es : list Effect) : list Effect :=
  List.filter is_text es.

Definition chunks (es : list Effect) : list (list byte) :=
  omap (fun e => match e with BinaryAll d => Some d | _ => None end) es.

(** The [action] of a document, as the router reads it. *)
Definition action_of (jsonDoc : JsonVariant) : option string :=
  Json.as_cstr (Json.member "action" jsonDoc).

(** The [variable] of a document, as the router reads it. *)
Definition variable_of (jsonDoc : JsonVariant) : option string :=
  Json.as_cstr (Json.member "variable" jsonDoc).

(** A candidate converted to a variable's declared type. *)
Definition converted (t : VarType) (v : JsonVariant) : JsonVariant :=
  match t with
  | TYPE_INT => JInteger (Json.as_int v)
  | TYPE_FLOAT => JFloat (IEEE.double_of_float (Json.as_float v))
  | TYPE_STRING => JString (Json.as_String v)
  end.

Definition set_request (nm : string) (v : JsonVariant) : JsonVariant :=
  JObject [("action", JString "set"); ("variable", JString nm); ("value", v)].

Definition get_request (nm : string) : JsonVariant :=
  JObject [("action", JString "get"); ("variable", JString nm)].

(** The demonstration device: [setup()] run on the device as powered on. *)
Definition demo : Device := setup power_on.

(** The packet one pass of [loop()] writes. *)
Definition sample (r : Readings) (st : Device) : SensorDataPacket :=
  {| reading1 := wrap_u16 (pin1 r); reading2 := wrap_u16 (pin2 r);
     reading3 := wrap_u16 (pin3 r); reading4 := wrap_u16 (pin4 r);
     reading5 := wrap_u16 (pin5 r); reading6 := wrap_u16 (pin6 r);
     time_ms := wrap_u32 (millis st - streamStartTimeMs (sketch st)) |}.

(** What the invariant reads. *)
Definition core (st : Device) :=
  (_onStreamStartCallback st, _onStreamStopCallback st, sketch st, _isStreaming st,
   ws_clients st).

Definition start_request : JsonVariant := JObject [("action", JString "start_stream")].

Definition stop_request : JsonVariant := JObject [("action", JString "stop_stream")].

Definition config_request : JsonVariant := JObject [("action", JString "get_all_vars_config")].

(** A label of 120 characters; the "set" command that carries it takes
    208 of the 256 bytes of the document it is received in. *)
Definition long_label : string :=
  String.concat String.EmptyString (replicate 120 "x").

(** The readings of an idle input: every pin at zero. *)
Definition quiet : Readings :=
  {| pin1 := 0; pin2 := 0; pin3 := 0; pin4 := 0; pin5 := 0; pin6 := 0 |}.

(** One behaviour a target can have for a conversion to [int] that C++
    leaves undefined: the result saturates.  No theorem depends on it; the
    worked instances are run with it. *)
Definition int_cast_saturating (f : spec_float) : Z :=
  match f with
  | S754_finite true _ _ | S754_infinity true => INT_MIN
  | _ => INT_MAX
  end.

(** ** Broadcasting a variable ([ESP32WebSocket.cpp]) *)

(** [broadcastVariableUpdate(variableName)]: the document handed to
    [ws.textAll], [None] when the function returns before that call.  The
    name is a pointer, [None] when null; [findVariableIndexInternal]
    answers -1 for it.  The function writes to none of the statics. *)
Definition broadcastVariableUpdate (variableName : option string) (st : Device)
  : option JsonVariant :=
  if ws_count st =? 0 then None
  else
    match _variables st with
    | None => None
    | Some vars =>
        if _numVariables st <=? 0 then None
        else
          let index :=
            match variableName with
            | Some nm => findVariableIndexInternal nm st
            | None => -1
            end in
          if index <? 0 then None
          else value_document <$> vars !! Z.to_nat index
    end.

(** ** Reading the registry and the trace *)

(** What a variable is declared with: its name, its type and its limits. *)
Definition declaration (var : VariableConfig)
  : string * VarType * (spec_float * spec_float * bool) :=
  (name var, type var, (minVal var, maxVal var, hasLimits var)).

(** What the library is configured with: the declarations of the
    variables, their number, and the two callbacks. *)
Definition configuration (st : Device)
  : option (list (string * VarType * (spec_float * spec_float * bool))) * Z *
    (option StreamControlCallback * option StreamControlCallback) :=
  (fmap (M := option) (fmap (M := list) declaration) (_variables st), _numVariables st,
   (_onStreamStartCallback st, _onStreamStopCallback st)).

(** The active value of a numeric variable passes the limit check of
    [setVariableValueInternal]. *)
Definition within_limits (var : VariableConfig) : bool :=
  match type var with
  | TYPE_INT => negb (out_of_limits var (IEEE.double_of_Z (intValue var)))
  | TYPE_FLOAT => negb (out_of_limits var (IEEE.double_of_float (floatValue var)))
  | TYPE_STRING => true
  end.

Definition registry_within_limits (st : Device) : bool :=
  match _variables st with
  | Some vars => forallb within_limits vars
  | None => true
  end.

(** The calls through the stream callbacks, in the order of the trace. *)
Definition hooks (es : list Effect) : list Hook :=
  omap (fun e => match e with Invoke h => Some h | _ => None end) es.

(** The two-state stream controller run over a list of calls: a start is
    possible only when stopped, a stop only when streaming. *)
Fixpoint replay (streaming : bool) (hs : list Hook) : option bool :=
  match hs with
  | [] => Some streaming
  | OnStreamStart :: rest => if streaming then None else replay true rest
  | OnStreamStop :: rest => if streaming then replay false rest else None
  end.

(** The text messages of a trace: receiver and document. *)
Definition sent (es : list Effect) : list (N * JsonVariant) :=
  omap (fun e => match e with SendText c doc => Some (c, doc) | _ => None end) es.

(** The status and message of every call of [sendStatusInternal] in the
    library. *)
Definition statuses : list (string * string) :=
  [ ("error", "Invalid JSON format received.");
    ("error", "JSON missing 'action' field.");
    ("error", "Missing 'variable' field for get/set action.");
    ("error", "Variable name not found.");
    ("error", "Missing or null 'value' field for set action.");
    ("error", "Failed to set value (invalid type or out of limits).");
    ("ok", "Stream started.");
    ("info", "Stream was already active.");
    ("error", "Streaming feature not implemented/configured.");
    ("ok", "Stream stopped.");
    ("info", "Stream was already stopped.");
    ("error", "No variables configured on server.");
    ("error", "Unknown 'action' command.") ].

(** The three shapes of document the library builds. *)
Inductive Reply : JsonVariant -> Prop :=
  | reply_status (s m : string) : (s, m) ∈ statuses -> Reply (status_document s m)
  | reply_value (var : VariableConfig) : Reply (value_document var)
  | reply_config (n : Z) (vars : list VariableConfig) :
      0 < n -> Reply (config_document n vars).

(** The fields of a record are what [uint16_t] and [uint32_t] hold. *)
Definition packet_ok (p : SensorDataPacket) : bool :=
  forallb (fun z => (0 <=? z) && (z <? 2 ^ 16))
    [reading1 p; reading2 p; reading3 p; reading4 p; reading5 p; reading6 p] &&
  ((0 <=? time_ms p) && (time_ms p <? 2 ^ 32)).

(** The six readings of a record, in the order of the struct. *)
Definition readings_of (p : SensorDataPacket) : list Z :=
  [reading1 p; reading2 p; reading3 p; reading4 p; reading5 p; reading6 p].

(** ** The browser client ([data/js])

    A message is the value [JSON.parse] returns, a JSON tree; a binary
    message is the list of the bytes of its [ArrayBuffer].  [None] stands
    for an exception. *)

Module Client.

(** *** [uiUpdater.js]: the binary log *)

Definition SENSOR_PACKET_BYTES : Z := 16.
Definition SENSORS_PER_PACKET : Z := 6.

Definition byte_at (dataView : list byte) (i : Z) : option Z :=
  if i <? 0 then None
  else (fun b => Z.of_N (Byte.to_N b)) <$> dataView !! Z.to_nat i.

(** [dataView.getUint16(byteOffset, true)]: little-endian; a read that
    leaves the buffer throws. *)
Definition getUint16 (dataView : list byte) (byteOffset : Z) : option Z :=
  b0 ← byte_at dataView byteOffset;
  b1 ← byte_at dataView (byteOffset + 1);
  Some (b0 + 2 ^ 8 * b1).

(** [dataView.getUint32(byteOffset, true)]. *)
Definition getUint32 (dataView : list byte) (byteOffset : Z) : option Z :=
  b0 ← byte_at dataView byteOffset;
  b1 ← byte_at dataView (byteOffset + 1);
  b2 ← byte_at dataView (byteOffset + 2);
  b3 ← byte_at dataView (byteOffset + 3);
  Some (b0 + 2 ^ 8 * b1 + 2 ^ 16 * b2 + 2 ^ 24 * b3).

(** A line of the log, as the values its template literal interpolates. *)
Inductive LogLine : Type :=
  | PacketLine (chunk i : Z) (sensorReadings : list Z) (timeMs : Z)
  | OmittedLine (chunk i omitted : Z)
  | InvalidBuffer (byteLength : Z).

(** What one pass of the loop of [processAndLogBinaryData] reads at
    [offset]: the six readings and the timestamp. *)
Definition read_packet (dataView : list byte) (offset : Z) : option (list Z * Z) :=
  sensorReadings ← mapM (fun s => getUint16 dataView (offset + s * 2))
                        (seqZ 0 SENSORS_PER_PACKET);
  timeMs ← getUint32 dataView (offset + SENSORS_PER_PACKET * 2);
  Some (sensorReadings, timeMs).

(** What that pass adds to the log. *)
Definition log_packet (currentChunkCounter numPacketsInChunk i : Z) (p : list Z * Z)
  : list LogLine :=
  if (i =? 0) || (i =? numPacketsInChunk - 1)
  then [PacketLine currentChunkCounter i (fst p) (snd p)]
  else if (i =? 1) && (2 <? numPacketsInChunk)
  then [OmittedLine currentChunkCounter i (numPacketsInChunk - 2)]
  else [].

(** [processAndLogBinaryData]: the text it hands to [logToBinaryArea]. *)
Definition processAndLogBinaryData (arrayBuffer : list byte) (currentChunkCounter : Z)
  : option (list LogLine) :=
  let byteLength := Z.of_nat (length arrayBuffer) in
  if (byteLength =? 0) || negb (byteLength mod SENSOR_PACKET_BYTES =? 0)
  then Some [InvalidBuffer byteLength]
  else
    let numPacketsInChunk := byteLength / SENSOR_PACKET_BYTES in
    (fun lines => concat lines) <$>
      mapM (fun i =>
              log_packet currentChunkCounter numPacketsInChunk i <$>
                read_packet arrayBuffer (i * SENSOR_PACKET_BYTES))
           (seqZ 0 numPacketsInChunk).

(** *** [websocketService.js]: routing a text message *)

(** [message.key]: [None] is [undefined].  [JSON.parse] keeps the last
    of the members that share a key. *)
Fixpoint own (key : string) (members : list (string * JsonVariant)) : option JsonVariant :=
  match members with
  | [] => None
  | (k, v) :: rest =>
      match own key rest with
      | Some w => Some w
      | None => if String.eqb key k then Some v else None
      end
  end.

Definition prop (key : string) (message : JsonVariant) : option JsonVariant :=
  match message with
  | JObject members => own key members
  | _ => None
  end.

(** The truth value of an expression in a condition. *)
Definition truthy (v : option JsonVariant) : bool :=
  match v with
  | None | Some JNull => false
  | Some (JBool b) => b
  | Some (JInteger z) => negb (z =? 0)
  | Some (JFloat (S754_zero _)) | Some (JFloat S754_nan) => false
  | Some (JFloat _) => true
  | Some (JString s) => negb (String.eqb s "")
  | Some (JArray _) | Some (JObject _) => true
  end.

(** [v === s] for a string literal [s]. *)
Definition is_string (s : string) (v : option JsonVariant) : bool :=
  match v with
  | Some (JString t) => String.eqb t s
  | _ => false
  end.

Definition defined (v : option JsonVariant) : bool :=
  match v with
  | Some _ => true
  | None => false
  end.

(** The handler [routeIncomingMessage] calls, with its argument. *)
Inductive Routed : Type :=
  | ConfigList (variables : JsonVariant)
  | ServerStatus (message : JsonVariant)
  | VariableUpdate (message : JsonVariant)
  | Unhandled (message : JsonVariant).

(** Reading a property of [null] throws. *)
Definition routeIncomingMessage (message : JsonVariant) : option Routed :=
  match message with
  | JNull => None
  | _ =>
      if is_string "var_config_list" (prop "status" message) &&
         truthy (prop "variables" message)
      then ConfigList <$> prop "variables" message
      else if truthy (prop "status" message) then Some (ServerStatus message)
      else if defined (prop "variable" message) && defined (prop "value" message)
      then Some (VariableUpdate message)
      else Some (Unhandled message)
  end.

(** *** [main.js] and [appState.js]: the stream state *)

(** The two variables of [appState.js] that follow the stream. *)
Record StreamState : Type := {
  isClientStreaming : bool;
  binaryChunkCounter : Z
}.

Definition setStreaming (status : bool) (s : StreamState) : StreamState :=
  {| isClientStreaming := status; binaryChunkCounter := binaryChunkCounter s |}.

Definition resetChunkCounter (s : StreamState) : StreamState :=
  {| isClientStreaming := isClientStreaming s; binaryChunkCounter := 0 |}.

Definition incrementChunkCounter (s : StreamState) : StreamState :=
  {| isClientStreaming := isClientStreaming s;
     binaryChunkCounter := binaryChunkCounter s + 1 |}.

(** [toLowerCase()] on text in ASCII, which the messages of the library
    are. *)
Definition lower (a : Ascii.ascii) : Ascii.ascii :=
  let n := Ascii.nat_of_ascii a in
  if (65 <=? n)%nat && (n <=? 90)%nat then Ascii.ascii_of_nat (n + 32) else a.

Fixpoint toLowerCase (s : string) : string :=
  match s with
  | EmptyString => EmptyString
  | String a rest => String (lower a) (toLowerCase rest)
  end.

(** [s.includes(part)]. *)
Definition includes (s part : string) : bool :=
  match String.index 0 part s with
  | Some _ => true
  | None => false
  end.

(** The handler [main.js] registers with [setOnServerStatus]: the stream
    state it leaves, and whether it redraws the stream controls.
    [message.message.toLowerCase()] throws unless the message is a
    string. *)
Definition onServerStatusHandler (message : JsonVariant) (s : StreamState)
  : option (StreamState * bool) :=
  match prop "message" message with
  | Some (JString text) =>
      let msgText := toLowerCase text in
      if includes msgText "stream iniciado" || includes msgText "stream já estava ativo"
      then
        let s1 :=
          if negb (isClientStreaming s) || includes msgText "stream iniciado"
          then resetChunkCounter s else s in
        Some (setStreaming true s1, true)
      else if includes msgText "stream parado" || includes msgText "stream já estava parado"
      then
        if isClientStreaming s then Some (setStreaming false s, true) else Some (s, false)
      else Some (s, false)
  | _ => None
  end.

(** The handler [main.js] registers with [setOnBinaryData]: the counter
    goes up, then the chunk is logged under the new count. *)
Definition onBinaryDataHandler (arrayBuffer : list byte) (s : StreamState)
  : StreamState * option (list LogLine) :=
  let s1 := incrementChunkCounter s in
  (s1, processAndLogBinaryData arrayBuffer (binaryChunkCounter s1)).

End Client.

(** ** The library ([ESP32WebSocket.cpp]): validation and the event handler *)

Section Library.

(** C++ leaves [(int)f] undefined when the truncation of [f] is no
    [int]; this is the value the conversion then yields on the target. *)
Variable int_cast_out_of_range : spec_float -> Z.

(** [(int)f] for a [float] [f]. *)
Definition int_of_float (f : spec_float) : Z :=
  match IEEE.truncate f with
  | Some z => if in_int_range z then z else wrap_int (int_cast_out_of_range f)
  | None => wrap_int (int_cast_out_of_range f)
  end.

(** The [switch (var.type)] of [setVariableValueInternal]: the checks on
    the candidate and the variable after the assignment. *)
Definition assign (var : VariableConfig) (newValueVariant : JsonVariant)
  : SetOutcome * VariableConfig :=
  match type var with
  | TYPE_INT =>
      if negb (Json.is_int newValueVariant) &&
         negb (Json.is_float newValueVariant &&
               IEEE.eq (Json.as_float newValueVariant)
                       (IEEE.float_of_Z (int_of_float (Json.as_float newValueVariant))))
      then (TypeMismatch, var)
      else
        let newValue := Json.as_int newValueVariant in
        if hasLimits var &&
           (IEEE.lt (IEEE.double_of_Z newValue) (minVal var) ||
            IEEE.gt (IEEE.double_of_Z newValue) (maxVal var))
        then (OutOfRange, var)
        else (SetOk, set_intValue var newValue)
  | TYPE_FLOAT =>
      if negb (Json.is_float newValueVariant) && negb (Json.is_int newValueVariant)
      then (TypeMismatch, var)
      else
        let newValue := Json.as_float newValueVariant in
        if hasLimits var &&
           (IEEE.lt (IEEE.double_of_float newValue) (minVal var) ||
            IEEE.gt (IEEE.double_of_float newValue) (maxVal var))
        then (OutOfRange, var)
        else (SetOk, set_floatValue var newValue)
  | TYPE_STRING =>
      (* is<const char*>() and is<String>() hold for strings alike *)
      if negb (Json.is_string newValueVariant) && negb (Json.is_string newValueVariant)
      then (TypeMismatch, var)
      else (SetOk, set_stringValue var (Json.as_String newValueVariant))
  end.

(** [_variables[index]] is read inside the application's array; an index
    below [_numVariables] and beyond the array is not met by an
    application that passes the array's true length. *)
Definition setVariableValueInternal (index : Z) (newValueVariant : JsonVariant)
    (st : Device) : SetOutcome * Device :=
  match _variables st with
  | None => (InvalidIndex, st)
  | Some vars =>
      if (index <? 0) || (_numVariables st <=? index) then (InvalidIndex, st)
      else
        match vars !! Z.to_nat index with
        | None => (InvalidIndex, st)
        | Some var =>
            let '(r, var') := assign var newValueVariant in
            if succeeded r
            then (r, with_variables st (Some (<[Z.to_nat index := var']> vars))
                       (_numVariables st))
            else (r, st)
        end
  end.

Definition onWebSocketEvent (clientId : N) (ev : AwsEvent) (st : Device) : Device :=
  match ev with
  | WS_EVT_CONNECT => st
  | WS_EVT_DISCONNECT =>
      if _isStreaming st && (ws_count st =? 0) then
        match _onStreamStopCallback st with
        | Some onStop => with_isStreaming (call OnStreamStop onStop st) false
        | None => st
        end
      else st
  | WS_EVT_DATA info len parsed =>
      if AwsFrameType_eqb (info_opcode info) WS_TEXT && info_final info &&
         (info_index info =? 0) && (info_len info =? len)
      then
        match parsed with
        | None => sendStatusInternal clientId "error" "Invalid JSON format received." st
        | Some jsonDoc =>
            match Json.as_cstr (Json.member "action" jsonDoc) with
            | None => sendStatusInternal clientId "error" "JSON missing 'action' field." st
            | Some action =>
                if String.eqb action "get" || String.eqb action "set" then
                  match Json.as_cstr (Json.member "variable" jsonDoc) with
                  | None =>
                      sendStatusInternal clientId "error"
                        "Missing 'variable' field for get/set action." st
                  | Some variableName =>
                      let varIndex := findVariableIndexInternal variableName st in
                      if varIndex =? -1 then
                        sendStatusInternal clientId "error" "Variable name not found." st
                      else if String.eqb action "get" then
                        sendVariableValueInternal clientId varIndex st
                      else if negb (Json.containsKey "value" jsonDoc) ||
                              Json.isNull (Json.member "value" jsonDoc) then
                        sendStatusInternal clientId "error"
                          "Missing or null 'value' field for set action." st
                      else
                        let '(r, st') :=
                          setVariableValueInternal varIndex (Json.member "value" jsonDoc) st in
                        if succeeded r then sendVariableValueInternal clientId varIndex st'
                        else
                          sendStatusInternal clientId "error"
                            "Failed to set value (invalid type or out of limits)." st'
                  end
                else if String.eqb action "start_stream" then
                  match _onStreamStartCallback st with
                  | Some onStart =>
                      if negb (_isStreaming st) then
                        sendStatusInternal clientId "ok" "Stream started."
                          (with_isStreaming (call OnStreamStart onStart st) true)
                      else
                        sendStatusInternal clientId "info" "Stream was already active." st
                  | None =>
                      sendStatusInternal clientId "error"
                        "Streaming feature not implemented/configured." st
                  end
                else if String.eqb action "stop_stream" then
                  match _onStreamStopCallback st with
                  | Some onStop =>
                      if _isStreaming st then
                        sendStatusInternal clientId "ok" "Stream stopped."
                          (with_isStreaming (call OnStreamStop onStop st) false)
                      else
                        sendStatusInternal clientId "info" "Stream was already stopped." st
                  | None =>
                      sendStatusInternal clientId "error"
                        "Streaming feature not implemented/configured." st
                  end
                else if String.eqb action "get_all_vars_config" then
                  match _variables st with
                  | None =>
                      sendStatusInternal clientId "error" "No variables configured on server." st
                  | Some vars =>
                      if _numVariables st <=? 0 then
                        sendStatusInternal clientId "error"
                          "No variables configured on server." st
                      else
                        emit (SendText clientId
                                (config_document (_numVariables st)
                                   (take (Z.to_nat (_numVariables st)) vars))) st
                  end
                else
                  sendStatusInternal clientId "error" "Unknown 'action' command." st
            end
        end
      else st
  | WS_EVT_PONG => st
  | WS_EVT_ERROR => st
  end.

(** ** The environment: transport, clock and scheduler *)

(** The AsyncWebSocket server keeps the client list.  A client is on the
    list when its connect event is delivered, and off the list when its
    disconnect event is delivered ("ws.count() is now 0 AFTER this
    client is removed"). *)
Definition client_connects (clientId : N) (st : Device) : Device :=
  onWebSocketEvent clientId WS_EVT_CONNECT (with_clients st ({[clientId]} ∪ ws_clients st)).

Definition client_disconnects (clientId : N) (st : Device) : Device :=
  onWebSocketEvent clientId WS_EVT_DISCONNECT (with_clients st (ws_clients st ∖ {[clientId]})).

(** A complete text message from a client, of [len] bytes. *)
Definition text_frame (len : Z) : AwsFrameInfo :=
  {| info_opcode := WS_TEXT; info_final := true; info_index := 0; info_len := len |}.

Definition client_sends (clientId : N) (len : Z) (parsed : option JsonVariant)
    (st : Device) : Device :=
  onWebSocketEvent clientId (WS_EVT_DATA (text_frame len) len parsed) st.

(** What happens to the device, one thing at a time. *)
Inductive Step : Type :=
  | Connect (clientId : N)
  | Disconnect (clientId : N)
  | Event (clientId : N) (ev : AwsEvent)
  | Loop (r : Readings)
  | Tick (ms : Z).

Definition step (s : Step) (st : Device) : Device :=
  match s with
  | Connect c => client_connects c st
  | Disconnect c => client_disconnects c st
  | Event c ev => onWebSocketEvent c ev st
  | Loop r => loop r st
  | Tick ms => with_millis st (wrap_u32 (millis st + ms))
  end.

Definition run (steps : list Step) (st : Device) : Device :=
  foldl (fun st s => step s st) st steps.

(** Steps in which the sketch samples and time passes, no event arriving. *)
Definition sampling_step (s : Step) : bool :=
  match s with
  | Loop _ | Tick _ => true
  | _ => false
  end.

Definition sampling (steps : list Step) : Prop := forallb sampling_step steps = true.

(** The number of passes of [loop()] among the steps. *)
Fixpoint loops (steps : list Step) : Z :=
  match steps with
  | [] => 0
  | Loop _ :: rest => 1 + loops rest
  | _ :: rest => loops rest
  end.

(** A step that stops the stream: a "stop_stream" command, or the
    disconnect of the last client. *)
Definition stopping (s : Step) (st : Device) : Prop :=
  (exists c len doc,
      s = Event c (WS_EVT_DATA (text_frame len) len (Some doc)) /\
      action_of doc = Some "stop_stream") \/
  (exists c, s = Disconnect c /\ ws_clients st ∖ {[c]} = ∅).

(** A step the environment can take: a data event comes from a client on
    the list; connect and disconnect events come with the change of the
    list. *)
Definition admissible (s : Step) (st : Device) : Prop :=
  match s with
  | Event c (WS_EVT_DATA _ _ _) => c ∈ ws_clients st
  | Event _ WS_EVT_CONNECT | Event _ WS_EVT_DISCONNECT => False
  | _ => True
  end.

(** The devices the sketch can be in: [setup()] has run on the device as
    powered on, and steps are taken one at a time. *)
Inductive Reachable : Device -> Prop :=
  | reach_setup : Reachable demo
  | reach_step (s : Step) (st : Device) :
      Reachable st -> admissible s st -> Reachable (step s st).

Record Invariant (st : Device) : Prop := {
  inv_start : _onStreamStartCallback st = Some application_onStreamStart;
  inv_stop : _onStreamStopCallback st = Some application_onStreamStop;
  inv_streaming : isAppStreaming (sketch st) = _isStreaming st;
  inv_clients : _isStreaming st = true -> ws_clients st <> ∅;
  inv_index : 0 <= currentBufferIndex (sketch st) < SAMPLES_PER_CHUNK;
  inv_buffer : length (sensorDataBuffer (sketch st)) = Z.to_nat SAMPLES_PER_CHUNK
}.

(** The records the sketch takes along a list of steps, one for each
    pass of [loop()], each from the device that pass starts in. *)
Fixpoint samples_of (steps : list Step) (st : Device) : list SensorDataPacket :=
  match steps with
  | [] => []
  | s :: rest =>
      match s with
      | Loop r => sample r st :: samples_of rest (step s st)
      | _ => samples_of rest (step s st)
      end
  end.

(** The milliseconds that pass along a list of steps. *)
Fixpoint elapsed (steps : list Step) : Z :=
  match steps with
  | [] => 0
  | Tick ms :: rest => ms + elapsed rest
  | _ :: rest => elapsed rest
  end.

(** ** Facts about the conversions *)

Lemma iter_pos_nat {A} (f : A -> A) p x : SpecFloat.iter_pos f p x = Nat.iter (Pos.to_nat p) f x.
Proof.
  revert x. induction p as [p IH|p IH|]; intros x; cbn [SpecFloat.iter_pos].
  - rewrite !IH, Pos2Nat.inj_xI.
    replace (S (2 * Pos.to_nat p)) with (Pos.to_nat p + (Pos.to_nat p + 1))%nat by lia.
    rewrite !Nat.iter_add. reflexivity.
  - rewrite !IH, Pos2Nat.inj_xO.
    replace (2 * Pos.to_nat p)%nat with (Pos.to_nat p + Pos.to_nat p)%nat by lia.
    rewrite Nat.iter_add. reflexivity.
  - reflexivity.
Qed.

Lemma iter_xO (p k : positive) : Zpos (Pos.iter xO p k) = Zpos p * 2 ^ Zpos k.
Proof.
  induction k as [|k IH] using Pos.peano_ind.
  - cbn. lia.
  - rewrite Pos.iter_succ, Pos2Z.inj_xO, IH, Pos2Z.inj_succ, Z.pow_succ_r by lia. lia.
Qed.

Lemma digits_iter_xO (p k : positive) :
  Zpos (digits2_pos (Pos.iter xO p k)) = Zpos (digits2_pos p) + Zpos k.
Proof.
  induction k as [|k IH] using Pos.peano_ind.
  - cbn. lia.
  - rewrite Pos.iter_succ. cbn [digits2_pos]. rewrite Pos2Z.inj_succ, IH. lia.
Qed.

Lemma digits_bounds (p : positive) :
  2 ^ (Zpos (digits2_pos p) - 1) <= Zpos p < 2 ^ Zpos (digits2_pos p).
Proof.
  induction p as [p IH|p IH|]; cbn [digits2_pos]; rewrite ?Pos2Z.inj_succ.
  - replace (Z.succ (Zpos (digits2_pos p)) - 1) with (Z.succ (Zpos (digits2_pos p) - 1)) by lia.
    rewrite !Z.pow_succ_r by lia. lia.
  - replace (Z.succ (Zpos (digits2_pos p)) - 1) with (Z.succ (Zpos (digits2_pos p) - 1)) by lia.
    rewrite !Z.pow_succ_r by lia. lia.
  - cbn. lia.
Qed.

(** digits determined by bounds *)
Lemma digits_unique (p : positive) (d : Z) :
  2 ^ (d - 1) <= Zpos p < 2 ^ d -> Zpos (digits2_pos p) = d.
Proof.
  intros [Hlo Hhi]. pose proof (digits_bounds p) as [Blo Bhi].
  destruct (Z.lt_trichotomy (Zpos (digits2_pos p)) d) as [Hlt|[Heq|Hgt]]; [|exact Heq|].
  - assert (2 ^ Zpos (digits2_pos p) <= 2 ^ (d - 1)) by (apply Z.pow_le_mono_r; lia). lia.
  - assert (0 <= d \/ d < 0) as [Hd|Hd] by lia.
    + assert (2 ^ d <= 2 ^ (Zpos (digits2_pos p) - 1)) by (apply Z.pow_le_mono_r; lia). lia.
    + rewrite (Z.pow_neg_r 2 d) in Hhi by lia. lia.
Qed.

Lemma shr_1_m mrs : 0 <= shr_m mrs -> shr_m (shr_1 mrs) = shr_m mrs / 2.
Proof.
  destruct mrs as [m r s]. cbn [shr_m]. intros Hm.
  destruct m as [|[p|p|]|p]; cbn [shr_1 shr_m]; try lia; try reflexivity.
  - apply Z.div_unique with 1; lia.
  - apply Z.div_unique with 0; lia.
Qed.

Lemma shr_n_m n mrs :
  0 <= shr_m mrs -> shr_m (Nat.iter n shr_1 mrs) = shr_m mrs / 2 ^ Z.of_nat n.
Proof.
  intros Hm. induction n as [|n IH].
  - cbn. rewrite Z.div_1_r. reflexivity.
  - rewrite Nat.iter_succ, shr_1_m.
    + rewrite IH, Z.div_div, Nat2Z.inj_succ, Z.pow_succ_r by lia. f_equal. lia.
    + rewrite IH. apply Z.div_pos; lia.
Qed.

Lemma shr_1_r mrs : 0 <= shr_m mrs -> shr_r (shr_1 mrs) = Z.odd (shr_m mrs).
Proof.
  destruct mrs as [m r s]. cbn [shr_m]. intros Hm.
  destruct m as [|[p|p|]|p]; cbn [shr_1 shr_r]; try lia; reflexivity.
Qed.

Lemma shr_n_r n mrs :
  0 <= shr_m mrs ->
  shr_r (Nat.iter (S n) shr_1 mrs) = Z.odd (shr_m mrs / 2 ^ Z.of_nat n).
Proof.
  intros Hm. rewrite Nat.iter_succ, shr_1_r.
  - rewrite shr_n_m by exact Hm. reflexivity.
  - rewrite shr_n_m by exact Hm. apply Z.div_pos; lia.
Qed.

Lemma shr_n_exact n (m : Z) :
  0 <= m ->
  Nat.iter n shr_1 (Build_shr_record (m * 2 ^ Z.of_nat n) false false) =
  Build_shr_record m false false.
Proof.
  intros Hm. revert m Hm. induction n as [|n IH]; intros m Hm.
  - cbn. f_equal. lia.
  - rewrite Nat.iter_succ_r.
    replace (m * 2 ^ Z.of_nat (S n)) with (2 * (m * 2 ^ Z.of_nat n))
      by (rewrite Nat2Z.inj_succ, Z.pow_succ_r by lia; lia).
    assert (Hs : shr_1 (Build_shr_record (2 * (m * 2 ^ Z.of_nat n)) false false) =
                 Build_shr_record (m * 2 ^ Z.of_nat n) false false).
    { assert (0 <= m * 2 ^ Z.of_nat n) by lia.
      destruct (m * 2 ^ Z.of_nat n) as [|q|q]; try lia; reflexivity. }
    rewrite Hs. apply IH. exact Hm.
Qed.

Lemma shr_n_shift x y (m : Z) :
  0 <= m ->
  Nat.iter (x + y) shr_1 (Build_shr_record (m * 2 ^ Z.of_nat y) false false) =
  Nat.iter x shr_1 (Build_shr_record m false false).
Proof. intros Hm. rewrite Nat.iter_add, shr_n_exact by exact Hm. reflexivity. Qed.

Lemma shr_spec mrs e n :
  shr mrs e n = (Nat.iter (Z.to_nat n) shr_1 mrs, e + Z.max 0 n).
Proof.
  destruct n as [|p|p]; cbn [shr Z.to_nat Nat.iter nat_rect];
    rewrite ?iter_pos_nat; f_equal; lia.
Qed.

Lemma shl_align_spec m e t :
  exists mz, shl_align m e t = (mz, Z.min e t) /\ Zpos mz = Zpos m * 2 ^ Z.max 0 (e - t).
Proof.
  unfold shl_align. destruct (t - e) as [|p|p] eqn:Hd.
  - exists m. split; [f_equal; lia|]. replace (Z.max 0 (e - t)) with 0 by lia. lia.
  - exists m. split; [f_equal; lia|]. replace (Z.max 0 (e - t)) with 0 by lia. lia.
  - exists (Pos.iter xO m p). split; [f_equal; lia|].
    rewrite iter_xO. f_equal. f_equal. lia.
Qed.

Section Rounding.
Variables prec emax : Z.

Lemma binary_round_stages s m e :
  binary_round prec emax s m e =
  IEEE.round_stage2 prec emax s (IEEE.round_stage1 prec emax m e).
Proof.
  unfold binary_round, IEEE.round_stage1, IEEE.round_stage2, binary_round_aux.
  destruct (shl_align m e _) as [mz ez]. reflexivity.
Qed.

Lemma digits_scaled (m mz : positive) (a : Z) :
  0 <= a -> Zpos mz = Zpos m * 2 ^ a ->
  Zpos (digits2_pos mz) = Zpos (digits2_pos m) + a.
Proof.
  intros Ha Hmz. apply digits_unique. rewrite Hmz.
  pose proof (digits_bounds m) as [Hlo Hhi].
  replace (Zpos (digits2_pos m) + a - 1) with ((Zpos (digits2_pos m) - 1) + a) by lia.
  rewrite !Z.pow_add_r by lia.
  assert (0 < 2 ^ a) by (apply Z.pow_pos_nonneg; lia).
  split; nia.
Qed.

Lemma stage1_spec m e :
  let T := fexp prec emax (Zpos (digits2_pos m) + e) in
  IEEE.round_stage1 prec emax m e =
    (Nat.iter (Z.to_nat (T - e)) shr_1
       (Build_shr_record (Zpos m * 2 ^ Z.max 0 (e - T)) false false), T).
Proof.
  cbv zeta. unfold IEEE.round_stage1.
  set (T := fexp prec emax (Zpos (digits2_pos m) + e)).
  destruct (shl_align_spec m e T) as (mz & -> & Hmz).
  unfold shr_fexp. cbn [Zdigits2 shr_record_of_loc].
  rewrite (digits_scaled m mz (Z.max 0 (e - T))) by (auto; lia).
  replace (Zpos (digits2_pos m) + Z.max 0 (e - T) + Z.min e T)
    with (Zpos (digits2_pos m) + e) by lia.
  fold T. rewrite shr_spec, Hmz. f_equal; [|lia].
  f_equal. lia.
Qed.

Lemma stage1_scale (p : positive) (j : positive) (e : Z) :
  IEEE.round_stage1 prec emax (Pos.iter xO p j) (e - Zpos j) =
  IEEE.round_stage1 prec emax p e.
Proof.
  rewrite !stage1_spec. rewrite digits_iter_xO.
  replace (Zpos (digits2_pos p) + Zpos j + (e - Zpos j)) with (Zpos (digits2_pos p) + e) by lia.
  set (T := fexp prec emax (Zpos (digits2_pos p) + e)).
  f_equal. rewrite iter_xO.
  destruct (Z_lt_le_dec T (e - Zpos j)) as [H1|H1].
  - (* both shifted left *)
    replace (Z.to_nat (T - (e - Zpos j))) with 0%nat by lia.
    replace (Z.to_nat (T - e)) with 0%nat by lia. cbn [Nat.iter nat_rect]. f_equal.
    replace (Z.max 0 (e - Zpos j - T)) with (e - Zpos j - T) by lia.
    replace (Z.max 0 (e - T)) with (Zpos j + (e - Zpos j - T)) by lia.
    rewrite (Z.pow_add_r 2 (Zpos j)) by lia. ring.
  - replace (Z.max 0 (e - Zpos j - T)) with 0 by lia. rewrite Z.mul_1_r.
    destruct (Z_lt_le_dec T e) as [H2|H2].
    + replace (Z.to_nat (T - e)) with 0%nat by lia.
      replace (Z.max 0 (e - T)) with (e - T) by lia.
      replace (Z.to_nat (T - (e - Zpos j))) with (0 + Z.to_nat (T - (e - Zpos j)))%nat by lia.
      replace (Zpos p * 2 ^ Zpos j)
        with ((Zpos p * 2 ^ (e - T)) * 2 ^ Z.of_nat (Z.to_nat (T - (e - Zpos j)))).
      * apply shr_n_shift. apply Z.mul_nonneg_nonneg; [lia|]. apply Z.pow_nonneg. lia.
      * rewrite Z2Nat.id by lia. rewrite <- Z.mul_assoc, <- Z.pow_add_r by lia.
        f_equal. f_equal. lia.
    + replace (Z.max 0 (e - T)) with 0 by lia. rewrite Z.mul_1_r.
      replace (Z.to_nat (T - (e - Zpos j))) with (Z.to_nat (T - e) + Pos.to_nat j)%nat by lia.
      replace (Zpos j) with (Z.of_nat (Pos.to_nat j)) by lia.
      apply shr_n_shift. lia.
Qed.

Lemma binary_round_scale s (p j : positive) (e : Z) :
  binary_round prec emax s (Pos.iter xO p j) (e - Zpos j) = binary_round prec emax s p e.
Proof. rewrite !binary_round_stages, stage1_scale. reflexivity. Qed.

(** A number already in canonical form rounds to itself. *)
Lemma binary_round_canonical s m e :
  0 < prec ->
  canonical_mantissa prec emax m e = true ->
  e <= emax - prec ->
  binary_round prec emax s m e = S754_finite s m e.
Proof.
  intros Hprec Hcan He. unfold canonical_mantissa in Hcan. apply Z.eqb_eq in Hcan.
  rewrite binary_round_stages, stage1_spec. cbv zeta. rewrite Hcan.
  rewrite Z.sub_diag. cbn [Z.to_nat Nat.iter nat_rect Z.max]. rewrite Z.mul_1_r.
  unfold IEEE.round_stage2. change (Z.to_nat 0) with 0%nat.
  cbn [Nat.iter nat_rect shr_m loc_of_shr_record round_nearest_even].
  unfold shr_fexp. cbn [Zdigits2 shr_record_of_loc]. rewrite Hcan, Z.sub_diag.
  cbn [shr shr_m]. destruct (e <=? emax - prec) eqn:Hle; [reflexivity|lia].
Qed.

End Rounding.

Lemma rne_cases q l : round_nearest_even q l = q \/ round_nearest_even q l = q + 1.
Proof. destruct l as [|[]]; cbn; auto. destruct (Z.even q); auto. Qed.

Section RoundingRight.
Variables prec emax : Z.
Hypothesis Hprec : 0 < prec.

(** A mantissa with more than [prec] digits is cut to [prec] digits and
    rounded up or down. *)
Lemma binary_round_long s (m : positive) (e : Z) :
  let d := Zpos (digits2_pos m) in
  let T := d + e - prec in
  prec < d ->
  3 - emax - prec <= T ->
  T + 1 <= emax - prec ->
  exists (m' : positive) (e' : Z),
    binary_round prec emax s m e = S754_finite s m' e' /\
    Zpos (digits2_pos m') = prec /\
    (e' = T \/ e' = T + 1) /\
    (Zpos m / 2 ^ (d - prec)) * 2 ^ (T - e) <= Zpos m' * 2 ^ (e' - e)
      <= (Zpos m / 2 ^ (d - prec) + 1) * 2 ^ (T - e).
Proof.
  intros d T Hd Hmin Hmax.
  assert (HT : fexp prec emax (d + e) = T) by (unfold fexp, emin; lia).
  rewrite binary_round_stages, stage1_spec. cbv zeta. fold d. rewrite HT.
  replace (Z.max 0 (e - T)) with 0 by lia. rewrite Z.mul_1_r.
  set (k := Z.to_nat (T - e)).
  set (mrs := Nat.iter k shr_1 (Build_shr_record (Zpos m) false false)).
  assert (Hk : Z.of_nat k = d - prec) by (unfold k; lia).
  assert (Hq : shr_m mrs = Zpos m / 2 ^ (d - prec)).
  { unfold mrs. rewrite shr_n_m by (cbn; lia). cbn [shr_m]. rewrite Hk. reflexivity. }
  set (q := Zpos m / 2 ^ (d - prec)) in *.
  assert (Hqb : 2 ^ (prec - 1) <= q < 2 ^ prec).
  { pose proof (digits_bounds m) as [Hlo Hhi]. fold d in Hlo, Hhi.
    assert (H2k : 0 < 2 ^ (d - prec)) by (apply Z.pow_pos_nonneg; lia).
    unfold q. split.
    - apply Z.div_le_lower_bound; [lia|]. rewrite <- Z.pow_add_r by lia.
      replace (d - prec + (prec - 1)) with (d - 1) by lia. exact Hlo.
    - apply Z.div_lt_upper_bound; [lia|]. rewrite <- Z.pow_add_r by lia.
      replace (d - prec + prec) with d by lia. exact Hhi. }
  assert (Hpos : 0 < 2 ^ (prec - 1)) by (apply Z.pow_pos_nonneg; lia).
  assert (Hpp : 2 ^ prec = 2 * 2 ^ (prec - 1)).
  { rewrite <- Z.pow_succ_r by lia. f_equal. lia. }
  unfold IEEE.round_stage2. rewrite Hq.
  set (r := round_nearest_even q (loc_of_shr_record mrs)).
  assert (Hr : r = q \/ r = q + 1) by apply rne_cases.
  assert (Hrpos : 0 < r) by lia.
  destruct r as [|rp|rp] eqn:Er; try lia.
  unfold shr_fexp. cbn [Zdigits2 shr_record_of_loc].
  destruct (Z_lt_le_dec (Zpos rp) (2 ^ prec)) as [Hlt|Hge].
  - (* still [prec] digits *)
    assert (Hdig : Zpos (digits2_pos rp) = prec) by (apply digits_unique; lia).
    rewrite Hdig.
    assert (Hf : fexp prec emax (prec + T) = T) by (unfold fexp, emin; lia).
    rewrite Hf, Z.sub_diag. cbn [shr shr_m].
    destruct (T <=? emax - prec) eqn:Hle; [|lia].
    exists rp, T. repeat apply conj; auto.
    + replace (T - e) with (d - prec) by lia. nia.
    + replace (T - e) with (d - prec) by lia.
      assert (0 < 2 ^ (d - prec)) by (apply Z.pow_pos_nonneg; lia). nia.
  - (* carried into one more digit *)
    assert (Hrp : Zpos rp = 2 ^ prec) by lia.
    assert (Hdig : Zpos (digits2_pos rp) = prec + 1).
    { apply digits_unique. rewrite Hrp. replace (prec + 1 - 1) with prec by lia.
      rewrite Z.pow_add_r by lia. lia. }
    rewrite Hdig.
    assert (Hf : fexp prec emax (prec + 1 + T) = T + 1) by (unfold fexp, emin; lia).
    rewrite Hf. replace (T + 1 - T) with 1 by lia.
    cbn [shr SpecFloat.iter_pos].
    rewrite shr_1_m by (cbn; lia). cbn [shr_m]. rewrite Hrp, Hpp.
    replace (2 * 2 ^ (prec - 1) / 2) with (2 ^ (prec - 1))
      by (apply Z.div_unique with 0; lia).
    destruct (2 ^ (prec - 1)) as [|hp|hp] eqn:Ehp; try lia.
    destruct (T + 1 <=? emax - prec) eqn:Hle; [|lia].
    exists hp, (T + 1). repeat apply conj; auto.
    + apply digits_unique. rewrite <- Ehp.
      replace (prec - 1) with (prec - 1) by lia. lia.
    + replace (T + 1 - e) with ((T - e) + 1) by lia.
      rewrite Z.pow_add_r by lia. rewrite <- Ehp.
      replace (T - e) with (d - prec) by lia.
      assert (0 < 2 ^ (d - prec)) by (apply Z.pow_pos_nonneg; lia). nia.
    + replace (T + 1 - e) with ((T - e) + 1) by lia.
      rewrite Z.pow_add_r by lia. rewrite <- Ehp.
      replace (T - e) with (d - prec) by lia.
      assert (0 < 2 ^ (d - prec)) by (apply Z.pow_pos_nonneg; lia). nia.
Qed.

(** When the first bit cut off is zero, the mantissa is rounded down. *)
Lemma binary_round_long_down s (m : positive) (e : Z) :
  let d := Zpos (digits2_pos m) in
  let T := d + e - prec in
  prec < d ->
  3 - emax - prec <= T ->
  T <= emax - prec ->
  Z.odd (Zpos m / 2 ^ (d - prec - 1)) = false ->
  binary_round prec emax s m e = S754_finite s (Z.to_pos (Zpos m / 2 ^ (d - prec))) T.
Proof.
  intros d T Hd Hmin Hmax Hodd.
  assert (HT : fexp prec emax (d + e) = T) by (unfold fexp, emin; lia).
  rewrite binary_round_stages, stage1_spec. cbv zeta. fold d. rewrite HT.
  replace (Z.max 0 (e - T)) with 0 by lia. rewrite Z.mul_1_r.
  replace (Z.to_nat (T - e)) with (S (Z.to_nat (d - prec - 1))) by lia.
  set (k := Z.to_nat (d - prec - 1)).
  set (mrs := Nat.iter (S k) shr_1 (Build_shr_record (Zpos m) false false)).
  assert (Hq : shr_m mrs = Zpos m / 2 ^ (d - prec)).
  { unfold mrs. rewrite shr_n_m by (cbn; lia). cbn [shr_m]. f_equal. f_equal. lia. }
  assert (Hr : shr_r mrs = false).
  { unfold mrs. rewrite shr_n_r by (cbn; lia). cbn [shr_m].
    replace (Z.of_nat k) with (d - prec - 1) by lia. exact Hodd. }
  set (q := Zpos m / 2 ^ (d - prec)) in *.
  assert (Hqb : 2 ^ (prec - 1) <= q < 2 ^ prec).
  { pose proof (digits_bounds m) as [Hlo Hhi]. fold d in Hlo, Hhi.
    assert (H2k : 0 < 2 ^ (d - prec)) by (apply Z.pow_pos_nonneg; lia).
    unfold q. split.
    - apply Z.div_le_lower_bound; [lia|]. rewrite <- Z.pow_add_r by lia.
      replace (d - prec + (prec - 1)) with (d - 1) by lia. exact Hlo.
    - apply Z.div_lt_upper_bound; [lia|]. rewrite <- Z.pow_add_r by lia.
      replace (d - prec + prec) with d by lia. exact Hhi. }
  assert (Hpos : 0 < 2 ^ (prec - 1)) by (apply Z.pow_pos_nonneg; lia).
  unfold IEEE.round_stage2. rewrite Hq.
  assert (Hround : round_nearest_even q (loc_of_shr_record mrs) = q).
  { destruct mrs as [m0 r0 s0]. cbn [shr_r] in Hr. subst r0. destruct s0; reflexivity. }
  rewrite Hround.
  destruct q as [|qp|qp] eqn:Eq; try lia.
  unfold shr_fexp. cbn [Zdigits2 shr_record_of_loc].
  assert (Hdig : Zpos (digits2_pos qp) = prec) by (apply digits_unique; lia).
  rewrite Hdig.
  assert (Hf : fexp prec emax (prec + T) = T) by (unfold fexp, emin; lia).
  rewrite Hf, Z.sub_diag. cbn [shr shr_m Z.to_pos].
  destruct (T <=? emax - prec) eqn:Hle; [reflexivity|lia].
Qed.

End RoundingRight.

Section RoundingShort.
Variables prec emax : Z.
Hypothesis Hprec : 0 < prec.

(** A mantissa with at most [prec] digits is kept as it is. *)
Lemma binary_round_short s (p : positive) :
  let d := Zpos (digits2_pos p) in
  d <= prec ->
  3 - emax - prec <= d - prec ->
  d <= emax ->
  exists mz : positive,
    binary_round prec emax s p 0 = S754_finite s mz (d - prec) /\
    Zpos mz = Zpos p * 2 ^ (prec - d).
Proof.
  intros d Hd Hmin Hmax.
  destruct (Z.eq_dec d prec) as [Heq|Hne].
  - exists p. rewrite Heq, !Z.sub_diag. split; [|lia].
    apply binary_round_canonical; [exact Hprec| |lia].
    unfold canonical_mantissa, fexp, emin. fold d. apply Z.eqb_eq. lia.
  - destruct (prec - d) as [|j|j] eqn:Hj; try lia.
    exists (Pos.iter xO p j). split; [|apply iter_xO].
    rewrite <- (binary_round_scale prec emax s p j 0).
    replace (d - prec) with (0 - Zpos j) by lia.
    apply binary_round_canonical; [exact Hprec| |lia].
    unfold canonical_mantissa, fexp, emin. rewrite digits_iter_xO. fold d.
    apply Z.eqb_eq. lia.
Qed.

End RoundingShort.

Lemma normalize_round prec emax z :
  z <> 0 ->
  binary_normalize prec emax z 0 false =
  binary_round prec emax (z <? 0) (Z.to_pos (Z.abs z)) 0.
Proof. destruct z; [congruence|reflexivity|reflexivity]. Qed.

Lemma Zdigits2_abs z : z <> 0 -> Zdigits2 z = Zpos (digits2_pos (Z.to_pos (Z.abs z))).
Proof. destruct z; [congruence|reflexivity|reflexivity]. Qed.

Lemma Zdigits2_bounds z :
  z <> 0 -> 2 ^ (Zdigits2 z - 1) <= Z.abs z < 2 ^ Zdigits2 z.
Proof.
  intros Hz. rewrite Zdigits2_abs by exact Hz.
  pose proof (digits_bounds (Z.to_pos (Z.abs z))) as H.
  rewrite Z2Pos.id in H by lia. exact H.
Qed.

Lemma Zdigits2_le z n : 0 <= n -> z <> 0 -> Z.abs z < 2 ^ n -> Zdigits2 z <= n.
Proof.
  intros Hn Hz Hlt. pose proof (Zdigits2_bounds z Hz) as [Hlo _].
  destruct (Z_le_gt_dec (Zdigits2 z) n) as [|Hgt]; [assumption|].
  assert (2 ^ n <= 2 ^ (Zdigits2 z - 1)) by (apply Z.pow_le_mono_r; lia). lia.
Qed.

Lemma Zdigits2_pos z : z <> 0 -> 0 < Zdigits2 z.
Proof. destruct z; [congruence|reflexivity|reflexivity]. Qed.

Lemma cond_Zopp_abs z : cond_Zopp (z <? 0) (Z.abs z) = z.
Proof. unfold cond_Zopp. destruct (z <? 0) eqn:H; lia. Qed.

(** An integer of at most 24 bits is a [float]. *)
Lemma float_of_Z_short z :
  z <> 0 -> Zdigits2 z <= 24 ->
  exists mz : positive,
    IEEE.float_of_Z z = S754_finite (z <? 0) mz (Zdigits2 z - 24) /\
    Zpos mz = Z.abs z * 2 ^ (24 - Zdigits2 z).
Proof.
  intros Hz Hd. unfold IEEE.float_of_Z. rewrite normalize_round by exact Hz.
  rewrite Zdigits2_abs in * by exact Hz.
  destruct (binary_round_short 24 128 ltac:(lia) (z <? 0) (Z.to_pos (Z.abs z)))
    as (mz & Hr & Hmz); try lia.
  exists mz. rewrite Z2Pos.id in Hmz by lia. auto.
Qed.

(** An integer of at most 53 bits is a [double]. *)
Lemma double_of_Z_short z :
  z <> 0 -> Zdigits2 z <= 53 ->
  exists mz : positive,
    IEEE.double_of_Z z = S754_finite (z <? 0) mz (Zdigits2 z - 53) /\
    Zpos mz = Z.abs z * 2 ^ (53 - Zdigits2 z).
Proof.
  intros Hz Hd. unfold IEEE.double_of_Z. rewrite normalize_round by exact Hz.
  rewrite Zdigits2_abs in * by exact Hz.
  destruct (binary_round_short 53 1024 ltac:(lia) (z <? 0) (Z.to_pos (Z.abs z)))
    as (mz & Hr & Hmz); try lia.
  exists mz. rewrite Z2Pos.id in Hmz by lia. auto.
Qed.

(** A longer integer is rounded to 24 bits. *)
Lemma float_of_Z_long z :
  24 < Zdigits2 z <= 100 ->
  let T := Zdigits2 z - 24 in
  let q := Z.abs z / 2 ^ T in
  exists (m' : positive) (e' : Z),
    IEEE.float_of_Z z = S754_finite (z <? 0) m' e' /\
    Zpos (digits2_pos m') = 24 /\
    (e' = T \/ e' = T + 1) /\
    q * 2 ^ T <= Zpos m' * 2 ^ e' <= (q + 1) * 2 ^ T.
Proof.
  intros Hd T q.
  assert (Hz : z <> 0) by (intros ->; cbn in Hd; lia).
  unfold IEEE.float_of_Z. rewrite normalize_round by exact Hz.
  rewrite Zdigits2_abs in * by exact Hz.
  destruct (binary_round_long 24 128 ltac:(lia) (z <? 0) (Z.to_pos (Z.abs z)) 0)
    as (m' & e' & Hr & Hdig & He & Hb); try lia.
  exists m', e'. rewrite Z2Pos.id in Hb by lia.
  rewrite !Z.add_0_r, !Z.sub_0_r in *. subst T q. rewrite (Zdigits2_abs z Hz). auto.
Qed.

(** A longer integer whose first bit cut off is zero is rounded down. *)
Lemma float_of_Z_long_down z :
  24 < Zdigits2 z <= 100 ->
  Z.odd (Z.abs z / 2 ^ (Zdigits2 z - 25)) = false ->
  IEEE.float_of_Z z =
    S754_finite (z <? 0) (Z.to_pos (Z.abs z / 2 ^ (Zdigits2 z - 24))) (Zdigits2 z - 24).
Proof.
  intros Hd Hodd.
  assert (Hz : z <> 0) by (intros ->; cbn in Hd; lia).
  unfold IEEE.float_of_Z. rewrite normalize_round by exact Hz.
  rewrite Zdigits2_abs in * by exact Hz.
  rewrite (binary_round_long_down 24 128 ltac:(lia) (z <? 0) (Z.to_pos (Z.abs z)) 0);
    rewrite ?Z2Pos.id by lia; try lia.
  - f_equal; lia.
  - replace (Zpos (digits2_pos (Z.to_pos (Z.abs z))) - 24 - 1)
      with (Zpos (digits2_pos (Z.to_pos (Z.abs z))) - 25) by lia.
    exact Hodd.
Qed.

Lemma trunc_mag_scaled (mz : positive) (a n : Z) :
  0 <= n -> 0 <= a -> Zpos mz = a * 2 ^ n -> IEEE.trunc_mag mz (- n) = a.
Proof.
  intros Hn Ha Hmz. unfold IEEE.trunc_mag.
  destruct n as [|p|p]; cbn [Z.opp]; try lia.
  - rewrite Z.pow_0_r, Z.mul_1_r in Hmz. exact Hmz.
  - rewrite Hmz. apply Z.div_mul. apply Z.pow_nonzero; lia.
Qed.

Lemma truncate_float_of_Z_short z :
  Zdigits2 z <= 24 -> IEEE.truncate (IEEE.float_of_Z z) = Some z.
Proof.
  intros Hd. destruct (Z.eq_dec z 0) as [->|Hz]; [reflexivity|].
  destruct (float_of_Z_short z Hz Hd) as (mz & -> & Hmz). cbn [IEEE.truncate].
  replace (Zdigits2 z - 24) with (- (24 - Zdigits2 z)) by lia.
  rewrite (trunc_mag_scaled mz (Z.abs z) (24 - Zdigits2 z)) by (auto; lia).
  rewrite cond_Zopp_abs. reflexivity.
Qed.

Lemma truncate_double_of_Z z :
  Zdigits2 z <= 53 -> IEEE.truncate (IEEE.double_of_Z z) = Some z.
Proof.
  intros Hd. destruct (Z.eq_dec z 0) as [->|Hz]; [reflexivity|].
  destruct (double_of_Z_short z Hz Hd) as (mz & -> & Hmz). cbn [IEEE.truncate].
  replace (Zdigits2 z - 53) with (- (53 - Zdigits2 z)) by lia.
  rewrite (trunc_mag_scaled mz (Z.abs z) (53 - Zdigits2 z)) by (auto; lia).
  rewrite cond_Zopp_abs. reflexivity.
Qed.

(** Converting the [double] of an integer to [float] is converting the
    integer: the first conversion is exact. *)
Lemma float_of_double_of_Z z :
  Zdigits2 z <= 53 -> IEEE.float_of_double (IEEE.double_of_Z z) = IEEE.float_of_Z z.
Proof.
  intros Hd. destruct (Z.eq_dec z 0) as [->|Hz]; [reflexivity|].
  destruct (double_of_Z_short z Hz Hd) as (mz & -> & Hmz). cbn [IEEE.float_of_double].
  unfold IEEE.float_of_Z. rewrite normalize_round by exact Hz.
  destruct (53 - Zdigits2 z) as [|j|j] eqn:Hj; try lia.
  - replace (Zdigits2 z - 53) with 0 by lia. f_equal. lia.
  - replace (Zdigits2 z - 53) with (0 - Zpos j) by lia.
    replace mz with (Pos.iter xO (Z.to_pos (Z.abs z)) j).
    + apply binary_round_scale.
    + apply Pos2Z.inj. rewrite iter_xO, Hmz, Z2Pos.id by lia. reflexivity.
Qed.

Lemma SFeqb_finite_refl s m e : SFeqb (S754_finite s m e) (S754_finite s m e) = true.
Proof.
  unfold SFeqb, SFcompare. rewrite Z.compare_refl, Pos.compare_cont_refl.
  destruct s; reflexivity.
Qed.

Lemma SFeqb_refl_finite f :
  match f with S754_zero _ | S754_finite _ _ _ => True | _ => False end ->
  SFeqb f f = true.
Proof. destruct f; try contradiction; intros _; [reflexivity|apply SFeqb_finite_refl]. Qed.

Lemma SFeqb_finite_eq s m e g :
  SFeqb (S754_finite s m e) g = true -> g = S754_finite s m e.
Proof.
  unfold SFeqb, SFcompare.
  destruct g as [s2|s2| |s2 m2 e2]; destruct s; try destruct s2; try discriminate;
    destruct (Z.compare e e2) eqn:He; try discriminate;
    destruct (Pos.compare_cont Eq m m2) eqn:Hm; try discriminate; intros _;
    apply Z.compare_eq in He; apply (Pos.compare_eq m m2) in Hm; congruence.
Qed.

Lemma integral_not_fraction f : IEEE.is_integral f = true -> IEEE.has_fraction f = false.
Proof.
  destruct f as [| | |s m e]; cbn; try reflexivity.
  destruct e; try reflexivity. intros ->. reflexivity.
Qed.

(** The [float] of an [int] has no fractional part. *)
Lemma float_of_Z_integral z :
  Z.abs z <= 2 ^ 31 -> IEEE.is_integral (IEEE.float_of_Z z) = true.
Proof.
  intros Hz. destruct (Z.eq_dec z 0) as [->|Hnz]; [reflexivity|].
  assert (Hd : Zdigits2 z <= 32) by (apply Zdigits2_le; lia).
  destruct (Z_le_gt_dec (Zdigits2 z) 24) as [Hs|Hl].
  - destruct (float_of_Z_short z Hnz Hs) as (mz & -> & Hmz). cbn [IEEE.is_integral].
    destruct (Zdigits2 z - 24) as [|p|p] eqn:He; try reflexivity.
    rewrite Hmz. replace (24 - Zdigits2 z) with (Zpos p) by lia.
    rewrite Z.mod_mul by (apply Z.pow_nonzero; lia). reflexivity.
  - destruct (float_of_Z_long z ltac:(lia)) as (m' & e' & -> & _ & He & _).
    cbn [IEEE.is_integral]. destruct e' as [|p|p]; try reflexivity. lia.
Qed.

Lemma Zpos_iter_xO_to_pos (m : positive) (e : Z) :
  0 < e -> Z.to_pos (Zpos m * 2 ^ e) = Pos.iter xO m (Z.to_pos e).
Proof.
  intros He. apply Pos2Z.inj. rewrite iter_xO, !Z2Pos.id; lia.
Qed.

(** Within [int], truncating the [float] of an integer and converting
    back yields the same [float].  The integers above [2^31 - 65] round to
    [2^31], which is no [int]. *)
Lemma float_of_Z_truncate z :
  INT_MIN <= z <= 2 ^ 31 - 65 ->
  exists w : Z,
    IEEE.truncate (IEEE.float_of_Z z) = Some w /\
    in_int_range w = true /\
    IEEE.float_of_Z w = IEEE.float_of_Z z.
Proof.
  unfold INT_MIN. intros Hz.
  destruct (Z_le_gt_dec (Zdigits2 z) 24) as [Hs|Hl].
  { exists z. rewrite truncate_float_of_Z_short by exact Hs.
    repeat apply conj; auto. unfold in_int_range, INT_MIN, INT_MAX.
    apply andb_true_intro. rewrite !Z.leb_le. lia. }
  assert (Hnz : z <> 0) by (intros ->; cbn in Hl; lia).
  destruct (Z.eq_dec z (- 2 ^ 31)) as [->|Hn2].
  { exists (- 2 ^ 31). repeat apply conj; reflexivity. }
  assert (Hd : Zdigits2 z <= 31) by (apply Zdigits2_le; lia).
  destruct (Z_le_gt_dec z (2 ^ 31 - 129)) as [Hlow|Hhigh].
  - destruct (float_of_Z_long z ltac:(lia)) as (m' & e' & Hf & Hdig & He & Hlo & Hhi).
    set (T := Zdigits2 z - 24) in *. set (q := Z.abs z / 2 ^ T) in *.
    assert (HT : 1 <= T <= 7) by lia.
    assert (H2T : 2 ^ T <= 2 ^ 7) by (apply Z.pow_le_mono_r; lia).
    assert (H2Tpos : 0 < 2 ^ T) by (apply Z.pow_pos_nonneg; lia).
    assert (Hq1 : q * 2 ^ T <= Z.abs z)
      by (unfold q; rewrite Z.mul_comm; apply Z.mul_div_le; lia).
    assert (Hq2 : q + 1 <= 2 ^ 24).
    { pose proof (Zdigits2_bounds z Hnz) as [_ Hb].
      assert (q < 2 ^ 24); [|lia]. unfold q. apply Z.div_lt_upper_bound; [lia|].
      rewrite <- Z.pow_add_r by lia. replace (T + 24) with (Zdigits2 z) by lia. exact Hb. }
    assert (Hw : 0 < Zpos m' * 2 ^ e').
    { assert (0 < 2 ^ e') by (apply Z.pow_pos_nonneg; lia). nia. }
    assert (Hwhi : Zpos m' * 2 ^ e' <= 2 ^ 31).
    { change (2 ^ 31) with (2 ^ 24 * 2 ^ 7). nia. }
    exists (cond_Zopp (z <? 0) (Zpos m' * 2 ^ e')). rewrite Hf. repeat apply conj.
    + cbn [IEEE.truncate]. f_equal. f_equal. unfold IEEE.trunc_mag.
      destruct e' as [|p|p]; lia.
    + unfold in_int_range, INT_MIN, INT_MAX, cond_Zopp.
      apply andb_true_intro. rewrite !Z.leb_le.
      destruct (z <? 0) eqn:Hs; [lia|].
      assert (Zpos m' * 2 ^ e' <= Z.abs z + 2 ^ T) by nia. lia.
    + unfold IEEE.float_of_Z.
      assert (Hc : cond_Zopp (z <? 0) (Zpos m' * 2 ^ e') <> 0)
        by (unfold cond_Zopp; destruct (z <? 0); lia).
      rewrite normalize_round by exact Hc.
      replace (cond_Zopp (z <? 0) (Zpos m' * 2 ^ e') <? 0) with (z <? 0)
        by (unfold cond_Zopp; destruct (z <? 0) eqn:Hs; lia).
      replace (Z.abs (cond_Zopp (z <? 0) (Zpos m' * 2 ^ e'))) with (Zpos m' * 2 ^ e')
        by (unfold cond_Zopp; destruct (z <? 0); lia).
      rewrite Zpos_iter_xO_to_pos by lia.
      transitivity (binary_round 24 128 (z <? 0) m' e').
      { rewrite <- (binary_round_scale 24 128 (z <? 0) m' (Z.to_pos e') e').
        f_equal. rewrite Z2Pos.id; lia. }
      apply binary_round_canonical; [lia| |lia].
      unfold canonical_mantissa, fexp, emin. rewrite Hdig. apply Z.eqb_eq. lia.
  - (* the integers that round down to [2^31 - 128] *)
    assert (Hdz : Zdigits2 z = 31).
    { rewrite Zdigits2_abs by exact Hnz. apply digits_unique. rewrite Z2Pos.id by lia.
      change (2 ^ (31 - 1)) with 1073741824. lia. }
    assert (Hz64 : Z.abs z / 2 ^ (Zdigits2 z - 25) = 33554430).
    { rewrite Hdz. symmetry. apply Z.div_unique with (Z.abs z - 2147483520).
      - left. change (2 ^ (31 - 25)) with 64. lia.
      - change (2 ^ (31 - 25)) with 64. lia. }
    assert (Hz128 : Z.abs z / 2 ^ (Zdigits2 z - 24) = 16777215).
    { rewrite Hdz. symmetry. apply Z.div_unique with (Z.abs z - 2147483520).
      - left. change (2 ^ (31 - 24)) with 128. lia.
      - change (2 ^ (31 - 24)) with 128. lia. }
    rewrite (float_of_Z_long_down z ltac:(lia)) by (rewrite Hz64; reflexivity).
    rewrite Hz128, Hdz. replace (z <? 0) with false by lia.
    exists 2147483520. repeat apply conj; reflexivity.
Qed.

Lemma double_of_INT_MIN : IEEE.double_of_Z INT_MIN = S754_finite true 4503599627370496 (-21).
Proof. reflexivity. Qed.

Lemma double_of_INT_MAX : IEEE.double_of_Z INT_MAX = S754_finite false 9007199250546688 (-22).
Proof. reflexivity. Qed.

Lemma SFleb_neg_finite m1 e1 m2 e2 :
  e2 < e1 \/ (e2 = e1 /\ Zpos m2 <= Zpos m1) ->
  SFleb (S754_finite true m1 e1) (S754_finite true m2 e2) = true.
Proof.
  intros H. unfold SFleb, SFcompare.
  destruct (Z.compare_spec e1 e2) as [He|He|He]; try reflexivity; [|lia].
  destruct H as [H|[_ H]]; [lia|].
  change (Pos.compare_cont Eq m1 m2) with (Pos.compare m1 m2).
  destruct (Pos.compare_spec m1 m2) as [Hm|Hm|Hm]; try reflexivity. lia.
Qed.

Lemma SFleb_pos_finite m1 e1 m2 e2 :
  e1 < e2 \/ (e1 = e2 /\ Zpos m1 <= Zpos m2) ->
  SFleb (S754_finite false m1 e1) (S754_finite false m2 e2) = true.
Proof.
  intros H. unfold SFleb, SFcompare.
  destruct (Z.compare_spec e1 e2) as [He|He|He]; try reflexivity; [|lia].
  destruct H as [H|[_ H]]; [lia|].
  change (Pos.compare_cont Eq m1 m2) with (Pos.compare m1 m2).
  destruct (Pos.compare_spec m1 m2) as [Hm|Hm|Hm]; try reflexivity. lia.
Qed.

(** The [double] of an [int] lies between the [double]s of the limits. *)
Lemma double_of_Z_in_int_range z :
  INT_MIN <= z <= INT_MAX ->
  IEEE.ge (IEEE.double_of_Z z) (IEEE.double_of_Z INT_MIN) &&
  IEEE.le (IEEE.double_of_Z z) (IEEE.double_of_Z INT_MAX) = true.
Proof.
  intros Hz. rewrite double_of_INT_MIN, double_of_INT_MAX.
  unfold INT_MIN, INT_MAX in Hz.
  destruct (Z.eq_dec z 0) as [->|Hnz]; [reflexivity|].
  assert (Hd : Zdigits2 z <= 32) by (apply Zdigits2_le; lia).
  destruct (double_of_Z_short z Hnz ltac:(lia)) as (mz & -> & Hmz).
  pose proof (Zdigits2_bounds z Hnz) as [Hlo Hhi].
  unfold IEEE.ge, IEEE.le.
  destruct (z <? 0) eqn:Hs.
  - (* negative *)
    rewrite andb_true_r. apply SFleb_neg_finite.
    destruct (Z.eq_dec (Zdigits2 z) 32) as [Hdz|Hdz]; [right|left; lia].
    split; [lia|]. rewrite Hdz in Hmz. rewrite Hmz.
    change (2 ^ (53 - 32)) with 2097152. lia.
  - (* positive *)
    rewrite andb_true_l. apply SFleb_pos_finite.
    assert (Hd' : Zdigits2 z <= 31) by (apply Zdigits2_le; lia).
    destruct (Z.eq_dec (Zdigits2 z) 31) as [Hdz|Hdz]; [right|left; lia].
    split; [lia|]. rewrite Hdz in Hmz. rewrite Hmz.
    change (2 ^ (53 - 31)) with 4194304. lia.
Qed.

Lemma as_int_double_of_Z z :
  INT_MIN <= z <= INT_MAX -> Json.as_int (JFloat (IEEE.double_of_Z z)) = z.
Proof.
  intros Hz. cbn [Json.as_int]. rewrite double_of_Z_in_int_range by exact Hz.
  rewrite truncate_double_of_Z; [reflexivity|].
  destruct (Z.eq_dec z 0) as [->|Hnz]; [cbn; lia|].
  unfold INT_MIN, INT_MAX in Hz.
  assert (Zdigits2 z <= 32) by (apply Zdigits2_le; lia). lia.
Qed.

(** A [double] without fractional part is the [double] of its integer. *)
Lemma integral_double_of_Z d z :
  IEEE.valid_double d = true ->
  IEEE.integer_value d = Some z ->
  z <> 0 ->
  d = IEEE.double_of_Z z.
Proof.
  unfold IEEE.valid_double, IEEE.integer_value.
  destruct d as [s|s| |s m e]; cbn [valid_binary IEEE.is_integral IEEE.truncate];
    try discriminate; [intros _ [= <-]; congruence|].
  unfold bounded. intros Hv Hi Hz. apply andb_prop in Hv as [Hcan He]. apply Z.leb_le in He.
  assert (Hround : binary_round 53 1024 s m e = S754_finite s m e)
    by (apply binary_round_canonical; [lia|exact Hcan|exact He]).
  unfold IEEE.double_of_Z. rewrite normalize_round by exact Hz.
  rewrite <- Hround.
  destruct e as [|p|p]; cbn [IEEE.trunc_mag] in Hi.
  - injection Hi as <-. destruct s; reflexivity.
  - injection Hi as <-.
    assert (Hpos : 0 < Zpos m * 2 ^ Zpos p) by lia.
    replace (cond_Zopp s (Zpos m * 2 ^ Zpos p) <? 0) with s
      by (unfold cond_Zopp; destruct s; lia).
    replace (Z.abs (cond_Zopp s (Zpos m * 2 ^ Zpos p))) with (Zpos m * 2 ^ Zpos p)
      by (unfold cond_Zopp; destruct s; lia).
    rewrite Zpos_iter_xO_to_pos by lia. cbn [Z.to_pos].
    rewrite <- (binary_round_scale 53 1024 s m p (Zpos p)). f_equal. lia.
  - destruct (Zpos m mod 2 ^ Zpos p =? 0) eqn:Hmod; [|discriminate].
    apply Z.eqb_eq in Hmod. injection Hi as <-.
    set (a := Zpos m / 2 ^ Zpos p) in *.
    assert (H2p : 0 < 2 ^ Zpos p) by lia.
    assert (Hma : Zpos m = a * 2 ^ Zpos p).
    { unfold a. rewrite (Z.div_mod (Zpos m) (2 ^ Zpos p)) at 1 by lia. lia. }
    assert (Ha : 0 < a) by nia.
    replace (cond_Zopp s a <? 0) with s by (unfold cond_Zopp; destruct s; lia).
    replace (Z.abs (cond_Zopp s a)) with a by (unfold cond_Zopp; destruct s; lia).
    rewrite <- (binary_round_scale 53 1024 s (Z.to_pos a) p 0).
    f_equal. apply Pos2Z.inj. rewrite iter_xO, Z2Pos.id by lia. exact Hma.
Qed.

Lemma wrap_int_range x : in_int_range (wrap_int x) = true.
Proof.
  unfold in_int_range, wrap_int, INT_MIN, INT_MAX.
  pose proof (Z.mod_pos_bound (x + 2 ^ 31) (2 ^ 32) ltac:(lia)).
  apply andb_true_intro. rewrite !Z.leb_le. lia.
Qed.

Lemma int_of_float_range f : in_int_range (int_of_float f) = true.
Proof.
  unfold int_of_float. destruct (IEEE.truncate f) as [z|]; [|apply wrap_int_range].
  destruct (in_int_range z) eqn:Hz; [exact Hz|apply wrap_int_range].
Qed.

Lemma in_int_range_abs z : in_int_range z = true -> Z.abs z <= 2 ^ 31.
Proof.
  unfold in_int_range, INT_MIN, INT_MAX. intros H.
  apply andb_prop in H as [H1 H2]. apply Z.leb_le in H1, H2. lia.
Qed.

Lemma has_fraction_finite f :
  IEEE.has_fraction f = true -> exists s m e, f = S754_finite s m e.
Proof. destruct f; try discriminate. eauto. Qed.

(** The comparison [as<float>() == (int)as<float>()] fails on a [float]
    with a fractional part, whatever the conversion yields. *)
Lemma fraction_fails_check f :
  IEEE.has_fraction f = true ->
  IEEE.eq f (IEEE.float_of_Z (int_of_float f)) = false.
Proof.
  intros Hf. destruct (IEEE.eq f (IEEE.float_of_Z (int_of_float f))) eqn:He; [|reflexivity].
  destruct (has_fraction_finite f Hf) as (s & m & e & ->).
  unfold IEEE.eq in He. apply SFeqb_finite_eq in He.
  pose proof (float_of_Z_integral _ (in_int_range_abs _ (int_of_float_range (S754_finite s m e))))
    as Hi.
  rewrite He in Hi. apply integral_not_fraction in Hi. congruence.
Qed.

Lemma assign_int_fraction var d :
  type var = TYPE_INT ->
  IEEE.has_fraction (IEEE.float_of_double d) = true ->
  assign var (JFloat d) = (TypeMismatch, var).
Proof.
  intros Ht Hf. unfold assign. rewrite Ht.
  cbn [Json.is_int Json.is_float Json.as_float negb andb].
  rewrite (fraction_fails_check _ Hf). reflexivity.
Qed.

Lemma assign_int_integer var z :
  type var = TYPE_INT ->
  in_int_range z = true ->
  assign var (JInteger z) =
    if out_of_limits var (IEEE.double_of_Z z) then (OutOfRange, var)
    else (SetOk, set_intValue var z).
Proof.
  intros Ht Hz. unfold assign, out_of_limits. rewrite Ht.
  cbn [Json.is_int Json.as_int]. rewrite Hz. reflexivity.
Qed.

Lemma float_check_passes z :
  INT_MIN <= z <= 2 ^ 31 - 65 ->
  IEEE.eq (IEEE.float_of_Z z) (IEEE.float_of_Z (int_of_float (IEEE.float_of_Z z))) = true.
Proof.
  intros Hz. destruct (float_of_Z_truncate z Hz) as (w & Ht & Hw & Hf).
  unfold int_of_float. rewrite Ht, Hw, Hf. unfold IEEE.eq.
  apply SFeqb_refl_finite.
  destruct (IEEE.float_of_Z z) eqn:E; try exact I; discriminate.
Qed.

Lemma assign_int_integral_double var z :
  type var = TYPE_INT ->
  INT_MIN <= z <= 2 ^ 31 - 65 ->
  assign var (JFloat (IEEE.double_of_Z z)) = assign var (JInteger z).
Proof.
  intros Ht Hz.
  assert (Hr : in_int_range z = true).
  { unfold in_int_range, INT_MIN, INT_MAX in *. apply andb_true_intro. rewrite !Z.leb_le. lia. }
  assert (Hd : Zdigits2 z <= 53).
  { destruct (Z.eq_dec z 0) as [->|Hnz]; [cbn; lia|].
    unfold INT_MIN in Hz. assert (Zdigits2 z <= 32) by (apply Zdigits2_le; lia). lia. }
  rewrite (assign_int_integer var z Ht Hr). unfold assign, out_of_limits. rewrite Ht.
  cbn [Json.is_int Json.is_float Json.as_float negb andb].
  rewrite (float_of_double_of_Z z Hd), (float_check_passes z Hz). cbn [negb].
  rewrite as_int_double_of_Z; [reflexivity|].
  unfold INT_MIN, INT_MAX in *. lia.
Qed.

Lemma assign_int_zero var s :
  type var = TYPE_INT ->
  assign var (JFloat (S754_zero s)) = assign var (JInteger 0).
Proof. intros Ht. unfold assign. rewrite Ht. destruct s; reflexivity. Qed.

(** On an integer variable, a [double] without fractional part is
    treated as its integer. *)
Lemma assign_int_integral var d z :
  type var = TYPE_INT ->
  IEEE.valid_double d = true ->
  IEEE.integer_value d = Some z ->
  INT_MIN <= z <= 2 ^ 31 - 65 ->
  assign var (JFloat d) = assign var (JInteger z).
Proof.
  intros Ht Hv Hi Hz. destruct (Z.eq_dec z 0) as [->|Hnz].
  - destruct d as [s|s| |s m e]; try discriminate; [apply assign_int_zero; exact Ht|].
    exfalso. unfold IEEE.integer_value in Hi. cbn [IEEE.is_integral IEEE.truncate] in Hi.
    destruct e as [|p|p]; cbn [IEEE.trunc_mag] in Hi.
    + injection Hi as Hi. destruct s; cbn in Hi; lia.
    + injection Hi as Hi. destruct s; cbn [cond_Zopp] in Hi; lia.
    + destruct (Zpos m mod 2 ^ Zpos p =? 0) eqn:Hmod; [|discriminate].
      apply Z.eqb_eq in Hmod. injection Hi as Hi.
      assert (H2p : 0 < 2 ^ Zpos p) by lia.
      pose proof (Z.div_mod (Zpos m) (2 ^ Zpos p) ltac:(lia)) as Hdm.
      destruct s; cbn [cond_Zopp] in Hi; nia.
  - rewrite (integral_double_of_Z d z Hv Hi Hnz). apply assign_int_integral_double; auto.
Qed.

(** ** Facts about the embedding *)

Lemma effects_emit e st : effects (emit e st) = effects st ++ [e].
Proof. reflexivity. Qed.

Lemma sendStatus_effects c s m st :
  effects (sendStatusInternal c s m st) = effects st ++ [SendText c (status_document s m)].
Proof. reflexivity. Qed.

Lemma client_sends_len c len len' parsed st :
  client_sends c len parsed st = client_sends c len' parsed st.
Proof.
  unfold client_sends, onWebSocketEvent, text_frame.
  cbn [info_opcode info_final info_index info_len]. rewrite !Z.eqb_refl. reflexivity.
Qed.

(** A text frame whose action is none of "get" and "set" never reads the
    registry. *)
Ltac route H :=
  unfold client_sends, onWebSocketEvent, text_frame; cbn [info_opcode info_final info_index info_len];
  rewrite ?Z.eqb_refl; cbn [AwsFrameType_eqb andb];
  unfold action_of in H; rewrite H; cbn [String.eqb Ascii.eqb Bool.eqb orb andb negb].

(** C9: a text frame that is not one whole message (final flag unset,
    frame index nonzero, or declared length different from the received
    length) is dropped: the device, trace included, is as before, so no
    client gets a response and neither the registry nor the streaming
    state changes. *)
Theorem C9_incomplete_text_frame_dropped :
  forall (st : Device) (c : N) (info : AwsFrameInfo) (len : Z) (parsed : option JsonVariant),
    info_opcode info = WS_TEXT ->
    info_final info = false \/ info_index info <> 0 \/ info_len info <> len ->
    onWebSocketEvent c (WS_EVT_DATA info len parsed) st = st.
Proof.
  intros st c info len parsed Hop Hbad. unfold onWebSocketEvent.
  rewrite Hop. cbn [AwsFrameType_eqb andb].
  destruct Hbad as [Hf | [Hi | Hl]].
  - rewrite Hf. reflexivity.
  - apply Z.eqb_neq in Hi. rewrite Hi, andb_false_r. reflexivity.
  - apply Z.eqb_neq in Hl. rewrite Hl, andb_false_r. reflexivity.
Qed.

(** C10: when the last client disconnects while the library is streaming
    and no stop callback is registered, nothing is invoked or sent and the
    library stays in the streaming state. *)
Theorem C10_no_stop_callback_no_auto_stop :
  forall (st : Device) (c : N),
    _isStreaming st = true ->
    _onStreamStopCallback st = None ->
    ws_clients st ∖ {[c]} = ∅ ->
    let st' := client_disconnects c st in
    ws_clients st' = ∅ /\
    _isStreaming st' = true /\
    effects st' = effects st /\
    sketch st' = sketch st /\
    st' = with_clients st ∅.
Proof.
  intros st c Hs Hcb Hlast. cbn zeta.
  unfold client_disconnects, onWebSocketEvent, ws_count.
  cbn [_isStreaming _onStreamStopCallback ws_clients with_clients].
  rewrite Hs, Hcb, Hlast. cbn. auto.
Qed.

(** C6: with no callback registered, "start_stream" and "stop_stream"
    alike answer the sender with an error status and leave the device
    unchanged but for that answer, whatever the streaming state. *)
Theorem C6_stream_commands_without_callbacks :
  forall (st : Device) (c : N) (len : Z) (jsonDoc : JsonVariant),
    action_of jsonDoc = Some "start_stream" \/ action_of jsonDoc = Some "stop_stream" ->
    _onStreamStartCallback st = None ->
    _onStreamStopCallback st = None ->
    let st' := client_sends c len (Some jsonDoc) st in
    st' = sendStatusInternal c "error" "Streaming feature not implemented/configured." st /\
    effects st' =
      effects st ++
      [SendText c (JObject [("status", JString "error");
                            ("message", JString "Streaming feature not implemented/configured.")])] /\
    _isStreaming st' = _isStreaming st /\
    sketch st' = sketch st /\
    _variables st' = _variables st.
Proof.
  intros st c len jsonDoc Hact Hstart Hstop. cbn zeta.
  destruct Hact as [Hact | Hact]; route Hact.
  - rewrite Hstart. repeat split.
  - rewrite Hstop. repeat split.
Qed.

(** C5: two "start_stream" commands in a row, a start callback being
    registered and the library stopped.  The first invokes the callback
    once, enters the streaming state and answers the status "ok" with the
    message "Stream started."; with the sketch's callback the buffer
    index is then 0, the reference time is the clock's value and the
    sketch is streaming.  The second only answers the status "info" with
    the message "Stream was already active.": the device is the one the
    first command left, with that answer added to the trace, so streaming
    state, sketch and buffer stay as they are. *)
Theorem C5_start_stream_twice :
  forall (st : Device) (c c' : N) (len len' : Z) (doc doc' : JsonVariant)
         (onStart : StreamControlCallback),
    action_of doc = Some "start_stream" ->
    action_of doc' = Some "start_stream" ->
    _onStreamStartCallback st = Some onStart ->
    _isStreaming st = false ->
    let st1 := client_sends c len (Some doc) st in
    let st2 := client_sends c' len' (Some doc') st1 in
    effects st1 =
      effects st ++
        [Invoke OnStreamStart;
         SendText c (JObject [("status", JString "ok");
                              ("message", JString "Stream started.")])] /\
    _isStreaming st1 = true /\
    sketch st1 = onStart (millis st) (sketch st) /\
    (onStart = application_onStreamStart ->
       currentBufferIndex (sketch st1) = 0 /\
       streamStartTimeMs (sketch st1) = millis st /\
       isAppStreaming (sketch st1) = true /\
       sensorDataBuffer (sketch st1) = sensorDataBuffer (sketch st)) /\
    st2 = emit (SendText c' (JObject [("status", JString "info");
                                      ("message", JString "Stream was already active.")]))
            st1 /\
    _isStreaming st2 = true /\
    sketch st2 = sketch st1 /\
    invocations OnStreamStart (effects st2) = S (invocations OnStreamStart (effects st)).
Proof.
  intros st c c' len len' doc doc' onStart Hd Hd' Hcb Hs. cbn zeta.
  assert (H1 : client_sends c len (Some doc) st =
               sendStatusInternal c "ok" "Stream started."
                 (with_isStreaming (call OnStreamStart onStart st) true)).
  { route Hd. rewrite Hcb, Hs. reflexivity. }
  rewrite H1.
  assert (H2 : forall s, _onStreamStartCallback s = Some onStart -> _isStreaming s = true ->
               client_sends c' len' (Some doc') s =
               sendStatusInternal c' "info" "Stream was already active." s).
  { intros s Hc Ht. route Hd'. rewrite Hc, Ht. reflexivity. }
  rewrite H2 by (cbn; auto).
  repeat apply conj; try reflexivity.
  - cbn. rewrite <- app_assoc. reflexivity.
  - intros ->. repeat apply conj; reflexivity.
  - unfold invocations. cbn.
    rewrite <- !app_assoc, List.filter_app, length_app. cbn. lia.
Qed.

(** *** The registry *)

Lemma assign_ok var v var' :
  assign var v = (SetOk, var') ->
  name var' = name var /\ type var' = type var /\
  json_of_value var' = converted (type var) v.
Proof.
  unfold assign, json_of_value. intros H.
  destruct (type var) eqn:Ht;
    repeat match type of H with
           | (if ?b then _ else _) = _ => destruct b
           end;
    try discriminate; injection H as <-; cbn; rewrite ?Ht; auto.
Qed.

Lemma assign_failure var v r var' :
  assign var v = (r, var') -> succeeded r = false ->
  var' = var /\ (r = TypeMismatch \/ r = OutOfRange).
Proof.
  unfold assign. intros H Hr.
  destruct (type var);
    repeat match type of H with
           | (if ?b then _ else _) = _ => destruct b
           end;
    injection H as <- <-; try discriminate; auto.
Qed.

Lemma set_failure_unchanged i v st r st' :
  setVariableValueInternal i v st = (r, st') -> succeeded r = false -> st' = st.
Proof.
  unfold setVariableValueInternal. intros H Hr.
  destruct (_variables st) as [vars|]; [|congruence].
  destruct ((i <? 0) || (_numVariables st <=? i)); [congruence|].
  destruct (vars !! Z.to_nat i) as [var|]; [|congruence].
  destruct (assign var v) as [r0 var'].
  destruct (succeeded r0) eqn:Hs; [|congruence].
  injection H as <- <-. congruence.
Qed.

Lemma set_validation_failure i v st r st' :
  setVariableValueInternal i v st = (r, st') ->
  r = TypeMismatch \/ r = OutOfRange ->
  exists vars var,
    _variables st = Some vars /\
    0 <= i < _numVariables st /\
    vars !! Z.to_nat i = Some var /\
    assign var v = (r, var).
Proof.
  unfold setVariableValueInternal. intros H Hr.
  destruct (_variables st) as [vars|]; [|destruct Hr; congruence].
  destruct ((i <? 0) || (_numVariables st <=? i)) eqn:Hi; [destruct Hr; congruence|].
  destruct (vars !! Z.to_nat i) as [var|] eqn:Hv; [|destruct Hr; congruence].
  destruct (assign var v) as [r0 var'] eqn:Ha.
  destruct (succeeded r0) eqn:Hs; injection H as -> <-;
    [destruct Hr as [-> | ->]; discriminate Hs|].
  destruct (assign_failure _ _ _ _ Ha Hs) as [-> _].
  exists vars, var. repeat apply conj; auto; lia.
Qed.

Lemma set_success i v st st' :
  setVariableValueInternal i v st = (SetOk, st') ->
  exists vars var var',
    _variables st = Some vars /\
    0 <= i < _numVariables st /\
    vars !! Z.to_nat i = Some var /\
    assign var v = (SetOk, var') /\
    st' = with_variables st (Some (<[Z.to_nat i := var']> vars)) (_numVariables st).
Proof.
  unfold setVariableValueInternal. intros H.
  destruct (_variables st) as [vars|]; [|congruence].
  destruct ((i <? 0) || (_numVariables st <=? i)) eqn:Hi; [congruence|].
  destruct (vars !! Z.to_nat i) as [var|] eqn:Hv; [|congruence].
  destruct (assign var v) as [r0 var'] eqn:Ha.
  destruct (succeeded r0) eqn:Hs; injection H as -> <-; [|discriminate Hs].
  exists vars, var, var'. repeat apply conj; auto; lia.
Qed.

Lemma find_from_names k nm (l1 l2 : list VariableConfig) :
  name <$> l1 = name <$> l2 -> find_from k nm l1 = find_from k nm l2.
Proof.
  revert k l2. induction l1 as [|x l1 IH]; intros k [|y l2] H; try discriminate; auto.
  cbn in H. injection H as Hn Hl. cbn. rewrite Hn. destruct (String.eqb nm (name y)); auto.
Qed.

Lemma find_from_found k nm (l : list VariableConfig) :
  0 <= k -> find_from k nm l <> -1 ->
  k <= find_from k nm l /\
  exists var, l !! Z.to_nat (find_from k nm l - k) = Some var /\ name var = nm.
Proof.
  revert k. induction l as [|x l IH]; intros k Hk; cbn; [congruence|].
  destruct (String.eqb_spec nm (name x)) as [He|He]; intros Hf.
  - split; [lia|]. exists x. rewrite Z.sub_diag. cbn. auto.
  - destruct (IH (k + 1)) as [Hle [var [Hl Hn]]]; [lia|auto|].
    split; [lia|]. exists var. split; [|auto].
    replace (Z.to_nat (find_from (k + 1) nm l - k))
      with (S (Z.to_nat (find_from (k + 1) nm l - (k + 1)))) by lia.
    exact Hl.
Qed.

Lemma find_names_preserved nm st vars var var' i :
  _variables st = Some vars -> vars !! i = Some var -> name var' = name var ->
  findVariableIndexInternal nm
    (with_variables st (Some (<[i := var']> vars)) (_numVariables st)) =
  findVariableIndexInternal nm st.
Proof.
  intros Hv Hl Hn. unfold findVariableIndexInternal. cbn. rewrite Hv.
  destruct (_numVariables st <=? 0); [reflexivity|].
  apply find_from_names.
  rewrite !fmap_take, list_fmap_insert, Hn.
  rewrite list_insert_id; [reflexivity|]. rewrite list_lookup_fmap, Hl. reflexivity.
Qed.

Lemma find_emit nm e st :
  findVariableIndexInternal nm (emit e st) = findVariableIndexInternal nm st.
Proof. reflexivity. Qed.

Lemma member_not_null_contains key doc :
  Json.isNull (Json.member key doc) = false -> Json.containsKey key doc = true.
Proof.
  unfold Json.member, Json.containsKey. destruct doc; cbn; try discriminate.
  destruct (Json.assoc key members); cbn; [reflexivity|discriminate].
Qed.


(** C2: a set that fails its validation (type mismatch or out of range)
    leaves the device, hence every stored value, as it was; the router
    then answers with an error status only.  On the sketch's registry,
    setting "led_intensity" (an integer within [0,255], holding 128) to
    300 is out of range, and the get that follows answers 128. *)
Theorem C2_failed_set_leaves_value :
  (forall (i : Z) (v : JsonVariant) (st st' : Device) (r : SetOutcome),
      setVariableValueInternal i v st = (r, st') ->
      r = TypeMismatch \/ r = OutOfRange ->
      st' = st) /\
  (forall (st st' : Device) (c : N) (len : Z) (doc : JsonVariant) (nm : string) (r : SetOutcome),
      action_of doc = Some "set" ->
      variable_of doc = Some nm ->
      Json.isNull (Json.member "value" doc) = false ->
      setVariableValueInternal (findVariableIndexInternal nm st) (Json.member "value" doc) st
        = (r, st') ->
      r = TypeMismatch \/ r = OutOfRange ->
      client_sends c len (Some doc) st =
        sendStatusInternal c "error"
          "Failed to set value (invalid type or out of limits)." st) /\
  (forall (c : N) (len len' : Z),
      fst (setVariableValueInternal 0 (JInteger 300) demo) = OutOfRange /\
      let st1 := client_sends c len (Some (set_request "led_intensity" (JInteger 300))) demo in
      _variables st1 = _variables demo /\
      effects (client_sends c len' (Some (get_request "led_intensity")) st1) =
        [SendText c (status_document "error"
                       "Failed to set value (invalid type or out of limits).");
         SendText c (JObject [("variable", JString "led_intensity");
                              ("value", JInteger 128)])]).
Proof.
  split; [|split].
  - intros i v st st' r H Hr. eapply set_failure_unchanged; [exact H|].
    destruct Hr as [-> | ->]; reflexivity.
  - intros st st' c len doc nm r Ha Hn Hnn Hset Hr.
    assert (Hf : succeeded r = false) by (destruct Hr as [-> | ->]; reflexivity).
    pose proof (set_failure_unchanged _ _ _ _ _ Hset Hf) as ->.
    destruct (set_validation_failure _ _ _ _ _ Hset Hr)
      as (vars & var & Hv & Hi & Hl & Has).
    route Ha. unfold variable_of in Hn. rewrite Hn.
    assert (Hne : (findVariableIndexInternal nm st =? -1) = false) by lia.
    rewrite Hne.
    rewrite (member_not_null_contains _ _ Hnn), Hnn. cbn [negb orb].
    rewrite Hset, Hf. reflexivity.
  - intros c len len'. cbv zeta.
    rewrite (client_sends_len c len' 0), (client_sends_len c len 0).
    vm_compute. repeat split.
Qed.


(** *** The configuration list *)

Lemma config_entry_fields var :
  Json.member "name" (config_entry var) = JString (name var) /\
  Json.member "type" (config_entry var) = JString (varTypeToCharString (type var)) /\
  Json.member "value" (config_entry var) = json_of_value var /\
  Json.member "hasLimits" (config_entry var) = JBool (hasLimits var) /\
  Json.containsKey "min" (config_entry var) = hasLimits var /\
  Json.containsKey "max" (config_entry var) = hasLimits var /\
  (hasLimits var = true ->
   Json.member "min" (config_entry var) = JFloat (minVal var) /\
   Json.member "max" (config_entry var) = JFloat (maxVal var)).
Proof.
  unfold config_entry. destruct (hasLimits var); cbn; repeat apply conj; auto; discriminate.
Qed.

(** *** The pool of the configuration list *)

Lemma allocVariant_fits pool :
  Pool.VARIANT_SLOT_SIZE <= Pool.room pool ->
  Pool.allocVariant pool =
    Some {| Pool.room := Pool.room pool - Pool.VARIANT_SLOT_SIZE;
            Pool.copies := Pool.copies pool |}.
Proof.
  intros H. unfold Pool.allocVariant, Pool.canAlloc.
  destruct (Pool.VARIANT_SLOT_SIZE <=? Pool.room pool) eqn:Hle; [reflexivity|lia].
Qed.

Lemma allocVariant_full pool :
  Pool.room pool < Pool.VARIANT_SLOT_SIZE -> Pool.allocVariant pool = None.
Proof.
  intros H. unfold Pool.allocVariant, Pool.canAlloc.
  destruct (Pool.VARIANT_SLOT_SIZE <=? Pool.room pool) eqn:Hle; [lia|reflexivity].
Qed.

Lemma saveString_fits s pool :
  Z.of_nat (String.length s) + 1 <= Pool.room pool ->
  exists pool',
    Pool.saveString s pool = Some pool' /\
    Pool.room pool - (Z.of_nat (String.length s) + 1) <= Pool.room pool'.
Proof.
  intros H. unfold Pool.saveString, Pool.canAlloc.
  destruct (Pool.findString s pool).
  - exists pool. split; [reflexivity|lia].
  - destruct (Z.of_nat (String.length s) + 1 <=? Pool.room pool) eqn:Hle; [|lia].
    eexists. split; [reflexivity|]. cbn. lia.
Qed.

Lemma set_member_fits key v pool members :
  Pool.VARIANT_SLOT_SIZE <= Pool.room pool ->
  set_member key v (pool, members) =
    ({| Pool.room := Pool.room pool - Pool.VARIANT_SLOT_SIZE;
        Pool.copies := Pool.copies pool |}, members ++ [(key, v)]).
Proof.
  intros H. unfold set_member. cbn [fst snd]. rewrite allocVariant_fits by exact H.
  reflexivity.
Qed.

Lemma set_member_String_fits key s pool members :
  Pool.VARIANT_SLOT_SIZE + (Z.of_nat (String.length s) + 1) <= Pool.room pool ->
  exists pool',
    set_member_String key s (pool, members) = (pool', members ++ [(key, JString s)]) /\
    Pool.room pool - (Pool.VARIANT_SLOT_SIZE + (Z.of_nat (String.length s) + 1))
      <= Pool.room pool'.
Proof.
  intros H. unfold set_member_String. cbn [fst snd].
  rewrite allocVariant_fits by lia.
  destruct (saveString_fits s
              {| Pool.room := Pool.room pool - Pool.VARIANT_SLOT_SIZE;
                 Pool.copies := Pool.copies pool |}) as (pool' & -> & Hroom);
    [cbn; lia|].
  exists pool'. split; [reflexivity|]. cbn in Hroom. lia.
Qed.

Lemma entry_size_pos var : 5 * Pool.VARIANT_SLOT_SIZE <= entry_size var.
Proof.
  unfold entry_size, Pool.VARIANT_SLOT_SIZE.
  destruct (hasLimits var), (type var); lia.
Qed.

(** With room for the complete element, one pass of the loop appends
    it and takes no more than its size. *)
Lemma add_variable_fits pool acc var :
  entry_size var <= Pool.room pool ->
  exists pool',
    add_variable (pool, acc) var = (pool', acc ++ [config_entry var]) /\
    Pool.room pool - entry_size var <= Pool.room pool'.
Proof.
  intros H. unfold add_variable, set_value, config_entry, json_of_value. cbn [fst snd].
  unfold entry_size in *. unfold Pool.VARIANT_SLOT_SIZE in H.
  destruct (type var) eqn:Ht, (hasLimits var) eqn:Hl;
    rewrite allocVariant_fits by (unfold Pool.VARIANT_SLOT_SIZE; lia);
    repeat (rewrite set_member_fits by (cbn; unfold Pool.VARIANT_SLOT_SIZE; lia));
    try (match goal with
         | |- context [set_member_String ?k ?s (?p, ?m)] =>
             destruct (set_member_String_fits k s p m) as (p1 & -> & Hp1);
               [cbn; unfold Pool.VARIANT_SLOT_SIZE; lia|];
               cbn in Hp1; unfold Pool.VARIANT_SLOT_SIZE in Hp1
         end);
    repeat (rewrite set_member_fits by (cbn; unfold Pool.VARIANT_SLOT_SIZE; lia));
    cbn [fst snd app]; eexists; (split; [reflexivity|]);
    cbn; unfold Pool.VARIANT_SLOT_SIZE; lia.
Qed.

Lemma entries_fit vars :
  forall pool acc,
    foldr (fun var n => entry_size var + n) 0 vars <= Pool.room pool ->
    snd (foldl add_variable (pool, acc) vars) = acc ++ map config_entry vars.
Proof.
  induction vars as [|var vars IH]; intros pool acc H.
  - cbn. rewrite app_nil_r. reflexivity.
  - cbn [foldr] in H. cbn [foldl map].
    assert (Hrest : 0 <= foldr (fun var n => entry_size var + n) 0 vars).
    { clear. induction vars as [|v vs IHv]; cbn [foldr]; [lia|].
      pose proof (entry_size_pos v). unfold Pool.VARIANT_SLOT_SIZE in *. lia. }
    destruct (add_variable_fits pool acc var) as (pool' & -> & Hroom); [lia|].
    rewrite IH by lia. rewrite <- app_assoc. reflexivity.
Qed.

(** The root of the list has its two members whenever the registry is
    not empty. *)
Lemma config_document_root n vars :
  0 < n ->
  config_document n vars =
    JObject [("status", JString "var_config_list");
             ("variables", JArray (config_entries n vars))].
Proof.
  intros Hn. unfold config_document, config_entries, Pool.create.
  rewrite set_member_fits by (cbn; unfold Pool.VARIANT_SLOT_SIZE; lia).
  cbn [fst snd]. rewrite allocVariant_fits by (cbn; unfold Pool.VARIANT_SLOT_SIZE; lia).
  cbn [Pool.room Pool.copies app].
  replace (n * 100 + 128 - Pool.VARIANT_SLOT_SIZE - Pool.VARIANT_SLOT_SIZE)
    with (n * 100 + 128 - 2 * Pool.VARIANT_SLOT_SIZE) by lia.
  reflexivity.
Qed.

Lemma config_entries_fit n vars :
  config_size vars <= n * 100 + 128 ->
  config_entries n vars = map config_entry vars.
Proof.
  intros H. unfold config_entries. unfold config_size in H.
  rewrite entries_fit by (cbn; lia). reflexivity.
Qed.

(** The array never has more elements than the loop has passes. *)
Lemma entries_length vars :
  forall acc, (length (snd (foldl add_variable acc vars)) <= length (snd acc) + length vars)%nat.
Proof.
  induction vars as [|var vars IH]; intros acc; cbn [foldl length]; [lia|].
  etransitivity; [apply IH|].
  unfold add_variable. destruct (Pool.allocVariant (fst acc)); cbn [snd].
  - rewrite length_app. cbn. lia.
  - lia.
Qed.

Lemma get_all_vars_config_reply st c len doc vars :
  action_of doc = Some "get_all_vars_config" ->
  _variables st = Some vars ->
  0 < _numVariables st ->
  client_sends c len (Some doc) st =
    emit (SendText c (config_document (_numVariables st)
                        (take (Z.to_nat (_numVariables st)) vars))) st.
Proof.
  intros Ha Hv Hpos. route Ha. rewrite Hv.
  destruct (_numVariables st <=? 0) eqn:Hz; [lia|reflexivity].
Qed.

Lemma no_variables_reply st c len doc :
  action_of doc = Some "get_all_vars_config" ->
  _variables st = None \/ _numVariables st <= 0 ->
  client_sends c len (Some doc) st =
    sendStatusInternal c "error" "No variables configured on server." st.
Proof.
  intros Ha Hempty. route Ha. destruct (_variables st) as [vars|]; [|reflexivity].
  destruct Hempty as [Hnone | Hle]; [discriminate|].
  destruct (_numVariables st <=? 0) eqn:Hz; [reflexivity|lia].
Qed.

(** X28: the configuration list is complete while it fits its document.
    On a registry of N > 0 variables, when the room the complete list
    asks for (16 bytes for each member and element, and the copy of each
    string value) is within the N * 100 + 128 bytes of the document,
    "get_all_vars_config" answers the sender with one list of N entries
    in registry order; entry i carries the name, the type string, the
    current value and the hasLimits flag of variable i, and has "min" and
    "max" members exactly when hasLimits is set.  Whatever the room, the
    list never has more than N entries.  On a registry that is absent or
    has no variables the answer is an error status. *)
Theorem X28_config_list_complete_when_it_fits :
  forall (st : Device) (c : N) (len : Z) (doc : JsonVariant),
    action_of doc = Some "get_all_vars_config" ->
    (forall vars : list VariableConfig,
        _variables st = Some vars ->
        0 < _numVariables st ->
        _numVariables st = Z.of_nat (length vars) ->
        exists entries : list JsonVariant,
          client_sends c len (Some doc) st =
            emit (SendText c (JObject [("status", JString "var_config_list");
                                       ("variables", JArray entries)])) st /\
          (length entries <= length vars)%nat /\
          (config_size vars <= _numVariables st * 100 + 128 ->
           length entries = length vars /\
           forall (i : nat) (var : VariableConfig),
             vars !! i = Some var ->
             exists entry : JsonVariant,
               entries !! i = Some entry /\
               Json.member "name" entry = JString (name var) /\
               Json.member "type" entry =
                 JString match type var with
                         | TYPE_INT => "INT"
                         | TYPE_FLOAT => "FLOAT"
                         | TYPE_STRING => "STRING"
                         end /\
               Json.member "value" entry =
                 match type var with
                 | TYPE_INT => JInteger (intValue var)
                 | TYPE_FLOAT => JFloat (IEEE.double_of_float (floatValue var))
                 | TYPE_STRING => JString (stringValue var)
                 end /\
               Json.member "hasLimits" entry = JBool (hasLimits var) /\
               Json.containsKey "min" entry = hasLimits var /\
               Json.containsKey "max" entry = hasLimits var /\
               (hasLimits var = true ->
                Json.member "min" entry = JFloat (minVal var) /\
                Json.member "max" entry = JFloat (maxVal var)))) /\
    (_variables st = None \/ _numVariables st <= 0 ->
     client_sends c len (Some doc) st =
       emit (SendText c (JObject [("status", JString "error");
                                  ("message", JString "No variables configured on server.")]))
         st).
Proof.
  intros st c len doc Ha. split.
  - intros vars Hv Hpos Hn.
    exists (config_entries (_numVariables st) vars). repeat apply conj.
    + rewrite (get_all_vars_config_reply st c len doc vars Ha Hv Hpos).
      rewrite Hn at 2. rewrite Nat2Z.id, firstn_all.
      rewrite config_document_root by exact Hpos. reflexivity.
    + unfold config_entries. etransitivity; [apply entries_length|]. cbn. lia.
    + intros Hfit. rewrite (config_entries_fit _ _ Hfit). split; [apply length_map|].
      intros i var Hl. exists (config_entry var). split.
      * change (map config_entry vars) with (config_entry <$> vars).
        rewrite list_lookup_fmap, Hl. reflexivity.
      * pose proof (config_entry_fields var) as Hf. unfold json_of_value in Hf.
        destruct (type var); exact Hf.
  - intros Hempty. rewrite (no_variables_reply st c len doc Ha Hempty). reflexivity.
Qed.

(** *** Clients and the automatic stop *)

Lemma ws_count_zero st : (ws_count st =? 0) = true <-> ws_clients st = ∅.
Proof.
  unfold ws_count. rewrite Z.eqb_eq. split.
  - intros H. apply leibniz_equiv, size_empty_iff. lia.
  - intros ->. rewrite size_empty. reflexivity.
Qed.

Lemma disconnect_leaves_clients c st :
  ws_clients st ∖ {[c]} <> ∅ ->
  client_disconnects c st = with_clients st (ws_clients st ∖ {[c]}).
Proof.
  intros Hne. unfold client_disconnects, onWebSocketEvent.
  destruct (ws_count (with_clients st (ws_clients st ∖ {[c]})) =? 0) eqn:Hz.
  - apply ws_count_zero in Hz. cbn in Hz. contradiction.
  - rewrite andb_false_r. reflexivity.
Qed.

Lemma disconnect_last_client c st onStop :
  ws_clients st ∖ {[c]} = ∅ ->
  _isStreaming st = true ->
  _onStreamStopCallback st = Some onStop ->
  client_disconnects c st =
    with_isStreaming (call OnStreamStop onStop (with_clients st ∅)) false.
Proof.
  intros He Hs Hcb. unfold client_disconnects, onWebSocketEvent.
  rewrite He. cbn [_isStreaming _onStreamStopCallback with_clients].
  rewrite Hs, Hcb. reflexivity.
Qed.

(** While a client stays connected, disconnects take clients off the
    list and do nothing else. *)
Lemma disconnects_before_last :
  forall (pre suf : list N) (st : Device),
    NoDup (pre ++ suf) ->
    suf <> [] ->
    ws_clients st = list_to_set (pre ++ suf) ->
    run (Disconnect <$> pre) st = with_clients st (list_to_set suf).
Proof.
  induction pre as [|c pre IH]; intros suf st Hnd Hne Hcl.
  - cbn in *. destruct st; cbn in *; subst; reflexivity.
  - cbn [app] in Hnd, Hcl. apply NoDup_cons in Hnd as [Hc Hnd].
    change (run (Disconnect <$> c :: pre) st)
      with (run (Disconnect <$> pre) (client_disconnects c st)).
    assert (Hrem : ws_clients st ∖ {[c]} = list_to_set (pre ++ suf)).
    { rewrite Hcl. apply leibniz_equiv. rewrite list_to_set_cons.
      assert (c ∉ (list_to_set (pre ++ suf) : gset N))
        by (rewrite elem_of_list_to_set; exact Hc).
      set_solver. }
    rewrite disconnect_leaves_clients.
    + rewrite (IH suf (with_clients st (ws_clients st ∖ {[c]})) Hnd Hne Hrem).
      reflexivity.
    + rewrite Hrem. destruct suf as [|d suf]; [congruence|].
      intros Hempty.
      assert (Hd : d ∈ (list_to_set (pre ++ d :: suf) : gset N)).
      { rewrite elem_of_list_to_set. apply elem_of_app. right. apply list_elem_of_here. }
      rewrite Hempty in Hd. set_solver.
Qed.

(** C4: the library streaming and a stop callback registered, N >= 1
    clients connected.  When all N disconnect, in any order, the stop
    callback is invoked once, by the disconnect that empties the client
    set and by none before it: after any k < N of the disconnects the
    library still streams, nothing has been invoked or sent and the
    sketch is as it was.  After all N the trace has grown by that one
    invocation and by no message to a client, and the library ends in
    the stopped state. *)
Theorem C4_auto_stop_once :
  forall (ids : list N) (st : Device) (onStop : StreamControlCallback),
    NoDup ids ->
    ids <> [] ->
    ws_clients st = list_to_set ids ->
    _isStreaming st = true ->
    _onStreamStopCallback st = Some onStop ->
    let st' := run (Disconnect <$> ids) st in
    (forall k : nat,
        (k < length ids)%nat ->
        let mid := run (Disconnect <$> take k ids) st in
        effects mid = effects st /\
        invocations OnStreamStop (effects mid) = invocations OnStreamStop (effects st) /\
        _isStreaming mid = true /\
        sketch mid = sketch st /\
        ws_clients mid = list_to_set (drop k ids)) /\
    effects st' = effects st ++ [Invoke OnStreamStop] /\
    invocations OnStreamStop (effects st') = S (invocations OnStreamStop (effects st)) /\
    texts (effects st') = texts (effects st) /\
    _isStreaming st' = false /\
    sketch st' = onStop (millis st) (sketch st) /\
    ws_clients st' = ∅.
Proof.
  intros ids st onStop Hnd Hne Hcl Hs Hcb. cbn zeta. split.
  { intros k Hk.
    rewrite (disconnects_before_last (take k ids) (drop k ids) st).
    - cbn. auto.
    - rewrite take_drop. exact Hnd.
    - intros Hd. apply (f_equal length) in Hd. rewrite length_drop in Hd. cbn in Hd. lia.
    - rewrite take_drop. exact Hcl. }
  revert st onStop Hnd Hne Hcl Hs Hcb.
  induction ids as [|c rest IH]; intros st onStop Hnd Hne Hcl Hs Hcb; [congruence|].
  apply NoDup_cons in Hnd as [Hc Hnd].
  change (run (Disconnect <$> c :: rest) st)
    with (run (Disconnect <$> rest) (client_disconnects c st)).
  assert (Hrem : ws_clients st ∖ {[c]} = list_to_set rest).
  { rewrite Hcl. apply leibniz_equiv. rewrite list_to_set_cons.
    assert (c ∉ (list_to_set rest : gset N)) by (rewrite elem_of_list_to_set; exact Hc).
    set_solver. }
  destruct rest as [|c2 rest'].
  - rewrite (disconnect_last_client c st onStop) by auto. cbn.
    unfold invocations, texts. rewrite !List.filter_app, length_app. cbn.
    rewrite app_nil_r. repeat apply conj; auto. lia.
  - rewrite disconnect_leaves_clients by (rewrite Hrem; set_solver).
    apply (IH (with_clients st (ws_clients st ∖ {[c]})) onStop); auto.
Qed.

(** *** The sample buffer *)

Lemma length_packet_bytes p : length (packet_bytes p) = 16%nat.
Proof. reflexivity. Qed.

Lemma length_buffer_bytes buf : length (buffer_bytes buf) = (16 * length buf)%nat.
Proof.
  unfold buffer_bytes. induction buf as [|p buf IH]; [reflexivity|].
  cbn [flat_map]. rewrite length_app, IH, length_packet_bytes. cbn [length]. lia.
Qed.

Lemma full_buffer_chunk buf :
  length buf = Z.to_nat SAMPLES_PER_CHUNK ->
  take (Z.to_nat CHUNK_BUFFER_SIZE_BYTES) (buffer_bytes buf) = buffer_bytes buf /\
  length (buffer_bytes buf) = 400%nat.
Proof.
  intros H. pose proof (length_buffer_bytes buf) as Hl. rewrite H in Hl.
  change (16 * Z.to_nat SAMPLES_PER_CHUNK)%nat with 400%nat in Hl.
  split; [|exact Hl]. apply firstn_all2. rewrite Hl. reflexivity.
Qed.

Lemma loop_idle r st : isAppStreaming (sketch st) = false -> loop r st = st.
Proof. intros H. unfold loop. rewrite H. reflexivity. Qed.

Lemma loop_append r st :
  isAppStreaming (sketch st) = true ->
  currentBufferIndex (sketch st) + 1 < SAMPLES_PER_CHUNK ->
  loop r st =
    with_sketch st
      (with_buffer (sketch st)
         (<[Z.to_nat (currentBufferIndex (sketch st)) := sample r st]> (sensorDataBuffer (sketch st)))
         (currentBufferIndex (sketch st) + 1)).
Proof.
  intros Hs Hi. unfold loop. rewrite Hs.
  destruct (SAMPLES_PER_CHUNK <=? currentBufferIndex (sketch st) + 1) eqn:Hc; [lia|].
  reflexivity.
Qed.

Lemma loop_flush r st :
  isAppStreaming (sketch st) = true ->
  SAMPLES_PER_CHUNK <= currentBufferIndex (sketch st) + 1 ->
  length (sensorDataBuffer (sketch st)) = Z.to_nat SAMPLES_PER_CHUNK ->
  ws_clients st <> ∅ ->
  let buf := <[Z.to_nat (currentBufferIndex (sketch st)) := sample r st]>
               (sensorDataBuffer (sketch st)) in
  loop r st = emit (BinaryAll (buffer_bytes buf)) (with_sketch st (with_buffer (sketch st) buf 0)) /\
  length (buffer_bytes buf) = 400%nat.
Proof.
  intros Hs Hi Hlen Hcl buf.
  assert (Hb : length buf = Z.to_nat SAMPLES_PER_CHUNK)
    by (unfold buf; rewrite length_insert; exact Hlen).
  destruct (full_buffer_chunk buf Hb) as [Htake H400]. split; [|exact H400].
  unfold loop. rewrite Hs.
  destruct (SAMPLES_PER_CHUNK <=? currentBufferIndex (sketch st) + 1) eqn:Hc; [|lia].
  fold (sample r st). fold buf. rewrite Htake. unfold broadcastBinaryData.
  rewrite H400.
  destruct (0 <? ws_count (with_sketch st (with_buffer (sketch st) buf 0))) eqn:Hz;
    [reflexivity|].
  exfalso. apply Hcl. apply ws_count_zero.
  change (ws_count (with_sketch st (with_buffer (sketch st) buf 0))) with (ws_count st) in Hz.
  assert (0 <= ws_count st) by (unfold ws_count; lia). lia.
Qed.

Lemma run_cons s steps st : run (s :: steps) st = run steps (step s st).
Proof. reflexivity. Qed.

Lemma run_app steps1 steps2 st : run (steps1 ++ steps2) st = run steps2 (run steps1 st).
Proof. apply foldl_app. Qed.

Lemma with_millis_idem st a b : with_millis (with_millis st a) b = with_millis st b.
Proof. reflexivity. Qed.

(** While the sketch is idle, sampling steps move the clock only. *)
Lemma run_idle steps st :
  sampling steps -> isAppStreaming (sketch st) = false ->
  exists t, run steps st = with_millis st t.
Proof.
  unfold sampling. revert st. induction steps as [|s steps IH]; intros st Hall Hs.
  - exists (millis st). destruct st; reflexivity.
  - cbn in Hall. apply andb_prop in Hall as [Hs1 Hall].
    destruct s; try discriminate; rewrite run_cons; cbn [step].
    + rewrite loop_idle by exact Hs. apply IH; auto.
    + destruct (IH (with_millis st (wrap_u32 (millis st + ms))) Hall Hs) as [t Ht].
      exists t. exact Ht.
Qed.

(** While the sketch streams and the buffer does not fill up, sampling
    steps append to the buffer and move the clock; nothing is sent. *)
Lemma run_appending steps st :
  sampling steps ->
  isAppStreaming (sketch st) = true ->
  0 <= currentBufferIndex (sketch st) ->
  currentBufferIndex (sketch st) + loops steps < SAMPLES_PER_CHUNK ->
  exists t sk,
    run steps st = with_millis (with_sketch st sk) t /\
    isAppStreaming sk = true /\
    currentBufferIndex sk = currentBufferIndex (sketch st) + loops steps /\
    length (sensorDataBuffer sk) = length (sensorDataBuffer (sketch st)) /\
    (loops steps = 0 -> sk = sketch st).
Proof.
  unfold sampling. revert st. induction steps as [|s steps IH]; intros st Hall Hs H0 Hlt.
  - exists (millis st), (sketch st). cbn. rewrite Z.add_0_r.
    repeat apply conj; auto. destruct st; reflexivity.
  - cbn in Hall. apply andb_prop in Hall as [Hs1 Hall].
    assert (Hnn : 0 <= loops steps).
    { clear. induction steps as [|[] ? ?]; cbn; lia. }
    destruct s; try discriminate; rewrite run_cons; cbn [step loops] in *.
    + rewrite loop_append by (auto; lia).
      match goal with
      | |- context [run steps ?x] =>
          destruct (IH x) as (t & sk & Hrun & Hsk & Hidx & Hlen & _);
            [exact Hall|exact Hs|cbn; lia|cbn; lia|]
      end.
      exists t, sk. rewrite Hrun. cbn in Hidx, Hlen.
      rewrite length_insert in Hlen.
      repeat apply conj; auto; lia.
    + destruct (IH (with_millis st (wrap_u32 (millis st + ms))) Hall Hs H0 Hlt)
        as (t & sk & Hrun & Hsk & Hidx & Hlen & Hsame).
      exists t, sk. rewrite Hrun. repeat apply conj; auto.
Qed.

(** Sampling steps that bring the index to [SAMPLES_PER_CHUNK] send the
    buffer once, as one chunk of 400 bytes. *)
Lemma run_filling steps st :
  sampling steps ->
  isAppStreaming (sketch st) = true ->
  0 <= currentBufferIndex (sketch st) < SAMPLES_PER_CHUNK ->
  currentBufferIndex (sketch st) + loops steps = SAMPLES_PER_CHUNK ->
  length (sensorDataBuffer (sketch st)) = Z.to_nat SAMPLES_PER_CHUNK ->
  ws_clients st <> ∅ ->
  exists t sk chunk,
    run steps st = with_millis (emit (BinaryAll chunk) (with_sketch st sk)) t /\
    length chunk = 400%nat /\
    chunk = buffer_bytes (sensorDataBuffer sk) /\
    currentBufferIndex sk = 0 /\
    isAppStreaming sk = true.
Proof.
  unfold sampling. revert st.
  induction steps as [|s steps IH]; intros st Hall Hs Hi Hsum Hlen Hcl.
  - cbn in Hsum. lia.
  - cbn in Hall. apply andb_prop in Hall as [Hs1 Hall].
    destruct s; try discriminate; rewrite run_cons; cbn [step loops] in *.
    + destruct (Z.eq_dec (currentBufferIndex (sketch st) + 1) SAMPLES_PER_CHUNK) as [Hfull|Hmore].
      * destruct (loop_flush r st Hs ltac:(lia) Hlen Hcl) as [Hloop H400].
        rewrite Hloop.
        match goal with
        | |- context [run steps ?x] =>
            destruct (run_appending steps x Hall) as (t & sk & Hrun & _ & _ & _ & Hsame);
              [exact Hs|cbn; lia|cbn; unfold SAMPLES_PER_CHUNK in *; lia|]
        end.
        rewrite Hrun, Hsame by lia.
        eexists t, _, _. split; [reflexivity|]. cbn. auto.
      * rewrite loop_append by (auto; lia).
        match goal with
        | |- context [run steps ?x] =>
            destruct (IH x Hall) as (t & sk & chunk & Hrun & H400 & Hchunk & Hidx & Hsk);
              [exact Hs|cbn; lia|cbn; lia|cbn; rewrite length_insert; exact Hlen|exact Hcl|]
        end.
        exists t, sk, chunk. rewrite Hrun. auto.
    + destruct (IH (with_millis st (wrap_u32 (millis st + ms))) Hall Hs Hi Hsum Hlen Hcl)
        as (t & sk & chunk & Hrun & Hrest).
      exists t, sk, chunk. rewrite Hrun. auto.
Qed.

(** *** The devices the sketch can be in *)

Lemma invariant_core st st' : core st' = core st -> Invariant st -> Invariant st'.
Proof.
  unfold core. intros [= H1 H2 H3 H4 H5] [].
  constructor; rewrite ?H1, ?H2, ?H3, ?H4, ?H5; auto.
Qed.

Lemma core_sendVariableValue c i st : core (sendVariableValueInternal c i st) = core st.
Proof. unfold sendVariableValueInternal. repeat case_match; reflexivity. Qed.

Lemma core_set i v st : core (snd (setVariableValueInternal i v st)) = core st.
Proof. unfold setVariableValueInternal. repeat case_match; reflexivity. Qed.

Lemma invariant_demo : Invariant demo.
Proof. constructor; try reflexivity; cbn; try discriminate. unfold SAMPLES_PER_CHUNK. lia. Qed.

(** A data event leaves what the invariant reads alone, unless it starts
    or stops the stream. *)
Lemma data_event_cases c info len parsed st :
  let st' := onWebSocketEvent c (WS_EVT_DATA info len parsed) st in
  core st' = core st \/
  (exists onStart,
      _onStreamStartCallback st = Some onStart /\ _isStreaming st = false /\
      st' = sendStatusInternal c "ok" "Stream started."
              (with_isStreaming (call OnStreamStart onStart st) true)) \/
  (exists onStop,
      _onStreamStopCallback st = Some onStop /\ _isStreaming st = true /\
      st' = sendStatusInternal c "ok" "Stream stopped."
              (with_isStreaming (call OnStreamStop onStop st) false)).
Proof.
  cbv zeta. unfold onWebSocketEvent.
  destruct (_ && _ && _ && _); [|left; reflexivity].
  destruct parsed as [jsonDoc|]; [|left; reflexivity].
  destruct (Json.as_cstr (Json.member "action" jsonDoc)) as [action|]; [|left; reflexivity].
  destruct (String.eqb action "get" || String.eqb action "set").
  - destruct (Json.as_cstr (Json.member "variable" jsonDoc)) as [nm|]; [|left; reflexivity].
    destruct (_ =? -1); [left; reflexivity|].
    destruct (String.eqb action "get"); [left; apply core_sendVariableValue|].
    destruct (negb _ || _); [left; reflexivity|].
    pose proof (core_set (findVariableIndexInternal nm st) (Json.member "value" jsonDoc) st)
      as Hc.
    destruct (setVariableValueInternal _ _ st) as [r st'']. cbn [snd] in Hc.
    left. destruct (succeeded r); [rewrite core_sendVariableValue|]; exact Hc.
  - destruct (String.eqb action "start_stream").
    + destruct (_onStreamStartCallback st) as [onStart|] eqn:Hcb; [|left; reflexivity].
      destruct (_isStreaming st) eqn:Hs; cbn [negb]; [left; reflexivity|].
      right; left. exists onStart. auto.
    + destruct (String.eqb action "stop_stream").
      * destruct (_onStreamStopCallback st) as [onStop|] eqn:Hcb; [|left; reflexivity].
        destruct (_isStreaming st) eqn:Hs; [|left; reflexivity].
        right; right. exists onStop. auto.
      * destruct (String.eqb action "get_all_vars_config"); [|left; reflexivity].
        destruct (_variables st); [|left; reflexivity].
        destruct (_ <=? 0); left; reflexivity.
Qed.

Lemma invariant_data c info len parsed st :
  c ∈ ws_clients st -> Invariant st ->
  Invariant (onWebSocketEvent c (WS_EVT_DATA info len parsed) st).
Proof.
  intros Hc Hinv.
  assert (Hne : ws_clients st <> ∅) by set_solver.
  destruct (data_event_cases c info len parsed st)
    as [Hcore | [(onStart & Hcb & Hs & ->) | (onStop & Hcb & Hs & ->)]].
  - eapply invariant_core; eauto.
  - destruct Hinv as [Hstart Hstop Hstr Hcl Hidx Hbuf].
    assert (onStart = application_onStreamStart) as -> by congruence.
    constructor; cbn; auto. unfold SAMPLES_PER_CHUNK. lia.
  - destruct Hinv as [Hstart Hstop Hstr Hcl Hidx Hbuf].
    assert (onStop = application_onStreamStop) as -> by congruence.
    constructor; cbn; auto.
Qed.

Lemma invariant_loop r st : Invariant st -> Invariant (loop r st).
Proof.
  intros Hinv. destruct (isAppStreaming (sketch st)) eqn:Hs.
  - destruct Hinv as [Hstart Hstop Hstr Hcl Hidx Hbuf].
    destruct (Z.eq_dec (currentBufferIndex (sketch st) + 1) SAMPLES_PER_CHUNK) as [Hfull|Hmore].
    + destruct (loop_flush r st Hs ltac:(lia) Hbuf ltac:(apply Hcl; congruence)) as [-> _].
      constructor; cbn; auto; rewrite ?length_insert; auto. unfold SAMPLES_PER_CHUNK. lia.
    + rewrite loop_append by (auto; lia).
      constructor; cbn; auto; rewrite ?length_insert; auto. lia.
  - rewrite loop_idle by exact Hs. exact Hinv.
Qed.

Lemma invariant_step s st : Invariant st -> admissible s st -> Invariant (step s st).
Proof.
  intros Hinv Hadm. destruct s as [c|c|c ev|r|ms]; cbn [step].
  - unfold client_connects, onWebSocketEvent. destruct Hinv.
    constructor; cbn; auto. intros _. set_solver.
  - destruct (decide (ws_clients st ∖ {[c]} = ∅)) as [He|Hne].
    + destruct (_isStreaming st) eqn:Hs.
      * rewrite (disconnect_last_client c st application_onStreamStop He Hs)
          by (destruct Hinv; auto).
        destruct Hinv. constructor; cbn; auto.
      * unfold client_disconnects, onWebSocketEvent. cbn [_isStreaming with_clients].
        rewrite Hs. cbn [andb]. destruct Hinv. constructor; cbn; auto. congruence.
    + rewrite disconnect_leaves_clients by exact Hne.
      destruct Hinv. constructor; cbn; auto.
  - destruct ev; cbn in Hadm; try contradiction; try exact Hinv.
    apply invariant_data; auto.
  - apply invariant_loop; exact Hinv.
  - eapply invariant_core; [|exact Hinv]. reflexivity.
Qed.

Lemma reachable_invariant st : Reachable st -> Invariant st.
Proof.
  induction 1 as [|s st Hr IH Hadm]; [exact invariant_demo|].
  apply invariant_step; auto.
Qed.

Lemma reachable_run steps st :
  Reachable st -> sampling steps -> Reachable (run steps st).
Proof.
  unfold sampling. revert st. induction steps as [|s steps IH]; intros st Hr Hall; [exact Hr|].
  cbn in Hall. apply andb_prop in Hall as [Hs Hall]. rewrite run_cons.
  apply IH; [|exact Hall]. apply reach_step; [exact Hr|].
  destruct s; try discriminate; exact I.
Qed.

Lemma chunks_app es1 es2 : chunks (es1 ++ es2) = chunks es1 ++ chunks es2.
Proof. apply omap_app. Qed.

(** C7: the sketch streaming with an empty buffer, in any device the
    sketch can be in.  Sampling steps with exactly 25 passes of [loop()]
    send exactly one chunk: the 400 bytes of the 25 records, after which
    the index is 0 again.  Sampling steps with 24 passes followed by a stop
    send nothing; the 24 records stay in the buffer unsent, the sketch no
    longer appends, and the next "start_stream" puts the index back to 0,
    still without a chunk. *)
Theorem C7_chunk_of_25_samples :
  forall st : Device,
    Reachable st ->
    isAppStreaming (sketch st) = true ->
    currentBufferIndex (sketch st) = 0 ->
    (forall steps : list Step,
        sampling steps ->
        loops steps = SAMPLES_PER_CHUNK ->
        let st' := run steps st in
        exists chunk : list byte,
          effects st' = effects st ++ [BinaryAll chunk] /\
          length chunk = 400%nat /\
          chunk = buffer_bytes (sensorDataBuffer (sketch st')) /\
          chunks (effects st') = chunks (effects st) ++ [chunk] /\
          currentBufferIndex (sketch st') = 0) /\
    (forall (steps idle : list Step) (stop : Step) (c : N) (len : Z) (doc : JsonVariant),
        sampling steps ->
        loops steps = SAMPLES_PER_CHUNK - 1 ->
        stopping stop (run steps st) ->
        sampling idle ->
        action_of doc = Some "start_stream" ->
        let st1 := run steps st in
        let st2 := step stop st1 in
        let st3 := run idle st2 in
        let st4 := client_sends c len (Some doc) st3 in
        effects st1 = effects st /\
        currentBufferIndex (sketch st1) = SAMPLES_PER_CHUNK - 1 /\
        chunks (effects st2) = chunks (effects st) /\
        isAppStreaming (sketch st2) = false /\
        _isStreaming st2 = false /\
        sketch st3 = sketch st2 /\
        effects st3 = effects st2 /\
        chunks (effects st4) = chunks (effects st) /\
        currentBufferIndex (sketch st4) = 0 /\
        isAppStreaming (sketch st4) = true).
Proof.
  intros st Hreach Hs Hidx.
  pose proof (reachable_invariant st Hreach) as Hinv. split.
  - intros steps Hsamp Hloops. cbv zeta.
    destruct (run_filling steps st Hsamp Hs) as (t & sk & chunk & Hrun & H400 & Hchunk & Hi & _).
    + destruct Hinv; lia.
    + lia.
    + destruct Hinv; auto.
    + destruct Hinv as [_ _ Hstr Hcl _ _]. apply Hcl. congruence.
    + exists chunk. rewrite Hrun. cbn. rewrite chunks_app. auto.
  - intros steps idle stop c len doc Hsamp Hloops Hstop Hidle Hact. cbv zeta.
    pose proof (reachable_invariant _ (reachable_run steps st Hreach Hsamp))
      as [Hstart1 Hstop1 Hstr1 Hcl1 Hidx1 Hbuf1].
    destruct (run_appending steps st Hsamp Hs) as (t & sk & Hrun & Hsk & Hi & Hlen & _).
    { lia. } { unfold SAMPLES_PER_CHUNK in *. lia. }
    set (st1 := run steps st) in *.
    assert (Hstreaming1 : _isStreaming st1 = true).
    { rewrite <- Hstr1, Hrun. exact Hsk. }
    assert (Hst2 : sketch (step stop st1) =
                     application_onStreamStop (millis st1) (sketch st1) /\
                   _isStreaming (step stop st1) = false /\
                   _onStreamStartCallback (step stop st1) = _onStreamStartCallback st1 /\
                   chunks (effects (step stop st1)) = chunks (effects st1)).
    { destruct Hstop as [(c0 & len0 & doc0 & -> & Hact0) | (c0 & -> & Hlast)]; cbn [step].
      - change (onWebSocketEvent c0 (WS_EVT_DATA (text_frame len0) len0 (Some doc0)) st1)
          with (client_sends c0 len0 (Some doc0) st1).
        assert (Hr : client_sends c0 len0 (Some doc0) st1 =
                     sendStatusInternal c0 "ok" "Stream stopped."
                       (with_isStreaming (call OnStreamStop application_onStreamStop st1) false)).
        { route Hact0. rewrite Hstop1, Hstreaming1. reflexivity. }
        rewrite Hr. repeat apply conj; try reflexivity.
        cbn. rewrite !chunks_app. cbn. rewrite !app_nil_r. reflexivity.
      - rewrite (disconnect_last_client c0 st1 application_onStreamStop Hlast Hstreaming1 Hstop1).
        repeat apply conj; try reflexivity.
        cbn. rewrite chunks_app. cbn. rewrite app_nil_r. reflexivity. }
    destruct Hst2 as (Hsketch2 & Hstr2 & Hstart2 & Hchunks2).
    set (st2 := step stop st1) in *.
    assert (Hsk2 : isAppStreaming (sketch st2) = false) by (rewrite Hsketch2; reflexivity).
    destruct (run_idle idle st2 Hidle Hsk2) as [t3 Hrun3].
    assert (Heff1 : effects st1 = effects st) by (rewrite Hrun; reflexivity).
    rewrite Hstart1 in Hstart2.
    assert (Hr4 : client_sends c len (Some doc) (run idle st2) =
                  sendStatusInternal c "ok" "Stream started."
                    (with_isStreaming
                       (call OnStreamStart application_onStreamStart (run idle st2)) true)).
    { route Hact. rewrite Hrun3. cbn [_onStreamStartCallback _isStreaming with_millis].
      rewrite Hstart2, Hstr2. reflexivity. }
    rewrite Hr4, Hrun3.
    repeat apply conj; auto.
    + rewrite Hrun. cbn. lia.
    + congruence.
    + cbn. rewrite !chunks_app. cbn. rewrite !app_nil_r. congruence.
Qed.

(** *** Candidates for an integer variable *)

Lemma set_at i v st vars var :
  _variables st = Some vars ->
  0 <= i < _numVariables st ->
  vars !! Z.to_nat i = Some var ->
  setVariableValueInternal i v st =
    (fst (assign var v),
     if succeeded (fst (assign var v))
     then with_variables st (Some (<[Z.to_nat i := snd (assign var v)]> vars)) (_numVariables st)
     else st).
Proof.
  intros Hv Hi Hl. unfold setVariableValueInternal. rewrite Hv.
  destruct ((i <? 0) || (_numVariables st <=? i)) eqn:Hr; [lia|].
  rewrite Hl. destruct (assign var v) as [r var']. cbn [fst snd].
  destruct (succeeded r); reflexivity.
Qed.

(** C3, as the code has it: on an integer variable, an integer candidate
    that fits [int], and a floating candidate without fractional part
    between [INT_MIN] and [2^31 - 65], pass the type check and, limits
    permitting, are stored as that integer (125.0 is stored as 125); a
    floating candidate whose single-precision value [as<float>()] has a
    fractional part (125.5 has) is rejected as a type mismatch and the
    device stays as it is. *)
Theorem C3_integer_variable_candidates :
  forall (st : Device) (vars : list VariableConfig) (i : Z) (var : VariableConfig),
    _variables st = Some vars ->
    0 <= i < _numVariables st ->
    vars !! Z.to_nat i = Some var ->
    type var = TYPE_INT ->
    let stored := fun x : Z =>
      with_variables st (Some (<[Z.to_nat i := set_intValue var x]> vars)) (_numVariables st) in
    (forall z : Z,
        Json.is_int (JInteger z) = true ->
        setVariableValueInternal i (JInteger z) st =
          if out_of_limits var (IEEE.double_of_Z z) then (OutOfRange, st)
          else (SetOk, stored z)) /\
    (forall (d : spec_float) (z : Z),
        IEEE.valid_double d = true ->
        IEEE.integer_value d = Some z ->
        INT_MIN <= z <= 2 ^ 31 - 65 ->
        setVariableValueInternal i (JFloat d) st =
          if out_of_limits var (IEEE.double_of_Z z) then (OutOfRange, st)
          else (SetOk, stored z)) /\
    (forall d : spec_float,
        IEEE.has_fraction (IEEE.float_of_double d) = true ->
        setVariableValueInternal i (JFloat d) st = (TypeMismatch, st)) /\
    (out_of_limits var (IEEE.double_of_Z 125) = false ->
     setVariableValueInternal i (JFloat (IEEE.double_of_dyadic 125 0)) st = (SetOk, stored 125) /\
     json_of_value (set_intValue var 125) = JInteger 125) /\
    setVariableValueInternal i (JFloat (IEEE.double_of_dyadic 251 (-1))) st = (TypeMismatch, st).
Proof.
  intros st vars i var Hv Hi Hl Ht stored.
  assert (Hint : forall z, in_int_range z = true ->
            setVariableValueInternal i (JInteger z) st =
              if out_of_limits var (IEEE.double_of_Z z) then (OutOfRange, st)
              else (SetOk, stored z)).
  { intros z Hz. rewrite (set_at i _ st vars var Hv Hi Hl), (assign_int_integer var z Ht Hz).
    destruct (out_of_limits var (IEEE.double_of_Z z)); reflexivity. }
  assert (Hdbl : forall d z, IEEE.valid_double d = true -> IEEE.integer_value d = Some z ->
            INT_MIN <= z <= 2 ^ 31 - 65 ->
            setVariableValueInternal i (JFloat d) st =
              if out_of_limits var (IEEE.double_of_Z z) then (OutOfRange, st)
              else (SetOk, stored z)).
  { intros d z Hd Hz Hr. rewrite <- Hint.
    - rewrite !(set_at i _ st vars var Hv Hi Hl), (assign_int_integral var d z Ht Hd Hz Hr).
      reflexivity.
    - unfold in_int_range, INT_MIN, INT_MAX in *. apply andb_true_intro.
      rewrite !Z.leb_le. lia. }
  assert (Hfrac : forall d, IEEE.has_fraction (IEEE.float_of_double d) = true ->
            setVariableValueInternal i (JFloat d) st = (TypeMismatch, st)).
  { intros d Hd. rewrite (set_at i _ st vars var Hv Hi Hl), (assign_int_fraction var d Ht Hd).
    reflexivity. }
  repeat apply conj; auto.
  intros Hlim. split.
  - rewrite (Hdbl _ 125); [rewrite Hlim; reflexivity|reflexivity|reflexivity|].
    unfold INT_MIN. lia.
  - unfold json_of_value. cbn. rewrite Ht. reflexivity.
Qed.

(** ** The library as a whole *)

(** *** Looking a name up *)

Lemma find_from_none k nm (l : list VariableConfig) :
  0 <= k -> (find_from k nm l = -1 <-> Forall (fun var => name var <> nm) l).
Proof.
  revert k. induction l as [|x l IH]; intros k Hk; cbn.
  - split; [constructor|reflexivity].
  - destruct (String.eqb_spec nm (name x)) as [He|He].
    + split; [lia|]. intros H. apply Forall_cons in H as [H _]. congruence.
    + rewrite (IH (k + 1)) by lia. rewrite Forall_cons. intuition congruence.
Qed.

Lemma find_from_first k nm (l : list VariableConfig) (j : nat) var :
  0 <= k -> find_from k nm l <> -1 ->
  (j < Z.to_nat (find_from k nm l - k))%nat -> l !! j = Some var -> name var <> nm.
Proof.
  revert k j. induction l as [|x l IH]; intros k j Hk; cbn; [congruence|].
  destruct (String.eqb_spec nm (name x)) as [He|He]; intros Hf Hj Hl.
  - rewrite Z.sub_diag in Hj. cbn in Hj. lia.
  - destruct (find_from_found (k + 1) nm l) as [Hle _]; [lia|exact Hf|].
    destruct j as [|j]; cbn in Hl.
    + injection Hl as <-. congruence.
    + apply (IH (k + 1) j); auto; lia.
Qed.

Lemma find_valid nm st :
  findVariableIndexInternal nm st <> -1 ->
  exists vars var,
    _variables st = Some vars /\
    0 <= findVariableIndexInternal nm st < _numVariables st /\
    vars !! Z.to_nat (findVariableIndexInternal nm st) = Some var /\
    name var = nm.
Proof.
  unfold findVariableIndexInternal. destruct (_variables st) as [vars|]; [|congruence].
  destruct (_numVariables st <=? 0) eqn:Hn; [congruence|]. intros Hf.
  destruct (find_from_found 0 nm _ ltac:(lia) Hf) as [Hle [var [Hl Hname]]].
  rewrite Z.sub_0_r in Hl. apply lookup_take_Some in Hl as [Hl Hlt].
  exists vars, var. repeat apply conj; auto; lia.
Qed.

(** *** What an event does *)

Ltac status_listed :=
  apply reply_status; unfold statuses;
  repeat first [apply list_elem_of_here | apply list_elem_of_further].

Lemma send_value_found c nm st :
  findVariableIndexInternal nm st <> -1 ->
  exists var, sendVariableValueInternal c (findVariableIndexInternal nm st) st =
              emit (SendText c (value_document var)) st.
Proof.
  intros Hf. destruct (find_valid nm st Hf) as (vars & var & Hv & Hi & Hl & _).
  exists var. unfold sendVariableValueInternal. rewrite Hv.
  destruct (_ || _) eqn:Hr; [lia|]. rewrite Hl. reflexivity.
Qed.

(** A complete text message is answered and nothing else, or is a set
    that succeeds, a start, or a stop. *)
Lemma text_cases c len parsed st :
  let st' := client_sends c len parsed st in
  (exists doc, Reply doc /\ st' = emit (SendText c doc) st) \/
  (exists jsonDoc nm vars var var',
      parsed = Some jsonDoc /\ action_of jsonDoc = Some "set" /\
      variable_of jsonDoc = Some nm /\
      _variables st = Some vars /\
      0 <= findVariableIndexInternal nm st < _numVariables st /\
      vars !! Z.to_nat (findVariableIndexInternal nm st) = Some var /\
      name var = nm /\
      assign var (Json.member "value" jsonDoc) = (SetOk, var') /\
      st' = emit (SendText c (value_document var'))
              (with_variables st
                 (Some (<[Z.to_nat (findVariableIndexInternal nm st) := var']> vars))
                 (_numVariables st))) \/
  (exists jsonDoc onStart,
      parsed = Some jsonDoc /\ action_of jsonDoc = Some "start_stream" /\
      _onStreamStartCallback st = Some onStart /\ _isStreaming st = false /\
      st' = sendStatusInternal c "ok" "Stream started."
              (with_isStreaming (call OnStreamStart onStart st) true)) \/
  (exists jsonDoc onStop,
      parsed = Some jsonDoc /\ action_of jsonDoc = Some "stop_stream" /\
      _onStreamStopCallback st = Some onStop /\ _isStreaming st = true /\
      st' = sendStatusInternal c "ok" "Stream stopped."
              (with_isStreaming (call OnStreamStop onStop st) false)).
Proof.
  cbv zeta. unfold client_sends, onWebSocketEvent, text_frame.
  cbn [info_opcode info_final info_index info_len AwsFrameType_eqb andb].
  rewrite !Z.eqb_refl. cbn [andb].
  destruct parsed as [jsonDoc|]; [|left; eexists; split; [|reflexivity]; status_listed].
  change (Json.as_cstr (Json.member "action" jsonDoc)) with (action_of jsonDoc).
  change (Json.as_cstr (Json.member "variable" jsonDoc)) with (variable_of jsonDoc).
  destruct (action_of jsonDoc) as [action|] eqn:Ha;
    [|left; eexists; split; [|reflexivity]; status_listed].
  destruct (String.eqb_spec action "get") as [Hget|Hget].
  { cbn [orb]. subst action.
    destruct (variable_of jsonDoc) as [nm|] eqn:Hn;
      [|left; eexists; split; [|reflexivity]; status_listed].
    destruct (findVariableIndexInternal nm st =? -1) eqn:Hf;
      [left; eexists; split; [|reflexivity]; status_listed|].
    apply Z.eqb_neq in Hf.
    destruct (send_value_found c nm st Hf) as [var ->].
    left. exists (value_document var). split; [constructor|reflexivity]. }
  cbn [orb].
  destruct (String.eqb_spec action "set") as [Hset|Hset].
  { subst action.
    destruct (variable_of jsonDoc) as [nm|] eqn:Hn;
      [|left; eexists; split; [|reflexivity]; status_listed].
    destruct (findVariableIndexInternal nm st =? -1) eqn:Hf;
      [left; eexists; split; [|reflexivity]; status_listed|].
    apply Z.eqb_neq in Hf.
    destruct (negb _ || _);
      [left; eexists; split; [|reflexivity]; status_listed|].
    destruct (setVariableValueInternal (findVariableIndexInternal nm st)
                (Json.member "value" jsonDoc) st) as [r st''] eqn:Hs.
    destruct (succeeded r) eqn:Hr.
    - destruct r; try discriminate.
      destruct (set_success _ _ _ _ Hs) as (vars & var & var' & Hv & Hi & Hl & Has & ->).
      destruct (find_valid nm st Hf) as (vars0 & var0 & Hv0 & _ & Hl0 & Hname).
      assert (vars0 = vars) as -> by congruence.
      assert (var0 = var) as -> by congruence.
      right; left. exists jsonDoc, nm, vars, var, var'.
      repeat apply conj; auto; try lia.
      assert (Hrange : (findVariableIndexInternal nm st <? 0) ||
                       (_numVariables st <=? findVariableIndexInternal nm st) = false) by lia.
      unfold sendVariableValueInternal. cbn [_variables _numVariables with_variables].
      rewrite Hrange.
      rewrite list_lookup_insert_eq by (eapply lookup_lt_Some; eauto). reflexivity.
    - rewrite (set_failure_unchanged _ _ _ _ _ Hs Hr).
      left; eexists; split; [|reflexivity]; status_listed. }
  destruct (String.eqb_spec action "start_stream") as [Hstart|Hstart].
  { subst action.
    destruct (_onStreamStartCallback st) as [onStart|] eqn:Hcb;
      [|left; eexists; split; [|reflexivity]; status_listed].
    destruct (_isStreaming st) eqn:Hs; cbn [negb];
      [left; eexists; split; [|reflexivity]; status_listed|].
    do 2 right; left. exists jsonDoc, onStart. auto. }
  destruct (String.eqb_spec action "stop_stream") as [Hstop|Hstop].
  { subst action.
    destruct (_onStreamStopCallback st) as [onStop|] eqn:Hcb;
      [|left; eexists; split; [|reflexivity]; status_listed].
    destruct (_isStreaming st) eqn:Hs;
      [|left; eexists; split; [|reflexivity]; status_listed].
    do 3 right. exists jsonDoc, onStop. auto. }
  destruct (String.eqb action "get_all_vars_config");
    [|left; eexists; split; [|reflexivity]; status_listed].
  destruct (_variables st) as [vars|];
    [|left; eexists; split; [|reflexivity]; status_listed].
  destruct (_numVariables st <=? 0) eqn:Hz;
    [left; eexists; split; [|reflexivity]; status_listed|].
  left. eexists. split; [|reflexivity]. apply reply_config. lia.
Qed.

(** A data event is a complete text message or is dropped. *)
Lemma data_event_complete c info len parsed st :
  onWebSocketEvent c (WS_EVT_DATA info len parsed) st = client_sends c len parsed st \/
  onWebSocketEvent c (WS_EVT_DATA info len parsed) st = st.
Proof.
  unfold client_sends, text_frame. cbn [onWebSocketEvent].
  cbn [info_opcode info_final info_index info_len AwsFrameType_eqb andb].
  rewrite !Z.eqb_refl. cbn [andb].
  destruct (_ && _ && _ && _); auto.
Qed.

(** What an event does to the device: it leaves it as it is, or appends
    to the trace, or is a set that succeeds, or calls a callback and
    switches the streaming flag. *)
Lemma event_cases c ev st :
  let st' := onWebSocketEvent c ev st in
  st' = st \/
  (exists doc, Reply doc /\ st' = emit (SendText c doc) st) \/
  (exists (i : nat) vars var v var',
      _variables st = Some vars /\ vars !! i = Some var /\
      assign var v = (SetOk, var') /\
      st' = emit (SendText c (value_document var'))
              (with_variables st (Some (<[i := var']> vars)) (_numVariables st))) \/
  (exists onStart,
      _onStreamStartCallback st = Some onStart /\ _isStreaming st = false /\
      st' = sendStatusInternal c "ok" "Stream started."
              (with_isStreaming (call OnStreamStart onStart st) true)) \/
  (exists onStop,
      _onStreamStopCallback st = Some onStop /\ _isStreaming st = true /\
      st' = sendStatusInternal c "ok" "Stream stopped."
              (with_isStreaming (call OnStreamStop onStop st) false)) \/
  (exists onStop,
      _onStreamStopCallback st = Some onStop /\ _isStreaming st = true /\
      ws_clients st = ∅ /\
      st' = with_isStreaming (call OnStreamStop onStop st) false).
Proof.
  cbv zeta. destruct ev as [| |info len parsed| |]; auto.
  - cbn [onWebSocketEvent].
    destruct (_isStreaming st) eqn:Hs; cbn [andb]; auto.
    destruct (ws_count st =? 0) eqn:Hz; auto.
    destruct (_onStreamStopCallback st) as [onStop|] eqn:Hcb; auto.
    do 5 right. exists onStop. apply ws_count_zero in Hz. auto.
  - destruct (data_event_complete c info len parsed st) as [-> | ->]; auto.
    destruct (text_cases c len parsed st)
      as [H | [(doc & nm & vars & var & var' & _ & _ & _ & Hv & _ & Hl & _ & Has & ->) |
               [(doc & onStart & _ & _ & H) | (doc & onStop & _ & _ & H)]]].
    + auto.
    + do 2 right; left. eauto 10.
    + do 3 right; left. eauto.
    + do 4 right; left. eauto.
Qed.

Lemma find_absent nm st :
  (forall vars (j : nat) var,
      _variables st = Some vars -> Z.of_nat j < _numVariables st ->
      vars !! j = Some var -> name var <> nm) ->
  findVariableIndexInternal nm st = -1.
Proof.
  intros Hno. unfold findVariableIndexInternal.
  destruct (_variables st) as [vars|] eqn:Hv; [|reflexivity].
  destruct (_numVariables st <=? 0) eqn:Hn; [reflexivity|].
  apply find_from_none; [lia|]. apply Forall_lookup_2. intros j var Hl.
  apply lookup_take_Some in Hl as [Hl Hlt]. apply (Hno vars j var); auto. lia.
Qed.

(** X1: looking a name up answers the index of the first variable of
    that name among the first [_numVariables], an index inside the
    registry; it answers -1 exactly when no such variable exists, which
    includes the registry that is absent or declared empty. *)
Theorem X1_find_first_match :
  forall (nm : string) (st : Device),
    let i := findVariableIndexInternal nm st in
    (i = -1 \/ 0 <= i < _numVariables st) /\
    (i <> -1 ->
     exists vars var,
       _variables st = Some vars /\
       vars !! Z.to_nat i = Some var /\ name var = nm /\
       forall (j : nat) (other : VariableConfig),
         (j < Z.to_nat i)%nat -> vars !! j = Some other -> name other <> nm) /\
    (i = -1 <->
     forall vars (j : nat) var,
       _variables st = Some vars -> Z.of_nat j < _numVariables st ->
       vars !! j = Some var -> name var <> nm).
Proof.
  intros nm st i. subst i. repeat apply conj.
  - destruct (Z.eq_dec (findVariableIndexInternal nm st) (-1)) as [He|Hne];
      [left; exact He|right].
    destruct (find_valid nm st Hne) as (_ & _ & _ & Hi & _). exact Hi.
  - intros Hne. destruct (find_valid nm st Hne) as (vars & var & Hv & Hi & Hl & Hname).
    exists vars, var. repeat apply conj; auto. intros j other Hj Hother.
    assert (Hlt : (j < Z.to_nat (_numVariables st))%nat) by lia.
    unfold findVariableIndexInternal in Hj, Hne. rewrite Hv in Hj, Hne.
    destruct (_numVariables st <=? 0) eqn:Hn; [congruence|].
    apply (find_from_first 0 nm (take (Z.to_nat (_numVariables st)) vars) j other);
      [lia|exact Hne|rewrite Z.sub_0_r; exact Hj|].
    apply lookup_take_Some. split; [exact Hother|exact Hlt].
  - intros He vars j var Hv Hj Hl. unfold findVariableIndexInternal in He.
    rewrite Hv in He. destruct (_numVariables st <=? 0) eqn:Hn; [lia|].
    apply find_from_none in He; [|lia].
    eapply (Forall_lookup_1 _ _ j var) in He; [exact He|].
    apply lookup_take_Some. split; [exact Hl|lia].
  - apply find_absent.
Qed.

(** X2: a "get" or a "set" that names no variable of the registry is
    answered with the error "Variable name not found." and changes
    nothing else, whatever value a "set" carries. *)
Theorem X2_unknown_variable :
  forall (st : Device) (c : N) (len : Z) (doc : JsonVariant) (nm : string),
    action_of doc = Some "get" \/ action_of doc = Some "set" ->
    variable_of doc = Some nm ->
    (forall vars (j : nat) var,
        _variables st = Some vars -> Z.of_nat j < _numVariables st ->
        vars !! j = Some var -> name var <> nm) ->
    client_sends c len (Some doc) st =
      sendStatusInternal c "error" "Variable name not found." st.
Proof.
  intros st c len doc nm Ha Hn Hno.
  pose proof (find_absent nm st Hno) as Hf.
  destruct Ha as [Ha|Ha]; route Ha; unfold variable_of in Hn; rewrite Hn, Hf; reflexivity.
Qed.

Lemma sent_app es1 es2 : sent (es1 ++ es2) = sent es1 ++ sent es2.
Proof. apply omap_app. Qed.

Lemma hooks_app es1 es2 : hooks (es1 ++ es2) = hooks es1 ++ hooks es2.
Proof. apply omap_app. Qed.

(** X3: every complete text message is answered with exactly one text
    message, sent to the client the message came from and built in one of
    the library's three shapes; no binary data is sent in answer. *)
Theorem X3_one_reply_per_message :
  forall (st : Device) (c : N) (len : Z) (parsed : option JsonVariant),
    let st' := client_sends c len parsed st in
    exists doc : JsonVariant,
      sent (effects st') = sent (effects st) ++ [(c, doc)] /\
      Reply doc /\
      chunks (effects st') = chunks (effects st).
Proof.
  intros st c len parsed. cbv zeta.
  destruct (text_cases c len parsed st)
    as [(doc & Hr & ->) |
        [(doc & nm & vars & var & var' & _ & _ & _ & _ & _ & _ & _ & _ & ->) |
         [(doc & onStart & _ & _ & _ & _ & ->) | (doc & onStop & _ & _ & _ & _ & ->)]]].
  - exists doc. cbn. rewrite sent_app, chunks_app. cbn. rewrite app_nil_r. auto.
  - exists (value_document var'). cbn. rewrite sent_app, chunks_app. cbn.
    rewrite app_nil_r. repeat apply conj; auto. constructor.
  - exists (status_document "ok" "Stream started."). cbn.
    rewrite !sent_app, !chunks_app. cbn. rewrite !app_nil_r.
    repeat apply conj; auto. status_listed.
  - exists (status_document "ok" "Stream stopped."). cbn.
    rewrite !sent_app, !chunks_app. cbn. rewrite !app_nil_r.
    repeat apply conj; auto. status_listed.
Qed.

(** X4: a complete text message that is not a "set", a "start_stream" or
    a "stop_stream" (a "get", a "get_all_vars_config", an unknown or a
    missing action, text that is no JSON) changes nothing of the device:
    it appends its one answer to the trace. *)
Theorem X4_requests_that_only_answer :
  forall (st : Device) (c : N) (len : Z) (parsed : option JsonVariant),
    (forall doc, parsed = Some doc ->
       action_of doc <> Some "set" /\
       action_of doc <> Some "start_stream" /\
       action_of doc <> Some "stop_stream") ->
    exists reply : JsonVariant,
      client_sends c len parsed st = emit (SendText c reply) st.
Proof.
  intros st c len parsed Hact.
  destruct (text_cases c len parsed st)
    as [(doc & Hr & H) |
        [(doc & nm & vars & var & var' & Hp & Ha & _) |
         [(doc & onStart & Hp & Ha & _) | (doc & onStop & Hp & Ha & _)]]].
  - exists doc. exact H.
  - destruct (Hact doc Hp) as (H & _ & _). contradiction.
  - destruct (Hact doc Hp) as (_ & H & _). contradiction.
  - destruct (Hact doc Hp) as (_ & _ & H). contradiction.
Qed.

(** *** What no step changes *)

Lemma assign_declaration var v r var' :
  assign var v = (r, var') -> declaration var' = declaration var.
Proof.
  unfold assign. intros H.
  destruct (type var);
    repeat match type of H with
           | (if ?b then _ else _) = _ => destruct b
           end;
    injection H as <- <-; reflexivity.
Qed.

Lemma declarations_insert (vars : list VariableConfig) i var var' :
  vars !! i = Some var -> declaration var' = declaration var ->
  declaration <$> <[i := var']> vars = declaration <$> vars.
Proof.
  intros Hl Hd. rewrite list_fmap_insert, Hd.
  apply list_insert_id. rewrite list_lookup_fmap, Hl. reflexivity.
Qed.

Lemma configuration_event c ev st :
  configuration (onWebSocketEvent c ev st) = configuration st.
Proof.
  destruct (event_cases c ev st)
    as [-> | [(doc & _ & ->) | [(i & vars & var & v & var' & Hv & Hl & Has & ->) |
        [(onStart & _ & _ & ->) | [(onStop & _ & _ & ->) | (onStop & _ & _ & _ & ->)]]]]];
    try reflexivity.
  unfold configuration. cbn. rewrite Hv. cbn.
  rewrite (declarations_insert vars i var var' Hl (assign_declaration _ _ _ _ Has)).
  reflexivity.
Qed.

Lemma configuration_loop r st : configuration (loop r st) = configuration st.
Proof.
  unfold loop. destruct (isAppStreaming (sketch st)); [|reflexivity].
  destruct (SAMPLES_PER_CHUNK <=? _); [|reflexivity].
  unfold broadcastBinaryData. destruct (_ && _); reflexivity.
Qed.

Lemma configuration_step s st : configuration (step s st) = configuration st.
Proof.
  destruct s as [c|c|c ev|r|ms]; cbn [step].
  - unfold client_connects. rewrite configuration_event. reflexivity.
  - unfold client_disconnects. rewrite configuration_event. reflexivity.
  - apply configuration_event.
  - apply configuration_loop.
  - reflexivity.
Qed.

Lemma configuration_run steps st : configuration (run steps st) = configuration st.
Proof.
  revert st. induction steps as [|s steps IH]; intros st; [reflexivity|].
  rewrite run_cons, IH. apply configuration_step.
Qed.

(** X5: whatever events arrive and however often [loop()] runs, the
    library keeps the configuration it was given: the number of
    variables, the name, type and limits of each, and the two callbacks.
    Only the values of the variables change. *)
Theorem X5_configuration_is_fixed :
  forall (steps : list Step) (st : Device),
    configuration (run steps st) = configuration st /\
    (forall vars,
        _variables st = Some vars ->
        exists vars',
          _variables (run steps st) = Some vars' /\
          length vars' = length vars /\
          forall (i : nat) var',
            vars' !! i = Some var' ->
            exists var, vars !! i = Some var /\ declaration var' = declaration var).
Proof.
  intros steps st. pose proof (configuration_run steps st) as Hc. split; [exact Hc|].
  intros vars Hv. unfold configuration in Hc. rewrite Hv in Hc.
  destruct (_variables (run steps st)) as [vars'|]; [|discriminate].
  cbn in Hc. injection Hc as Hd _ _ _.
  exists vars'. split; [reflexivity|]. split.
  - apply (f_equal length) in Hd. rewrite !length_fmap in Hd. exact Hd.
  - intros i var' Hl.
    assert (Hi : (declaration <$> vars) !! i = Some (declaration var')).
    { rewrite <- Hd, list_lookup_fmap, Hl. reflexivity. }
    rewrite list_lookup_fmap in Hi. destruct (vars !! i) as [var|]; [|discriminate].
    exists var. split; [reflexivity|]. cbn in Hi. congruence.
Qed.

(** *** Values stay within their limits *)

Lemma assign_within_limits var v var' :
  assign var v = (SetOk, var') -> within_limits var' = true.
Proof.
  unfold assign, within_limits, out_of_limits. intros H.
  destruct (type var) eqn:Ht.
  - destruct (negb _ && negb _); [discriminate|].
    destruct (hasLimits var && _) eqn:Hlim; [discriminate|].
    injection H as <-. cbn. rewrite Ht, Hlim. reflexivity.
  - destruct (negb _ && negb _); [discriminate|].
    destruct (hasLimits var && _) eqn:Hlim; [discriminate|].
    injection H as <-. cbn. rewrite Ht, Hlim. reflexivity.
  - destruct (negb _ && negb _); [discriminate|].
    injection H as <-. cbn. rewrite Ht. reflexivity.
Qed.

Lemma forallb_insert {A} (f : A -> bool) (l : list A) i x :
  forallb f l = true -> f x = true -> forallb f (<[i := x]> l) = true.
Proof.
  revert i. induction l as [|y l IH]; intros i Hl Hx; [reflexivity|].
  cbn in Hl. apply andb_prop in Hl as [Hy Hl].
  destruct i as [|i]; cbn; rewrite ?Hx, ?Hy; cbn; auto.
Qed.

Lemma limits_event c ev st :
  registry_within_limits st = true ->
  registry_within_limits (onWebSocketEvent c ev st) = true.
Proof.
  intros H.
  destruct (event_cases c ev st)
    as [-> | [(doc & _ & ->) | [(i & vars & var & v & var' & Hv & Hl & Has & ->) |
        [(onStart & _ & _ & ->) | [(onStop & _ & _ & ->) | (onStop & _ & _ & _ & ->)]]]]];
    try exact H.
  unfold registry_within_limits in *. cbn. rewrite Hv in H.
  apply forallb_insert; [exact H|]. eapply assign_within_limits; eauto.
Qed.

Lemma limits_loop r st : registry_within_limits (loop r st) = registry_within_limits st.
Proof.
  unfold loop. destruct (isAppStreaming (sketch st)); [|reflexivity].
  destruct (SAMPLES_PER_CHUNK <=? _); [|reflexivity].
  unfold broadcastBinaryData. destruct (_ && _); reflexivity.
Qed.

(** X6: if the value of every numeric variable that has limits passes
    the limit check, this stays so whatever events arrive and however
    often [loop()] runs: no request stores a value the check refuses. *)
Theorem X6_values_stay_within_limits :
  forall (steps : list Step) (st : Device),
    registry_within_limits st = true ->
    registry_within_limits (run steps st) = true.
Proof.
  induction steps as [|s steps IH]; intros st H; [exact H|].
  rewrite run_cons. apply IH.
  destruct s as [c|c|c ev|r|ms]; cbn [step].
  - unfold client_connects. apply limits_event. exact H.
  - unfold client_disconnects. apply limits_event. exact H.
  - apply limits_event. exact H.
  - rewrite limits_loop. exact H.
  - exact H.
Qed.

(** *** The stream controller *)

Lemma replay_app b hs1 hs2 :
  replay b (hs1 ++ hs2) =
  match replay b hs1 with
  | Some b' => replay b' hs2
  | None => None
  end.
Proof.
  revert b. induction hs1 as [|h hs1 IH]; intros b; [reflexivity|].
  destruct h, b; cbn; auto.
Qed.

Lemma trace_event c ev st :
  exists new,
    effects (onWebSocketEvent c ev st) = effects st ++ new /\
    replay (_isStreaming st) (hooks new) = Some (_isStreaming (onWebSocketEvent c ev st)) /\
    chunks new = [].
Proof.
  destruct (event_cases c ev st)
    as [-> | [(doc & _ & ->) | [(i & vars & var & v & var' & Hv & Hl & Has & ->) |
        [(onStart & _ & Hs & ->) | [(onStop & _ & Hs & ->) | (onStop & _ & Hs & _ & ->)]]]]].
  - exists []. rewrite app_nil_r. auto.
  - exists [SendText c doc]. auto.
  - exists [SendText c (value_document var')]. auto.
  - exists [Invoke OnStreamStart; SendText c (status_document "ok" "Stream started.")].
    rewrite Hs. cbn. rewrite <- app_assoc. auto.
  - exists [Invoke OnStreamStop; SendText c (status_document "ok" "Stream stopped.")].
    rewrite Hs. cbn. rewrite <- app_assoc. auto.
  - exists [Invoke OnStreamStop]. rewrite Hs. cbn. auto.
Qed.

Lemma trace_loop r st :
  exists new,
    effects (loop r st) = effects st ++ new /\
    hooks new = [] /\
    _isStreaming (loop r st) = _isStreaming st.
Proof.
  unfold loop. destruct (isAppStreaming (sketch st));
    [|exists []; rewrite app_nil_r; auto].
  destruct (SAMPLES_PER_CHUNK <=? _); [|exists []; rewrite app_nil_r; auto].
  unfold broadcastBinaryData. destruct (_ && _).
  - eexists [_]. cbn. auto.
  - exists []. rewrite app_nil_r. auto.
Qed.

Lemma trace_step s st :
  exists new,
    effects (step s st) = effects st ++ new /\
    replay (_isStreaming st) (hooks new) = Some (_isStreaming (step s st)).
Proof.
  destruct s as [c|c|c ev|r|ms]; cbn [step].
  - unfold client_connects.
    destruct (trace_event c WS_EVT_CONNECT (with_clients st ({[c]} ∪ ws_clients st)))
      as (new & He & Hr & _). exists new. auto.
  - unfold client_disconnects.
    destruct (trace_event c WS_EVT_DISCONNECT (with_clients st (ws_clients st ∖ {[c]})))
      as (new & He & Hr & _). exists new. auto.
  - destruct (trace_event c ev st) as (new & He & Hr & _). exists new. auto.
  - destruct (trace_loop r st) as (new & He & Hh & Hs). exists new.
    rewrite Hh, Hs. auto.
  - exists []. rewrite app_nil_r. auto.
Qed.

(** X7: along any sequence of events and passes of [loop()] the library
    calls the stream callbacks in strict alternation, the start callback
    only while stopped and the stop callback only while streaming, and
    its streaming flag is the state the last call left: no callback is
    ever called twice in a row. *)
Theorem X7_callbacks_alternate :
  forall (steps : list Step) (st : Device),
    exists new : list Effect,
      effects (run steps st) = effects st ++ new /\
      replay (_isStreaming st) (hooks new) = Some (_isStreaming (run steps st)).
Proof.
  induction steps as [|s steps IH]; intros st.
  - exists []. rewrite app_nil_r. auto.
  - rewrite run_cons. destruct (trace_step s st) as (new1 & He1 & Hr1).
    destruct (IH (step s st)) as (new2 & He2 & Hr2).
    exists (new1 ++ new2). rewrite He2, He1, <- app_assoc. split; [reflexivity|].
    rewrite hooks_app, replay_app, Hr1. exact Hr2.
Qed.

Lemma stream_kept_step s st :
  (_onStreamStopCallback st = None -> _isStreaming st = true ->
   _isStreaming (step s st) = true) /\
  (_onStreamStartCallback st = None -> _isStreaming st = false ->
   _isStreaming (step s st) = false).
Proof.
  assert (Hev : forall c ev s0,
            (_onStreamStopCallback s0 = None -> _isStreaming s0 = true ->
             _isStreaming (onWebSocketEvent c ev s0) = true) /\
            (_onStreamStartCallback s0 = None -> _isStreaming s0 = false ->
             _isStreaming (onWebSocketEvent c ev s0) = false)).
  { intros c ev s0.
    destruct (event_cases c ev s0)
      as [-> | [(doc & _ & ->) | [(i & vars & var & v & var' & Hv & Hl & Has & ->) |
          [(onStart & Hcb & Hs & ->) | [(onStop & Hcb & Hs & ->) |
           (onStop & Hcb & Hs & _ & ->)]]]]];
      split; intros Hnone Hflag; cbn; auto; congruence. }
  destruct s as [c|c|c ev|r|ms]; cbn [step].
  - apply (Hev c WS_EVT_CONNECT (with_clients st ({[c]} ∪ ws_clients st))).
  - apply (Hev c WS_EVT_DISCONNECT (with_clients st (ws_clients st ∖ {[c]}))).
  - apply Hev.
  - destruct (trace_loop r st) as (_ & _ & _ & ->). auto.
  - auto.
Qed.

(** X8: with no stop callback registered, a stream that runs can never
    be stopped, neither by "stop_stream" nor by the last client leaving;
    with no start callback registered, a stopped library never starts
    streaming. *)
Theorem X8_stream_without_callback :
  forall (steps : list Step) (st : Device),
    (_onStreamStopCallback st = None -> _isStreaming st = true ->
     _isStreaming (run steps st) = true) /\
    (_onStreamStartCallback st = None -> _isStreaming st = false ->
     _isStreaming (run steps st) = false).
Proof.
  induction steps as [|s steps IH]; intros st; [auto|].
  rewrite run_cons.
  pose proof (configuration_step s st) as Hc. unfold configuration in Hc.
  injection Hc as _ _ Hstart Hstop.
  destruct (stream_kept_step s st) as [H1 H2].
  destruct (IH (step s st)) as [IH1 IH2].
  split; intros Hnone Hflag.
  - apply IH1; [congruence|auto].
  - apply IH2; [congruence|auto].
Qed.

(** *** Validation looks at the declaration only *)

Lemma assign_outcome_declaration var1 var2 v :
  declaration var1 = declaration var2 -> fst (assign var1 v) = fst (assign var2 v).
Proof.
  unfold declaration, assign. intros [= Hn Ht Hmin Hmax Hlim].
  rewrite Ht, Hmin, Hmax, Hlim.
  destruct (type var2);
    repeat match goal with
           | |- context [if ?b then _ else _] => destruct b
           end; reflexivity.
Qed.

Lemma set_outcome_configuration i v st1 st2 :
  configuration st1 = configuration st2 ->
  fst (setVariableValueInternal i v st1) = fst (setVariableValueInternal i v st2).
Proof.
  unfold configuration. intros [= Hv Hn _ _]. unfold setVariableValueInternal.
  rewrite Hn.
  destruct (_variables st1) as [vars1|], (_variables st2) as [vars2|];
    try discriminate; [|reflexivity].
  cbn in Hv. injection Hv as Hd.
  destruct ((i <? 0) || (_numVariables st2 <=? i)); [reflexivity|].
  assert (Hl : (declaration <$> vars1) !! Z.to_nat i = (declaration <$> vars2) !! Z.to_nat i)
    by (rewrite Hd; reflexivity).
  rewrite !list_lookup_fmap in Hl.
  destruct (vars1 !! Z.to_nat i) as [var1|], (vars2 !! Z.to_nat i) as [var2|];
    try discriminate; [|reflexivity].
  cbn in Hl. assert (Hdecl : declaration var1 = declaration var2) by congruence.
  pose proof (assign_outcome_declaration var1 var2 v Hdecl) as Ho.
  destruct (assign var1 v) as [r1 w1], (assign var2 v) as [r2 w2]. cbn [fst] in Ho.
  subst r2. destruct (succeeded r1); reflexivity.
Qed.

(** X9: whether a candidate is accepted for a variable, and with which
    outcome it is refused, does not depend on when it is sent: after any
    events and passes of [loop()] the outcome of a set is the one it has
    now.  Validation reads the declaration of the variable, never a
    stored value or the streaming state. *)
Theorem X9_validation_is_stable :
  forall (steps : list Step) (st : Device) (i : Z) (v : JsonVariant),
    fst (setVariableValueInternal i v (run steps st)) =
    fst (setVariableValueInternal i v st).
Proof.
  intros steps st i v. apply set_outcome_configuration, configuration_run.
Qed.

(** *** Variables of type float *)

(** A [float] holds every integer below 2^24 in magnitude. *)
Lemma double_of_float_of_Z_short z :
  Z.abs z < 2 ^ 24 -> IEEE.double_of_float (IEEE.float_of_Z z) = IEEE.double_of_Z z.
Proof.
  intros Hz. destruct (Z.eq_dec z 0) as [->|Hne]; [reflexivity|].
  assert (Hd : Zdigits2 z <= 24) by (apply Zdigits2_le; auto; lia).
  pose proof (Zdigits2_pos z Hne) as Hpos.
  destruct (float_of_Z_short z Hne Hd) as (mz & -> & Hmz). cbn [IEEE.double_of_float].
  unfold IEEE.double_of_Z. rewrite normalize_round by exact Hne.
  destruct (24 - Zdigits2 z) as [|j|j] eqn:Hj; try lia.
  - replace (Zdigits2 z - 24) with 0 by lia. f_equal. lia.
  - replace (Zdigits2 z - 24) with (0 - Zpos j) by lia.
    replace mz with (Pos.iter xO (Z.to_pos (Z.abs z)) j).
    + apply binary_round_scale.
    + apply Pos2Z.inj. rewrite iter_xO, Hmz, Z2Pos.id by lia. reflexivity.
Qed.

(** X10: a variable of type float takes every JSON number and nothing
    else.  A number is stored as its [float], unless that [float] is
    outside the limits.  An integer below 2^24 in magnitude is kept
    exactly: the value the library then reports for the variable is that
    integer.  A candidate that is not a number is refused as a type
    mismatch and nothing changes. *)
Theorem X10_float_variable :
  forall (st : Device) (vars : list VariableConfig) (i : Z) (var : VariableConfig),
    _variables st = Some vars ->
    0 <= i < _numVariables st ->
    vars !! Z.to_nat i = Some var ->
    type var = TYPE_FLOAT ->
    let stored := fun f : spec_float =>
      with_variables st (Some (<[Z.to_nat i := set_floatValue var f]> vars))
        (_numVariables st) in
    (forall v : JsonVariant,
        Json.is_float v = true ->
        setVariableValueInternal i v st =
          if out_of_limits var (IEEE.double_of_float (Json.as_float v))
          then (OutOfRange, st)
          else (SetOk, stored (Json.as_float v))) /\
    (forall z : Z,
        Z.abs z < 2 ^ 24 ->
        setVariableValueInternal i (JInteger z) st =
          (if out_of_limits var (IEEE.double_of_Z z) then (OutOfRange, st)
           else (SetOk, stored (IEEE.float_of_Z z))) /\
        json_of_value (set_floatValue var (IEEE.float_of_Z z)) =
          JFloat (IEEE.double_of_Z z)) /\
    (forall v : JsonVariant,
        Json.is_float v = false ->
        setVariableValueInternal i v st = (TypeMismatch, st)).
Proof.
  intros st vars i var Hv Hi Hl Ht stored.
  assert (Hnum : forall v, Json.is_float v = true ->
            setVariableValueInternal i v st =
              if out_of_limits var (IEEE.double_of_float (Json.as_float v))
              then (OutOfRange, st)
              else (SetOk, stored (Json.as_float v))).
  { intros v Hnum. rewrite (set_at i _ st vars var Hv Hi Hl). unfold assign, out_of_limits.
    rewrite Ht, Hnum. cbn [negb andb].
    destruct (hasLimits var && _); reflexivity. }
  repeat apply conj.
  - exact Hnum.
  - intros z Hz. split.
    + rewrite (Hnum (JInteger z) eq_refl). cbn [Json.as_float].
      rewrite (double_of_float_of_Z_short z Hz). reflexivity.
    + unfold json_of_value. cbn. rewrite Ht, (double_of_float_of_Z_short z Hz). reflexivity.
  - intros v Hnum'. rewrite (set_at i _ st vars var Hv Hi Hl). unfold assign. rewrite Ht.
    assert (Hint : Json.is_int v = false) by (destruct v; auto; discriminate).
    rewrite Hnum', Hint. reflexivity.
Qed.

(** *** Variables of type string, and integers that do not fit *)

(** X11: a variable of type string takes every JSON string as it is,
    whatever limits it is declared with, and nothing but a string: a
    number, a boolean, an array or an object is refused as a type
    mismatch and nothing changes. *)
Theorem X11_string_variable :
  forall (st : Device) (vars : list VariableConfig) (i : Z) (var : VariableConfig),
    _variables st = Some vars ->
    0 <= i < _numVariables st ->
    vars !! Z.to_nat i = Some var ->
    type var = TYPE_STRING ->
    (forall s : string,
        setVariableValueInternal i (JString s) st =
          (SetOk,
           with_variables st (Some (<[Z.to_nat i := set_stringValue var s]> vars))
             (_numVariables st)) /\
        json_of_value (set_stringValue var s) = JString s) /\
    (forall v : JsonVariant,
        Json.is_string v = false ->
        setVariableValueInternal i v st = (TypeMismatch, st)).
Proof.
  intros st vars i var Hv Hi Hl Ht. split.
  - intros s. split.
    + rewrite (set_at i _ st vars var Hv Hi Hl). unfold assign. rewrite Ht. reflexivity.
    + unfold json_of_value. cbn. rewrite Ht. reflexivity.
  - intros v Hs. rewrite (set_at i _ st vars var Hv Hi Hl). unfold assign.
    rewrite Ht, Hs. reflexivity.
Qed.

(** X12: an integer candidate that does not fit [int] is never stored in
    an integer variable.  Whatever the conversion of its [float] to [int]
    yields, the set is refused, or it succeeds and stores 0, the value
    [as<int>()] has for such a number. *)
Theorem X12_integer_beyond_int :
  forall (st : Device) (vars : list VariableConfig) (i : Z) (var : VariableConfig) (z : Z),
    _variables st = Some vars ->
    0 <= i < _numVariables st ->
    vars !! Z.to_nat i = Some var ->
    type var = TYPE_INT ->
    z < INT_MIN \/ INT_MAX < z ->
    setVariableValueInternal i (JInteger z) st = (TypeMismatch, st) \/
    setVariableValueInternal i (JInteger z) st = (OutOfRange, st) \/
    setVariableValueInternal i (JInteger z) st =
      (SetOk,
       with_variables st (Some (<[Z.to_nat i := set_intValue var 0]> vars))
         (_numVariables st)).
Proof.
  intros st vars i var z Hv Hi Hl Ht Hz.
  assert (Hr : in_int_range z = false).
  { unfold in_int_range. apply andb_false_iff. rewrite !Z.leb_gt. lia. }
  rewrite (set_at i _ st vars var Hv Hi Hl). unfold assign. rewrite Ht.
  cbn [Json.is_int Json.is_float Json.as_int]. rewrite Hr.
  destruct (negb false && negb _); [left; reflexivity|].
  destruct (hasLimits var && _); [right; left; reflexivity|].
  right; right. reflexivity.
Qed.

(** *** Limits given as integers *)

(** The [double]s of two integers of at most 53 bits compare as the
    integers do. *)
Lemma double_of_Z_compare a b :
  Zdigits2 a <= 53 -> Zdigits2 b <= 53 ->
  SFcompare (IEEE.double_of_Z a) (IEEE.double_of_Z b) = Some (a ?= b).
Proof.
  intros Ha Hb.
  destruct (Z.eq_dec a 0) as [->|Hna]; destruct (Z.eq_dec b 0) as [->|Hnb].
  - reflexivity.
  - destruct (double_of_Z_short b Hnb Hb) as (mb & -> & _).
    change (IEEE.double_of_Z 0) with (S754_zero false). cbn [SFcompare].
    destruct (b <? 0) eqn:Hs; f_equal; symmetry.
    + apply Z.compare_gt_iff. lia.
    + apply Z.compare_lt_iff. lia.
  - destruct (double_of_Z_short a Hna Ha) as (ma & -> & _).
    change (IEEE.double_of_Z 0) with (S754_zero false). cbn [SFcompare].
    destruct (a <? 0) eqn:Hs; f_equal; symmetry.
    + apply Z.compare_lt_iff. lia.
    + apply Z.compare_gt_iff. lia.
  - destruct (double_of_Z_short a Hna Ha) as (ma & -> & Hma).
    destruct (double_of_Z_short b Hnb Hb) as (mb & -> & Hmb).
    pose proof (Zdigits2_bounds a Hna) as [Halo Hahi].
    pose proof (Zdigits2_bounds b Hnb) as [Hblo Hbhi].
    pose proof (Zdigits2_pos a Hna) as Hda. pose proof (Zdigits2_pos b Hnb) as Hdb.
    assert (Hlt : forall x y dx dy, 0 < dx -> dx < dy ->
              Z.abs x < 2 ^ dx -> 2 ^ (dy - 1) <= Z.abs y -> Z.abs x < Z.abs y).
    { intros x y dx dy H0 Hd Hx Hy.
      assert (2 ^ dx <= 2 ^ (dy - 1)) by (apply Z.pow_le_mono_r; lia). lia. }
    assert (Hk : forall d, 0 < d <= 53 -> 0 < 2 ^ (53 - d)) by (intros; apply Z.pow_pos_nonneg; lia).
    cbn [SFcompare].
    destruct (a <? 0) eqn:Hsa, (b <? 0) eqn:Hsb; f_equal; symmetry.
    + (* both negative *)
      destruct (Z.compare_spec (Zdigits2 a - 53) (Zdigits2 b - 53)) as [He|He|He].
      * change (Pos.compare_cont Eq ma mb) with (Pos.compare ma mb).
        assert (Hd : Zdigits2 a = Zdigits2 b) by lia. rewrite Hd in Hma.
        pose proof (Hk (Zdigits2 b) ltac:(lia)) as Hkb.
        destruct (Pos.compare_spec ma mb) as [Hm|Hm|Hm]; cbn [CompOpp].
        -- apply Z.compare_eq_iff. assert (Zpos ma = Zpos mb) by congruence. nia.
        -- apply Z.compare_gt_iff. assert (Zpos ma < Zpos mb) by lia. nia.
        -- apply Z.compare_lt_iff. assert (Zpos mb < Zpos ma) by lia. nia.
      * apply Z.compare_gt_iff.
        pose proof (Hlt a b (Zdigits2 a) (Zdigits2 b) Hda ltac:(lia) Hahi Hblo). lia.
      * apply Z.compare_lt_iff.
        pose proof (Hlt b a (Zdigits2 b) (Zdigits2 a) Hdb ltac:(lia) Hbhi Halo). lia.
    + apply Z.compare_lt_iff. lia.
    + apply Z.compare_gt_iff. lia.
    + (* both positive *)
      destruct (Z.compare_spec (Zdigits2 a - 53) (Zdigits2 b - 53)) as [He|He|He].
      * change (Pos.compare_cont Eq ma mb) with (Pos.compare ma mb).
        assert (Hd : Zdigits2 a = Zdigits2 b) by lia. rewrite Hd in Hma.
        pose proof (Hk (Zdigits2 b) ltac:(lia)) as Hkb.
        destruct (Pos.compare_spec ma mb) as [Hm|Hm|Hm].
        -- apply Z.compare_eq_iff. assert (Zpos ma = Zpos mb) by congruence. nia.
        -- apply Z.compare_lt_iff. assert (Zpos ma < Zpos mb) by lia. nia.
        -- apply Z.compare_gt_iff. assert (Zpos mb < Zpos ma) by lia. nia.
      * apply Z.compare_lt_iff.
        pose proof (Hlt a b (Zdigits2 a) (Zdigits2 b) Hda ltac:(lia) Hahi Hblo). lia.
      * apply Z.compare_gt_iff.
        pose proof (Hlt b a (Zdigits2 b) (Zdigits2 a) Hdb ltac:(lia) Hbhi Halo). lia.
Qed.

Lemma double_of_Z_lt a b :
  Z.abs a < 2 ^ 53 -> Z.abs b < 2 ^ 53 ->
  IEEE.lt (IEEE.double_of_Z a) (IEEE.double_of_Z b) = (a <? b).
Proof.
  intros Ha Hb. unfold IEEE.lt, SFltb.
  rewrite double_of_Z_compare.
  - unfold Z.ltb. destruct (a ?= b); reflexivity.
  - destruct (Z.eq_dec a 0) as [->|Hn]; [cbn; lia|apply Zdigits2_le; auto; lia].
  - destruct (Z.eq_dec b 0) as [->|Hn]; [cbn; lia|apply Zdigits2_le; auto; lia].
Qed.

(** X27: limits are inclusive.  For an integer variable whose limits are
    the integers lo and hi, an integer candidate that fits [int] is
    stored exactly when lo <= candidate <= hi, the two ends included, and
    is refused as out of range otherwise. *)
Theorem X27_integer_limits_are_inclusive :
  forall (st : Device) (vars : list VariableConfig) (i : Z) (var : VariableConfig)
         (lo hi z : Z),
    _variables st = Some vars ->
    0 <= i < _numVariables st ->
    vars !! Z.to_nat i = Some var ->
    type var = TYPE_INT ->
    hasLimits var = true ->
    minVal var = IEEE.double_of_Z lo ->
    maxVal var = IEEE.double_of_Z hi ->
    Z.abs lo < 2 ^ 53 ->
    Z.abs hi < 2 ^ 53 ->
    INT_MIN <= z <= INT_MAX ->
    setVariableValueInternal i (JInteger z) st =
      if (lo <=? z) && (z <=? hi)
      then (SetOk,
            with_variables st (Some (<[Z.to_nat i := set_intValue var z]> vars))
              (_numVariables st))
      else (OutOfRange, st).
Proof.
  intros st vars i var lo hi z Hv Hi Hl Ht Hlim Hmin Hmax Hlo Hhi Hz.
  assert (Hr : in_int_range z = true).
  { unfold in_int_range. apply andb_true_intro. rewrite !Z.leb_le. exact Hz. }
  assert (Hzb : Z.abs z < 2 ^ 53) by (unfold INT_MIN, INT_MAX in Hz; lia).
  rewrite (set_at i _ st vars var Hv Hi Hl), (assign_int_integer var z Ht Hr).
  unfold out_of_limits, IEEE.gt. fold (IEEE.lt (maxVal var) (IEEE.double_of_Z z)).
  rewrite Hlim, Hmin, Hmax, !double_of_Z_lt by assumption. cbn [andb].
  destruct (z <? lo) eqn:H1, (hi <? z) eqn:H2, (lo <=? z) eqn:H3, (z <=? hi) eqn:H4;
    try reflexivity; lia.
Qed.

(** *** One variable at a time *)

Lemma get_reply c len doc nm st :
  action_of doc = Some "get" -> variable_of doc = Some nm ->
  client_sends c len (Some doc) st =
    if findVariableIndexInternal nm st =? -1
    then sendStatusInternal c "error" "Variable name not found." st
    else sendVariableValueInternal c (findVariableIndexInternal nm st) st.
Proof. intros Ha Hn. route Ha. unfold variable_of in Hn. rewrite Hn. reflexivity. Qed.

Lemma send_value_at c i st vars var :
  _variables st = Some vars -> 0 <= i < _numVariables st ->
  vars !! Z.to_nat i = Some var ->
  sendVariableValueInternal c i st = emit (SendText c (value_document var)) st.
Proof.
  intros Hv Hi Hl. unfold sendVariableValueInternal. rewrite Hv.
  assert (Hr : (i <? 0) || (_numVariables st <=? i) = false) by lia.
  rewrite Hr, Hl. reflexivity.
Qed.

(** X13: a "set" request, accepted or not, does not touch what a "get"
    of a variable of another name answers: the answer after the set is
    the answer the same "get" has before it. *)
Theorem X13_set_leaves_other_variables :
  forall (st : Device) (c c' : N) (len len' : Z) (setDoc getDoc : JsonVariant)
         (nm nm' : string),
    action_of setDoc = Some "set" ->
    variable_of setDoc = Some nm ->
    action_of getDoc = Some "get" ->
    variable_of getDoc = Some nm' ->
    nm' <> nm ->
    let st1 := client_sends c len (Some setDoc) st in
    exists reply : JsonVariant,
      client_sends c' len' (Some getDoc) st = emit (SendText c' reply) st /\
      client_sends c' len' (Some getDoc) st1 = emit (SendText c' reply) st1.
Proof.
  intros st c c' len len' setDoc getDoc nm nm' Hsa Hsn Hga Hgn Hne. cbv zeta.
  rewrite !(get_reply c' len' getDoc nm' _ Hga Hgn).
  destruct (text_cases c len (Some setDoc) st)
    as [(doc & _ & ->) |
        [(doc & nm0 & vars & var & var' & Hp & _ & Hn0 & Hv & Hi & Hl & Hname & Has & ->) |
         [(doc & onStart & Hp & Ha & _) | (doc & onStop & Hp & Ha & _)]]].
  - rewrite find_emit.
    destruct (findVariableIndexInternal nm' st =? -1) eqn:Hf.
    + eexists. split; reflexivity.
    + apply Z.eqb_neq in Hf.
      destruct (find_valid nm' st Hf) as (vars & var & Hv & Hi & Hl & _).
      exists (value_document var).
      rewrite (send_value_at c' _ st vars var Hv Hi Hl).
      rewrite (send_value_at c' _ (emit (SendText c doc) st) vars var Hv Hi Hl).
      split; reflexivity.
  - injection Hp as <-. assert (nm0 = nm) as -> by congruence.
    destruct (assign_ok _ _ _ Has) as (Hname' & _ & _).
    rewrite find_emit, (find_names_preserved nm' st vars var var' _ Hv Hl Hname').
    destruct (findVariableIndexInternal nm' st =? -1) eqn:Hf.
    + eexists. split; reflexivity.
    + apply Z.eqb_neq in Hf.
      destruct (find_valid nm' st Hf) as (vars0 & other & Hv0 & Hj & Hl0 & Hother).
      assert (vars0 = vars) as -> by congruence.
      exists (value_document other).
      rewrite (send_value_at c' _ st vars other Hv Hj Hl0). split; [reflexivity|].
      apply (send_value_at c' _ _ (<[Z.to_nat (findVariableIndexInternal nm st) := var']> vars));
        [reflexivity|exact Hj|].
      rewrite list_lookup_insert_ne; [exact Hl0|].
      intros Heq. rewrite Heq in Hl. congruence.
  - injection Hp as <-. congruence.
  - injection Hp as <-. congruence.
Qed.

(** X14: [broadcastVariableUpdate] hands to all clients the document a
    "get" of the same name answers to one: when a client is connected it
    sends that document if the name is in the registry, and nothing if it
    is not; with no client connected, or for a null name, it sends
    nothing. *)
Theorem X14_broadcast_agrees_with_get :
  forall (st : Device) (c : N) (len : Z) (getDoc : JsonVariant) (nm : string),
    action_of getDoc = Some "get" ->
    variable_of getDoc = Some nm ->
    (ws_clients st = ∅ -> broadcastVariableUpdate (Some nm) st = None) /\
    (ws_clients st <> ∅ ->
     match broadcastVariableUpdate (Some nm) st with
     | Some doc => client_sends c len (Some getDoc) st = emit (SendText c doc) st
     | None =>
         client_sends c len (Some getDoc) st =
           sendStatusInternal c "error" "Variable name not found." st
     end) /\
    broadcastVariableUpdate None st = None.
Proof.
  intros st c len getDoc nm Ha Hn. unfold broadcastVariableUpdate. repeat apply conj.
  - intros He. apply ws_count_zero in He. rewrite He. reflexivity.
  - intros Hne. rewrite (get_reply c len getDoc nm st Ha Hn).
    destruct (ws_count st =? 0) eqn:Hz; [apply ws_count_zero in Hz; contradiction|].
    destruct (Z.eq_dec (findVariableIndexInternal nm st) (-1)) as [Hf|Hf].
    + rewrite Hf. cbn. destruct (_variables st); [|reflexivity].
      destruct (_numVariables st <=? 0); reflexivity.
    + destruct (find_valid nm st Hf) as (vars & var & Hv & Hi & Hl & _).
      rewrite Hv. destruct (_numVariables st <=? 0) eqn:Hnum; [lia|]. cbv zeta.
      destruct (findVariableIndexInternal nm st <? 0) eqn:Hneg; [lia|].
      rewrite Hl. cbn. destruct (findVariableIndexInternal nm st =? -1) eqn:Hm; [lia|].
      apply (send_value_at c _ st vars var Hv Hi Hl).
  - destruct (ws_count st =? 0); [reflexivity|].
    destruct (_variables st); [|reflexivity].
    destruct (_numVariables st <=? 0); reflexivity.
Qed.


(** *** The sample buffer, in the devices the sketch can be in *)

(** X16: in every device the sketch can be in, the index [loop()] writes
    the next record at lies inside the 25 slots of the buffer, and the
    buffer keeps its length: no pass of [loop()] writes outside the
    array. *)
Theorem X16_buffer_index_in_bounds :
  forall (st : Device) (r : Readings),
    Reachable st ->
    0 <= currentBufferIndex (sketch st) < SAMPLES_PER_CHUNK /\
    length (sensorDataBuffer (sketch st)) = Z.to_nat SAMPLES_PER_CHUNK /\
    length (sensorDataBuffer (sketch (loop r st))) = Z.to_nat SAMPLES_PER_CHUNK /\
    0 <= currentBufferIndex (sketch (loop r st)) < SAMPLES_PER_CHUNK.
Proof.
  intros st r Hreach.
  pose proof (reachable_invariant st Hreach) as [_ _ _ _ Hidx Hbuf].
  assert (Hreach' : Reachable (loop r st)) by (apply (reach_step (Loop r)); [exact Hreach|exact I]).
  pose proof (reachable_invariant _ Hreach') as [_ _ _ _ Hidx' Hbuf'].
  auto.
Qed.

(** X17: in every device the sketch can be in, the sketch samples exactly
    when the library is in the streaming state, and the library is in the
    streaming state only while a client is connected. *)
Theorem X17_streaming_needs_a_client :
  forall st : Device,
    Reachable st ->
    isAppStreaming (sketch st) = _isStreaming st /\
    (_isStreaming st = true -> ws_clients st <> ∅) /\
    (ws_clients st = ∅ -> isAppStreaming (sketch st) = false).
Proof.
  intros st Hreach.
  pose proof (reachable_invariant st Hreach) as [_ _ Hstr Hcl _ _].
  repeat apply conj; auto.
  intros He. rewrite Hstr. destruct (_isStreaming st); [|reflexivity].
  exfalso. apply Hcl; auto.
Qed.

Lemma u16_ok z : (0 <=? wrap_u16 z) && (wrap_u16 z <? 2 ^ 16) = true.
Proof.
  unfold wrap_u16. pose proof (Z.mod_pos_bound z (2 ^ 16) ltac:(lia)).
  apply andb_true_intro. rewrite Z.leb_le, Z.ltb_lt. lia.
Qed.

Lemma sample_ok r st : packet_ok (sample r st) = true.
Proof.
  unfold packet_ok, sample. cbn [forallb reading1 reading2 reading3 reading4 reading5
                                  reading6 time_ms].
  rewrite !u16_ok. cbn [andb]. unfold wrap_u32.
  pose proof (Z.mod_pos_bound (millis st - streamStartTimeMs (sketch st)) (2 ^ 32) ltac:(lia)).
  apply andb_true_intro. rewrite Z.leb_le, Z.ltb_lt. lia.
Qed.

Lemma buffer_event c ev st :
  _onStreamStartCallback st = Some application_onStreamStart ->
  _onStreamStopCallback st = Some application_onStreamStop ->
  sensorDataBuffer (sketch (onWebSocketEvent c ev st)) = sensorDataBuffer (sketch st).
Proof.
  intros Hstart Hstop.
  destruct (event_cases c ev st)
    as [-> | [(doc & _ & ->) | [(i & vars & var & v & var' & Hv & Hl & Has & ->) |
        [(onStart & Hcb & _ & ->) | [(onStop & Hcb & _ & ->) | (onStop & Hcb & _ & _ & ->)]]]]];
    try reflexivity.
  - assert (onStart = application_onStreamStart) as -> by congruence. reflexivity.
  - assert (onStop = application_onStreamStop) as -> by congruence. reflexivity.
  - assert (onStop = application_onStreamStop) as -> by congruence. reflexivity.
Qed.

Lemma chunks_event c ev st :
  chunks (effects (onWebSocketEvent c ev st)) = chunks (effects st).
Proof.
  destruct (trace_event c ev st) as (new & -> & _ & Hc).
  rewrite chunks_app, Hc, app_nil_r. reflexivity.
Qed.

(** What one pass of [loop()] leaves in the sketch while it streams. *)
Lemma loop_sketch r st :
  isAppStreaming (sketch st) = true ->
  sketch (loop r st) =
    with_buffer (sketch st)
      (<[Z.to_nat (currentBufferIndex (sketch st)) := sample r st]> (sensorDataBuffer (sketch st)))
      (if SAMPLES_PER_CHUNK <=? currentBufferIndex (sketch st) + 1
       then 0 else currentBufferIndex (sketch st) + 1).
Proof.
  intros Hs. unfold loop. rewrite Hs. fold (sample r st).
  destruct (SAMPLES_PER_CHUNK <=? currentBufferIndex (sketch st) + 1); [|reflexivity].
  unfold broadcastBinaryData. destruct (_ && _); reflexivity.
Qed.

(** A chunk is the image of 25 records, each field within its type. *)
Lemma records_step s st :
  Invariant st -> admissible s st ->
  forallb packet_ok (sensorDataBuffer (sketch st)) = true ->
  forallb packet_ok (sensorDataBuffer (sketch (step s st))) = true /\
  exists new,
    chunks (effects (step s st)) = chunks (effects st) ++ new /\
    Forall (fun d => exists buf,
                length buf = Z.to_nat SAMPLES_PER_CHUNK /\
                forallb packet_ok buf = true /\ d = buffer_bytes buf) new.
Proof.
  intros Hinv Hadm Hok. pose proof Hinv as [Hstart Hstop Hstr Hcl Hidx Hbuf].
  destruct s as [c|c|c ev|r|ms]; cbn [step].
  - split; [exact Hok|]. exists []. rewrite app_nil_r. auto.
  - unfold client_disconnects. rewrite buffer_event, chunks_event by auto.
    split; [exact Hok|]. exists []. rewrite app_nil_r. auto.
  - rewrite buffer_event, chunks_event by auto.
    split; [exact Hok|]. exists []. rewrite app_nil_r. auto.
  - destruct (isAppStreaming (sketch st)) eqn:Hs.
    + assert (Hok' : forallb packet_ok
                       (<[Z.to_nat (currentBufferIndex (sketch st)) := sample r st]>
                          (sensorDataBuffer (sketch st))) = true)
        by (apply forallb_insert; [exact Hok|apply sample_ok]).
      split; [rewrite loop_sketch by exact Hs; exact Hok'|].
      destruct (Z.eq_dec (currentBufferIndex (sketch st) + 1) SAMPLES_PER_CHUNK) as [Hfull|Hmore].
      * destruct (loop_flush r st Hs ltac:(lia) Hbuf ltac:(apply Hcl; congruence)) as [-> _].
        eexists [_]. cbn. rewrite chunks_app. split; [reflexivity|].
        constructor; [|constructor]. eexists. split; [|split; [exact Hok'|reflexivity]].
        rewrite length_insert. exact Hbuf.
      * rewrite loop_append by (auto; lia). exists []. rewrite app_nil_r. auto.
    + rewrite loop_idle by exact Hs. split; [exact Hok|].
      exists []. rewrite app_nil_r. auto.
  - split; [exact Hok|]. exists []. rewrite app_nil_r. auto.
Qed.

Lemma reachable_records st :
  Reachable st ->
  forallb packet_ok (sensorDataBuffer (sketch st)) = true /\
  Forall (fun d => exists buf,
              length buf = Z.to_nat SAMPLES_PER_CHUNK /\
              forallb packet_ok buf = true /\ d = buffer_bytes buf)
         (chunks (effects st)).
Proof.
  induction 1 as [|s st Hr [IHok IHch] Hadm].
  - split; [reflexivity|constructor].
  - destruct (records_step s st (reachable_invariant st Hr) Hadm IHok)
      as [Hok (new & -> & Hnew)].
    split; [exact Hok|]. apply Forall_app. auto.
Qed.

(** X18: every binary message a device the sketch can be in has sent is
    the memory image of the whole buffer: 400 bytes, the 25 records of 16
    bytes each, every reading within 16 bits and every timestamp within
    32.  No partial buffer is ever sent. *)
Theorem X18_chunks_are_whole_buffers :
  forall (st : Device) (chunk : list byte),
    Reachable st ->
    chunk ∈ chunks (effects st) ->
    length chunk = 400%nat /\
    exists buf : list SensorDataPacket,
      length buf = 25%nat /\
      forallb packet_ok buf = true /\
      chunk = buffer_bytes buf.
Proof.
  intros st chunk Hreach Hin.
  destruct (reachable_records st Hreach) as [_ Hall].
  rewrite Forall_forall in Hall. destruct (Hall chunk Hin) as (buf & Hlen & Hok & ->).
  split; [|exists buf; auto].
  rewrite length_buffer_bytes, Hlen. reflexivity.
Qed.

(** *** What a chunk holds, and when it is sent *)

Lemma loops_nonneg steps : 0 <= loops steps.
Proof. induction steps as [|[] ? ?]; cbn; lia. Qed.

Lemma samples_none steps st : sampling steps -> loops steps = 0 -> samples_of steps st = [].
Proof.
  unfold sampling. revert st. induction steps as [|s steps IH]; intros st Hall H0; [reflexivity|].
  cbn in Hall. apply andb_prop in Hall as [Hs Hall].
  pose proof (loops_nonneg steps).
  destruct s; try discriminate; cbn [loops samples_of] in *; [lia|]. apply IH; auto.
Qed.

Lemma take_succ_insert {A} (l : list A) i x :
  (i < length l)%nat -> take (S i) (<[i := x]> l) = take i l ++ [x].
Proof.
  intros Hi. rewrite insert_take_drop by exact Hi.
  rewrite take_app_ge by (rewrite length_take; lia).
  rewrite length_take, Nat.min_l by lia.
  replace (S i - i)%nat with 1%nat by lia. reflexivity.
Qed.

(** The buffer after sampling steps that do not go beyond its end: the
    records taken, in the order taken, from the index on. *)
Lemma run_records steps st :
  sampling steps ->
  isAppStreaming (sketch st) = true ->
  0 <= currentBufferIndex (sketch st) ->
  currentBufferIndex (sketch st) + loops steps <= SAMPLES_PER_CHUNK ->
  length (sensorDataBuffer (sketch st)) = Z.to_nat SAMPLES_PER_CHUNK ->
  sensorDataBuffer (sketch (run steps st)) =
    take (Z.to_nat (currentBufferIndex (sketch st))) (sensorDataBuffer (sketch st)) ++
    samples_of steps st ++
    drop (Z.to_nat (currentBufferIndex (sketch st) + loops steps)) (sensorDataBuffer (sketch st)).
Proof.
  unfold sampling. revert st.
  induction steps as [|s steps IH]; intros st Hall Hs H0 Hsum Hlen.
  - cbn. rewrite Z.add_0_r, take_drop. reflexivity.
  - cbn in Hall. apply andb_prop in Hall as [Hs1 Hall].
    pose proof (loops_nonneg steps) as Hnn.
    destruct s; try discriminate; rewrite run_cons; cbn [step loops samples_of] in *.
    + set (k := currentBufferIndex (sketch st)) in *.
      set (buf := sensorDataBuffer (sketch st)) in *.
      assert (Hk : (Z.to_nat k < length buf)%nat) by (unfold SAMPLES_PER_CHUNK in *; lia).
      pose proof (loop_sketch r st Hs) as Hsk. fold k buf in Hsk.
      destruct (Z.eq_dec (k + 1) SAMPLES_PER_CHUNK) as [Hfull|Hmore].
      * assert (Hrest : loops steps = 0) by lia.
        destruct (SAMPLES_PER_CHUNK <=? k + 1) eqn:Hc; [|lia].
        assert (Hstream : isAppStreaming (sketch (loop r st)) = true)
          by (rewrite Hsk; exact Hs).
        destruct (run_appending steps (loop r st) Hall Hstream) as (t & sk & Hrun & _ & _ & _ & Hsame).
        { rewrite Hsk. cbn. lia. }
        { rewrite Hsk. cbn. unfold SAMPLES_PER_CHUNK. lia. }
        rewrite Hrun, (Hsame Hrest), Hsk, (samples_none steps _ Hall Hrest). cbn.
        rewrite Hrest. replace (k + (1 + 0)) with (Z.succ k) by lia.
        rewrite Z2Nat.inj_succ by lia. apply insert_take_drop. exact Hk.
      * destruct (SAMPLES_PER_CHUNK <=? k + 1) eqn:Hc; [lia|].
        rewrite IH; rewrite ?Hsk; cbn; rewrite ?length_insert; auto; try lia.
        replace (Z.to_nat (k + 1)) with (S (Z.to_nat k)) by lia.
        rewrite take_succ_insert by exact Hk.
        rewrite drop_insert_lt by lia.
        replace (k + (1 + loops steps)) with (k + 1 + loops steps) by lia.
        rewrite <- app_assoc. reflexivity.
    + rewrite IH; auto.
Qed.

(** X19: what is streamed is what was sampled.  Starting from an empty
    buffer, sampling steps with exactly 25 passes of [loop()] send one
    chunk, and it is the image of the 25 records those passes took, in
    the order they took them: nothing older is in it. *)
Theorem X19_chunk_holds_the_records_taken :
  forall (st : Device) (steps : list Step),
    Reachable st ->
    isAppStreaming (sketch st) = true ->
    currentBufferIndex (sketch st) = 0 ->
    sampling steps ->
    loops steps = SAMPLES_PER_CHUNK ->
    length (samples_of steps st) = 25%nat /\
    chunks (effects (run steps st)) =
      chunks (effects st) ++ [buffer_bytes (samples_of steps st)].
Proof.
  intros st steps Hreach Hs Hidx Hsamp Hloops.
  pose proof (reachable_invariant st Hreach) as [_ _ Hstr Hcl _ Hbuf].
  pose proof (run_records steps st Hsamp Hs ltac:(lia) ltac:(lia) Hbuf) as Hrec.
  rewrite Hidx, Hloops, Z.add_0_l in Hrec. change (Z.to_nat 0) with 0%nat in Hrec.
  rewrite take_0, app_nil_l in Hrec.
  rewrite drop_ge, app_nil_r in Hrec by lia.
  destruct (run_filling steps st Hsamp Hs) as (t & sk & chunk & Hrun & H400 & Hchunk & _ & _);
    [unfold SAMPLES_PER_CHUNK; lia|lia|exact Hbuf|apply Hcl; congruence|].
  rewrite Hrun in Hrec |- *. cbn in Hrec |- *. rewrite chunks_app. cbn.
  subst chunk. rewrite Hrec in *. split; [|reflexivity].
  rewrite length_buffer_bytes in H400. lia.
Qed.

(** X20: while the sketch streams, one chunk goes out for every 25th
    record and nothing else is sent: after sampling steps with n passes of
    [loop()] from index k, (k + n) / 25 chunks of 400 bytes have been
    sent and the index is (k + n) mod 25. *)
Theorem X20_one_chunk_every_25_records :
  forall (steps : list Step) (st : Device),
    Reachable st ->
    isAppStreaming (sketch st) = true ->
    sampling steps ->
    exists new : list (list byte),
      effects (run steps st) = effects st ++ (BinaryAll <$> new) /\
      Z.of_nat (length new) =
        (currentBufferIndex (sketch st) + loops steps) / SAMPLES_PER_CHUNK /\
      Forall (fun d => length d = 400%nat) new /\
      currentBufferIndex (sketch (run steps st)) =
        (currentBufferIndex (sketch st) + loops steps) mod SAMPLES_PER_CHUNK /\
      isAppStreaming (sketch (run steps st)) = true.
Proof.
  unfold sampling. induction steps as [|s steps IH]; intros st Hreach Hs Hall.
  - pose proof (reachable_invariant st Hreach) as [_ _ _ _ Hidx _].
    exists []. cbn. rewrite app_nil_r, Z.add_0_r.
    unfold SAMPLES_PER_CHUNK in *. rewrite Z.div_small, Z.mod_small by lia. auto.
  - cbn in Hall. apply andb_prop in Hall as [Hs1 Hall].
    pose proof (reachable_invariant st Hreach) as [_ _ Hstr Hcl Hidx Hbuf].
    pose proof (loops_nonneg steps) as Hnn.
    destruct s; try discriminate; rewrite run_cons; cbn [step loops] in *.
    + assert (Hreach' : Reachable (loop r st))
        by (apply (reach_step (Loop r)); [exact Hreach|exact I]).
      destruct (Z.eq_dec (currentBufferIndex (sketch st) + 1) SAMPLES_PER_CHUNK) as [Hfull|Hmore].
      * destruct (loop_flush r st Hs ltac:(lia) Hbuf ltac:(apply Hcl; congruence)) as [Hloop H400].
        rewrite Hloop in Hreach' |- *.
        destruct (IH _ Hreach' Hs Hall) as (new & He & Hn & Hall400 & Hi & Hst).
        eexists (_ :: new). rewrite He. cbn in *. rewrite <- app_assoc. cbn.
        repeat apply conj; auto.
        -- unfold SAMPLES_PER_CHUNK in *.
           replace (currentBufferIndex (sketch st) + (1 + loops steps))
             with (loops steps + 1 * 25) by lia.
           rewrite Z.div_add by lia. rewrite Z.add_0_l in Hn.
           rewrite Nat2Z.inj_succ, Hn. lia.
        -- rewrite Hi. unfold SAMPLES_PER_CHUNK in *.
           replace (currentBufferIndex (sketch st) + (1 + loops steps))
             with (loops steps + 1 * 25) by lia.
           rewrite Z.mod_add by lia. reflexivity.
      * rewrite loop_append in Hreach' |- * by (auto; lia).
        destruct (IH _ Hreach' Hs Hall) as (new & He & Hn & Hall400 & Hi & Hst).
        exists new. rewrite He. cbn in *.
        replace (currentBufferIndex (sketch st) + (1 + loops steps))
          with (currentBufferIndex (sketch st) + 1 + loops steps) by lia.
        auto.
    + assert (Hreach' : Reachable (with_millis st (wrap_u32 (millis st + ms))))
        by (apply (reach_step (Tick ms)); [exact Hreach|exact I]).
      destruct (IH _ Hreach' Hs Hall) as (new & He & Hn & Hall400 & Hi & Hst).
      exists new. auto.
Qed.

(** *** The clock *)

Lemma millis_event c ev st : millis (onWebSocketEvent c ev st) = millis st.
Proof.
  destruct (event_cases c ev st)
    as [-> | [(doc & _ & ->) | [(i & vars & var & v & var' & Hv & Hl & Has & ->) |
        [(onStart & _ & _ & ->) | [(onStop & _ & _ & ->) | (onStop & _ & _ & _ & ->)]]]]];
    reflexivity.
Qed.

Lemma millis_loop r st : millis (loop r st) = millis st.
Proof.
  unfold loop. destruct (isAppStreaming (sketch st)); [|reflexivity].
  destruct (SAMPLES_PER_CHUNK <=? _); [|reflexivity].
  unfold broadcastBinaryData. destruct (_ && _); reflexivity.
Qed.

Lemma reachable_millis st : Reachable st -> 0 <= millis st < 2 ^ 32.
Proof.
  induction 1 as [|s st Hr IH Hadm]; [cbn; lia|].
  destruct s as [c|c|c ev|r|ms]; cbn [step].
  - unfold client_connects. rewrite millis_event. exact IH.
  - unfold client_disconnects. rewrite millis_event. exact IH.
  - rewrite millis_event. exact IH.
  - rewrite millis_loop. exact IH.
  - cbn. unfold wrap_u32. apply Z.mod_pos_bound. lia.
Qed.

(** Sampling steps move the clock by the time that passes, and leave the
    reference time of the stream alone. *)
Lemma sampling_clock steps st :
  sampling steps ->
  0 <= millis st < 2 ^ 32 ->
  millis (run steps st) = wrap_u32 (millis st + elapsed steps) /\
  streamStartTimeMs (sketch (run steps st)) = streamStartTimeMs (sketch st) /\
  isAppStreaming (sketch (run steps st)) = isAppStreaming (sketch st).
Proof.
  unfold sampling. revert st. induction steps as [|s steps IH]; intros st Hall Hm.
  - cbn. rewrite Z.add_0_r. unfold wrap_u32. rewrite Z.mod_small by lia. auto.
  - cbn in Hall. apply andb_prop in Hall as [Hs1 Hall].
    destruct s; try discriminate; rewrite run_cons; cbn [step elapsed].
    + destruct (IH (loop r st) Hall) as (H1 & H2 & H3); [rewrite millis_loop; exact Hm|].
      rewrite H1, H2, H3, millis_loop.
      destruct (isAppStreaming (sketch st)) eqn:Hs.
      * rewrite loop_sketch by exact Hs. cbn. auto.
      * rewrite loop_idle by exact Hs. auto.
    + destruct (IH (with_millis st (wrap_u32 (millis st + ms))) Hall) as (H1 & H2 & H3).
      { cbn. unfold wrap_u32. apply Z.mod_pos_bound. lia. }
      rewrite H1, H2, H3. cbn. repeat apply conj; auto.
      unfold wrap_u32. rewrite Zplus_mod_idemp_l. f_equal. lia.
Qed.

(** X21: the timestamp of a record is the time since the stream was
    started.  After a "start_stream" that starts the stream and sampling
    steps during which less than 2^32 milliseconds pass, the record the
    next pass of [loop()] writes carries the pins' readings cut to 16 bits
    and exactly the milliseconds passed since the start, also when
    [millis()] has wrapped around in between. *)
Theorem X21_timestamps_count_from_the_start :
  forall (st : Device) (c : N) (len : Z) (doc : JsonVariant) (steps : list Step)
         (r : Readings),
    Reachable st ->
    c ∈ ws_clients st ->
    _isStreaming st = false ->
    action_of doc = Some "start_stream" ->
    sampling steps ->
    0 <= elapsed steps < 2 ^ 32 ->
    let st1 := run steps (client_sends c len (Some doc) st) in
    sensorDataBuffer (sketch (loop r st1)) !! Z.to_nat (currentBufferIndex (sketch st1)) =
      Some {| reading1 := wrap_u16 (pin1 r); reading2 := wrap_u16 (pin2 r);
              reading3 := wrap_u16 (pin3 r); reading4 := wrap_u16 (pin4 r);
              reading5 := wrap_u16 (pin5 r); reading6 := wrap_u16 (pin6 r);
              time_ms := elapsed steps |}.
Proof.
  intros st c len doc steps r Hreach Hc Hs Hact Hsamp He. cbv zeta.
  pose proof (reachable_invariant st Hreach) as [Hstart _ _ _ _ _].
  pose proof (reachable_millis st Hreach) as Hm.
  assert (Hst0 : client_sends c len (Some doc) st =
                 sendStatusInternal c "ok" "Stream started."
                   (with_isStreaming (call OnStreamStart application_onStreamStart st) true)).
  { route Hact. rewrite Hstart, Hs. reflexivity. }
  assert (Hreach0 : Reachable (client_sends c len (Some doc) st)).
  { apply (reach_step (Event c (WS_EVT_DATA (text_frame len) len (Some doc)))); auto. }
  set (st0 := client_sends c len (Some doc) st) in *.
  assert (Hm0 : millis st0 = millis st) by (rewrite Hst0; reflexivity).
  assert (Hstart0 : streamStartTimeMs (sketch st0) = millis st) by (rewrite Hst0; reflexivity).
  assert (Hs0 : isAppStreaming (sketch st0) = true) by (rewrite Hst0; reflexivity).
  destruct (sampling_clock steps st0 Hsamp ltac:(lia)) as (Hm1 & Hstart1 & Hs1).
  pose proof (reachable_invariant _ (reachable_run steps st0 Hreach0 Hsamp))
    as [_ _ _ _ Hidx1 Hbuf1].
  set (st1 := run steps st0) in *.
  rewrite loop_sketch by congruence. cbn [sensorDataBuffer with_buffer].
  rewrite list_lookup_insert_eq by (unfold SAMPLES_PER_CHUNK in *; lia).
  unfold sample. rewrite Hm1, Hstart1, Hm0, Hstart0. do 2 f_equal.
  unfold wrap_u32. rewrite Zminus_mod_idemp_l.
  replace (millis st + elapsed steps - millis st) with (elapsed steps) by lia.
  apply Z.mod_small. exact He.
Qed.

(** ** The browser client against the device *)

(** *** The wire format of a record *)

Lemma byte_value z : Z.of_N (Byte.to_N (byte_of_Z z)) = z mod 256.
Proof.
  unfold byte_of_Z. pose proof (Z.mod_pos_bound z 256 ltac:(lia)).
  destruct (Byte.of_N (Z.to_N (z mod 256))) as [b|] eqn:Hb.
  - apply Byte.to_of_N in Hb. cbn. rewrite Hb. lia.
  - apply Byte.of_N_None_iff in Hb. lia.
Qed.

Lemma le16_value z :
  0 <= z < 2 ^ 16 ->
  Z.of_N (Byte.to_N (byte_of_Z z)) +
  2 ^ 8 * Z.of_N (Byte.to_N (byte_of_Z (Z.shiftr z 8))) = z.
Proof.
  intros Hz. rewrite !byte_value, Z.shiftr_div_pow2 by lia.
  change (2 ^ 8) with 256 in *. change (2 ^ 16) with 65536 in *.
  Z.div_mod_to_equations. lia.
Qed.

Lemma le32_value z :
  0 <= z < 2 ^ 32 ->
  Z.of_N (Byte.to_N (byte_of_Z z)) +
  2 ^ 8 * Z.of_N (Byte.to_N (byte_of_Z (Z.shiftr z 8))) +
  2 ^ 16 * Z.of_N (Byte.to_N (byte_of_Z (Z.shiftr z 16))) +
  2 ^ 24 * Z.of_N (Byte.to_N (byte_of_Z (Z.shiftr z 24))) = z.
Proof.
  intros Hz. rewrite !byte_value, !Z.shiftr_div_pow2 by lia.
  change (2 ^ 8) with 256 in *. change (2 ^ 16) with 65536 in *.
  change (2 ^ 24) with 16777216 in *. change (2 ^ 32) with 4294967296 in *.
  Z.div_mod_to_equations. lia.
Qed.

Lemma byte_at_app pre l k :
  0 <= k -> Client.byte_at (pre ++ l) (Z.of_nat (length pre) + k) = Client.byte_at l k.
Proof.
  intros Hk. unfold Client.byte_at.
  destruct (Z.of_nat (length pre) + k <? 0) eqn:H1; [apply Z.ltb_lt in H1; lia|].
  destruct (k <? 0) eqn:H2; [apply Z.ltb_lt in H2; lia|].
  rewrite lookup_app_r by lia. do 2 f_equal. lia.
Qed.

Lemma getUint16_app pre l k :
  0 <= k -> Client.getUint16 (pre ++ l) (Z.of_nat (length pre) + k) = Client.getUint16 l k.
Proof.
  intros Hk. unfold Client.getUint16.
  rewrite <- Z.add_assoc, !byte_at_app by lia. reflexivity.
Qed.

Lemma getUint32_app pre l k :
  0 <= k -> Client.getUint32 (pre ++ l) (Z.of_nat (length pre) + k) = Client.getUint32 l k.
Proof.
  intros Hk. unfold Client.getUint32.
  rewrite <- !Z.add_assoc, !byte_at_app by lia. reflexivity.
Qed.

Lemma read_packet_app pre l k :
  0 <= k ->
  Client.read_packet (pre ++ l) (Z.of_nat (length pre) + k) = Client.read_packet l k.
Proof.
  intros Hk. unfold Client.read_packet, Client.SENSORS_PER_PACKET.
  change (seqZ 0 6) with [0; 1; 2; 3; 4; 5]. cbn [mapM].
  rewrite <- !Z.add_assoc, !getUint16_app, getUint32_app by lia. reflexivity.
Qed.

Lemma read_packet_16 (b0 b1 b2 b3 b4 b5 b6 b7 b8 b9 b10 b11 b12 b13 b14 b15 : byte) rest :
  Client.read_packet
    (b0 :: b1 :: b2 :: b3 :: b4 :: b5 :: b6 :: b7 :: b8 :: b9 :: b10 :: b11 :: b12 ::
     b13 :: b14 :: b15 :: rest) 0 =
  Some ([Z.of_N (Byte.to_N b0) + 2 ^ 8 * Z.of_N (Byte.to_N b1);
         Z.of_N (Byte.to_N b2) + 2 ^ 8 * Z.of_N (Byte.to_N b3);
         Z.of_N (Byte.to_N b4) + 2 ^ 8 * Z.of_N (Byte.to_N b5);
         Z.of_N (Byte.to_N b6) + 2 ^ 8 * Z.of_N (Byte.to_N b7);
         Z.of_N (Byte.to_N b8) + 2 ^ 8 * Z.of_N (Byte.to_N b9);
         Z.of_N (Byte.to_N b10) + 2 ^ 8 * Z.of_N (Byte.to_N b11)],
        Z.of_N (Byte.to_N b12) + 2 ^ 8 * Z.of_N (Byte.to_N b13) +
        2 ^ 16 * Z.of_N (Byte.to_N b14) + 2 ^ 24 * Z.of_N (Byte.to_N b15)).
Proof. reflexivity. Qed.

Lemma packet_ok_fields p :
  packet_ok p = true ->
  (0 <= reading1 p < 2 ^ 16 /\ 0 <= reading2 p < 2 ^ 16 /\ 0 <= reading3 p < 2 ^ 16) /\
  (0 <= reading4 p < 2 ^ 16 /\ 0 <= reading5 p < 2 ^ 16 /\ 0 <= reading6 p < 2 ^ 16) /\
  0 <= time_ms p < 2 ^ 32.
Proof.
  unfold packet_ok. cbn [forallb]. rewrite !andb_true_iff, !Z.leb_le, !Z.ltb_lt. tauto.
Qed.

Lemma read_packet_first p rest :
  packet_ok p = true ->
  Client.read_packet (packet_bytes p ++ rest) 0 = Some (readings_of p, time_ms p).
Proof.
  intros Hok. apply packet_ok_fields in Hok as ((H1 & H2 & H3) & (H4 & H5 & H6) & Ht).
  unfold packet_bytes, le16, le32. cbn [app]. rewrite read_packet_16.
  rewrite !le16_value, le32_value by assumption. reflexivity.
Qed.

Lemma buffer_bytes_app buf1 buf2 :
  buffer_bytes (buf1 ++ buf2) = buffer_bytes buf1 ++ buffer_bytes buf2.
Proof. apply List.flat_map_app. Qed.

Lemma read_packet_at (buf : list SensorDataPacket) (i : nat) (p : SensorDataPacket) :
  forallb packet_ok buf = true ->
  buf !! i = Some p ->
  Client.read_packet (buffer_bytes buf) (Z.of_nat i * Client.SENSOR_PACKET_BYTES) =
    Some (readings_of p, time_ms p).
Proof.
  intros Hok Hl.
  assert (Hp : packet_ok p = true).
  { rewrite forallb_forall in Hok. apply Hok. apply list_elem_of_In.
    eapply list_elem_of_lookup_2. exact Hl. }
  rewrite <- (take_drop_middle buf i p Hl), buffer_bytes_app.
  change (buffer_bytes (p :: drop (S i) buf))
    with (packet_bytes p ++ buffer_bytes (drop (S i) buf)).
  assert (Hlen : Z.of_nat i * Client.SENSOR_PACKET_BYTES =
                 Z.of_nat (length (buffer_bytes (take i buf))) + 0).
  { rewrite length_buffer_bytes, length_take.
    apply lookup_lt_Some in Hl. unfold Client.SENSOR_PACKET_BYTES. lia. }
  rewrite Hlen, read_packet_app by lia. apply read_packet_first. exact Hp.
Qed.

(** X22: the client reads a record as the sketch wrote it.  In the image
    of a buffer whose fields are within their types, the six
    little-endian 16-bit reads and the 32-bit read the client makes at
    the offset of record i give the six readings and the timestamp of
    record i. *)
Theorem X22_client_reads_the_records :
  forall (buf : list SensorDataPacket) (i : nat) (p : SensorDataPacket),
    forallb packet_ok buf = true ->
    buf !! i = Some p ->
    Client.read_packet (buffer_bytes buf) (Z.of_nat i * Client.SENSOR_PACKET_BYTES) =
      Some ([reading1 p; reading2 p; reading3 p; reading4 p; reading5 p; reading6 p],
            time_ms p).
Proof. intros buf i p Hok Hl. apply (read_packet_at buf i p Hok Hl). Qed.

Lemma read_all (g : Z -> list Z * Z -> list Client.LogLine) (buf : list SensorDataPacket) :
  forallb packet_ok buf = true ->
  mapM (fun i => g i <$> Client.read_packet (buffer_bytes buf)
                           (i * Client.SENSOR_PACKET_BYTES))
       (seqZ 0 (Z.of_nat (length buf))) =
  Some (imap (fun i p => g (Z.of_nat i) (readings_of p, time_ms p)) buf).
Proof.
  intros Hok. apply mapM_Some_2. apply Forall2_same_length_lookup_2.
  - rewrite length_seqZ, length_imap. lia.
  - intros i x y Hx Hy. apply lookup_seqZ in Hx as [-> Hi].
    rewrite list_lookup_imap in Hy. destruct (buf !! i) as [p|] eqn:Hp; [|discriminate].
    cbn in Hy. injection Hy as <-. rewrite Z.add_0_l.
    rewrite (read_packet_at buf i p Hok Hp). reflexivity.
Qed.

(** X23: the client takes every chunk a device the sketch can be in has
    sent.  Its binary handler counts the chunk; the chunk passes the size
    check (no "Invalid binary buffer" line), no read leaves the buffer,
    and the log, under the new count, shows the first and the last of the
    25 records as the sketch stored them, with one line for the 23 left
    out between. *)
Theorem X23_client_logs_every_chunk :
  forall (st : Device) (chunk : list byte) (view : Client.StreamState),
    Reachable st ->
    chunk ∈ chunks (effects st) ->
    exists (buf : list SensorDataPacket) (first last : SensorDataPacket),
      chunk = buffer_bytes buf /\
      buf !! 0%nat = Some first /\
      buf !! 24%nat = Some last /\
      Client.onBinaryDataHandler chunk view =
        (Client.incrementChunkCounter view,
         Some [Client.PacketLine (Client.binaryChunkCounter view + 1) 0
                 (readings_of first) (time_ms first);
               Client.OmittedLine (Client.binaryChunkCounter view + 1) 1 23;
               Client.PacketLine (Client.binaryChunkCounter view + 1) 24
                 (readings_of last) (time_ms last)]).
Proof.
  intros st chunk view Hreach Hin.
  destruct (reachable_records st Hreach) as [_ Hall].
  rewrite Forall_forall in Hall. destruct (Hall chunk Hin) as (buf & Hlen & Hok & ->).
  set (counter := Client.binaryChunkCounter view + 1).
  pose proof (read_all (Client.log_packet counter 25) buf Hok) as Hread.
  pose proof (length_buffer_bytes buf) as Hbytes. rewrite Hlen in Hbytes.
  change (16 * Z.to_nat SAMPLES_PER_CHUNK)%nat with 400%nat in Hbytes.
  change (Z.to_nat SAMPLES_PER_CHUNK) with 25%nat in Hlen. rewrite Hlen in Hread.
  change (Z.of_nat 25) with 25 in Hread.
  unfold Client.onBinaryDataHandler, Client.processAndLogBinaryData. cbv zeta.
  change (Client.binaryChunkCounter (Client.incrementChunkCounter view)) with counter.
  rewrite Hbytes.
  change (Z.of_nat 400 =? 0) with false.
  change (Z.of_nat 400 mod Client.SENSOR_PACKET_BYTES =? 0) with true.
  cbn [negb orb].
  change (Z.of_nat 400 / Client.SENSOR_PACKET_BYTES) with 25.
  rewrite Hread. clear Hread Hall Hin Hbytes Hok.
  do 25 (destruct buf as [|? buf]; [discriminate Hlen|]).
  destruct buf; [|discriminate Hlen].
  eexists _, _, _. repeat apply conj; reflexivity.
Qed.

(** *** The answers of the device, as the client routes them *)

Lemma route_status s m :
  (s, m) ∈ statuses ->
  Client.routeIncomingMessage (status_document s m) =
    Some (Client.ServerStatus (status_document s m)).
Proof.
  unfold statuses. intros H.
  repeat (apply elem_of_cons in H as [H|H]; [injection H as -> ->; reflexivity|]).
  apply elem_of_nil in H. contradiction.
Qed.

Lemma route_value var :
  Client.routeIncomingMessage (value_document var) =
    Some (Client.VariableUpdate (value_document var)).
Proof. reflexivity. Qed.

Lemma route_config n vars :
  0 < n ->
  Client.routeIncomingMessage (config_document n vars) =
    Some (Client.ConfigList (JArray (config_entries n vars))).
Proof. intros Hn. rewrite config_document_root by exact Hn. reflexivity. Qed.

Lemma status_ignored s m view :
  (s, m) ∈ statuses ->
  Client.onServerStatusHandler (status_document s m) view = Some (view, false).
Proof.
  unfold statuses. intros H.
  repeat (apply elem_of_cons in H as [H|H]; [injection H as -> ->; reflexivity|]).
  apply elem_of_nil in H. contradiction.
Qed.

Lemma answer_of c len parsed st :
  exists doc,
    sent (effects (client_sends c len parsed st)) = sent (effects st) ++ [(c, doc)] /\
    Reply doc.
Proof.
  destruct (text_cases c len parsed st)
    as [(doc & Hr & ->) |
        [(doc & nm & vars & var & var' & _ & _ & _ & _ & _ & _ & _ & _ & ->) |
         [(doc & onStart & _ & _ & _ & _ & ->) | (doc & onStop & _ & _ & _ & _ & ->)]]].
  - exists doc. cbn. rewrite sent_app. auto.
  - exists (value_document var'). cbn. rewrite sent_app. split; [reflexivity|constructor].
  - exists (status_document "ok" "Stream started."). cbn. rewrite !sent_app. cbn.
    rewrite app_nil_r. split; [reflexivity|status_listed].
  - exists (status_document "ok" "Stream stopped."). cbn. rewrite !sent_app. cbn.
    rewrite app_nil_r. split; [reflexivity|status_listed].
Qed.

(** X24: the client has a handler for every answer of the device.  The
    one text message the device sends in answer to a complete text
    message is routed by [routeIncomingMessage] to the configuration-list
    handler when it is the list, to the status handler when it is a
    status, and to the variable-update handler when it carries a value;
    it is never left unhandled, and routing never throws. *)
Theorem X24_client_routes_every_answer :
  forall (st : Device) (c : N) (len : Z) (parsed : option JsonVariant),
    exists (doc : JsonVariant) (routed : Client.Routed),
      sent (effects (client_sends c len parsed st)) = sent (effects st) ++ [(c, doc)] /\
      Client.routeIncomingMessage doc = Some routed /\
      match routed with
      | Client.ConfigList variables =>
          exists n vars, doc = config_document n vars /\
                         variables = JArray (config_entries n vars)
      | Client.ServerStatus message =>
          message = doc /\ exists s m, (s, m) ∈ statuses /\ doc = status_document s m
      | Client.VariableUpdate message =>
          message = doc /\ exists var, doc = value_document var
      | Client.Unhandled _ => False
      end.
Proof.
  intros st c len parsed. destruct (answer_of c len parsed st) as (doc & Hsent & Hr).
  destruct Hr as [s m Hm|var|n vars Hn].
  - exists (status_document s m), (Client.ServerStatus (status_document s m)).
    rewrite route_status by exact Hm. eauto 10.
  - exists (value_document var), (Client.VariableUpdate (value_document var)).
    rewrite route_value. eauto 10.
  - exists (config_document n vars), (Client.ConfigList (JArray (config_entries n vars))).
    rewrite route_config by exact Hn. eauto 10.
Qed.

(** X25: no status of the device moves the client's stream state.  For
    the answer of the device to any complete text message: if the client
    routes it to the status handler, the handler leaves the streaming
    flag and the chunk counter as they are and asks for no redraw.  The
    markers the handler looks for occur in none of the library's
    messages. *)
Theorem X25_client_state_ignores_every_status :
  forall (st : Device) (c : N) (len : Z) (parsed : option JsonVariant)
         (view : Client.StreamState),
    exists doc : JsonVariant,
      sent (effects (client_sends c len parsed st)) = sent (effects st) ++ [(c, doc)] /\
      forall message : JsonVariant,
        Client.routeIncomingMessage doc = Some (Client.ServerStatus message) ->
        Client.onServerStatusHandler message view = Some (view, false).
Proof.
  intros st c len parsed view. destruct (answer_of c len parsed st) as (doc & Hsent & Hr).
  exists doc. split; [exact Hsent|]. intros message Hroute.
  destruct Hr as [s m Hm|var|n vars Hn].
  - rewrite route_status in Hroute by exact Hm. injection Hroute as <-.
    apply status_ignored. exact Hm.
  - rewrite route_value in Hroute. discriminate.
  - rewrite route_config in Hroute by exact Hn. discriminate.
Qed.

(** *** The client on any binary message *)

Lemma byte_at_in l k :
  0 <= k < Z.of_nat (length l) -> exists v, Client.byte_at l k = Some v.
Proof.
  intros Hk. unfold Client.byte_at.
  destruct (k <? 0) eqn:H0; [apply Z.ltb_lt in H0; lia|].
  destruct (lookup_lt_is_Some_2 l (Z.to_nat k) ltac:(lia)) as [b ->]. eauto.
Qed.

Lemma getUint16_in l k :
  0 <= k -> k + 2 <= Z.of_nat (length l) -> exists v, Client.getUint16 l k = Some v.
Proof.
  intros H0 H2. unfold Client.getUint16.
  destruct (byte_at_in l k ltac:(lia)) as [v0 ->].
  destruct (byte_at_in l (k + 1) ltac:(lia)) as [v1 ->]. cbn. eauto.
Qed.

Lemma getUint32_in l k :
  0 <= k -> k + 4 <= Z.of_nat (length l) -> exists v, Client.getUint32 l k = Some v.
Proof.
  intros H0 H4. unfold Client.getUint32.
  destruct (byte_at_in l k ltac:(lia)) as [v0 ->].
  destruct (byte_at_in l (k + 1) ltac:(lia)) as [v1 ->].
  destruct (byte_at_in l (k + 2) ltac:(lia)) as [v2 ->].
  destruct (byte_at_in l (k + 3) ltac:(lia)) as [v3 ->]. cbn. eauto.
Qed.

Lemma read_packet_in l o :
  0 <= o -> o + 16 <= Z.of_nat (length l) -> exists p, Client.read_packet l o = Some p.
Proof.
  intros H0 H16. unfold Client.read_packet, Client.SENSORS_PER_PACKET.
  change (seqZ 0 6) with [0; 1; 2; 3; 4; 5]. cbn [mapM].
  destruct (getUint16_in l (o + 0 * 2) ltac:(lia) ltac:(lia)) as [v0 ->].
  destruct (getUint16_in l (o + 1 * 2) ltac:(lia) ltac:(lia)) as [v1 ->].
  destruct (getUint16_in l (o + 2 * 2) ltac:(lia) ltac:(lia)) as [v2 ->].
  destruct (getUint16_in l (o + 3 * 2) ltac:(lia) ltac:(lia)) as [v3 ->].
  destruct (getUint16_in l (o + 4 * 2) ltac:(lia) ltac:(lia)) as [v4 ->].
  destruct (getUint16_in l (o + 5 * 2) ltac:(lia) ltac:(lia)) as [v5 ->].
  destruct (getUint32_in l (o + 6 * 2) ltac:(lia) ltac:(lia)) as [t ->].
  cbn. eauto.
Qed.

(** X26: on any binary message the client's reads stay inside the
    buffer.  A message that is empty or whose length is no multiple of 16
    is logged as invalid and not read; any other message is read record
    by record without a read leaving the buffer, and its log starts with
    the line of record 0. *)
Theorem X26_client_reads_stay_in_bounds :
  forall (arrayBuffer : list byte) (counter : Z),
    let byteLength := Z.of_nat (length arrayBuffer) in
    exists lines : list Client.LogLine,
      Client.processAndLogBinaryData arrayBuffer counter = Some lines /\
      (byteLength = 0 \/ byteLength mod 16 <> 0 ->
       lines = [Client.InvalidBuffer byteLength]) /\
      (byteLength <> 0 /\ byteLength mod 16 = 0 ->
       exists sensorReadings timeMs rest,
         Client.read_packet arrayBuffer 0 = Some (sensorReadings, timeMs) /\
         lines = Client.PacketLine counter 0 sensorReadings timeMs :: rest).
Proof.
  intros arrayBuffer counter byteLength. unfold Client.processAndLogBinaryData.
  fold byteLength. cbv zeta. unfold Client.SENSOR_PACKET_BYTES.
  destruct (byteLength =? 0) eqn:H0.
  { apply Z.eqb_eq in H0. eexists. split; [reflexivity|]. split; [reflexivity|]. lia. }
  apply Z.eqb_neq in H0. destruct (byteLength mod 16 =? 0) eqn:Hm; cbn [negb orb].
  2: { apply Z.eqb_neq in Hm. eexists. split; [reflexivity|]. split; [reflexivity|]. lia. }
  apply Z.eqb_eq in Hm.
  assert (Hlen : byteLength = 16 * (byteLength / 16)) by (Z.div_mod_to_equations; lia).
  assert (Hpos : 0 < byteLength / 16) by (unfold byteLength in *; lia).
  set (n := byteLength / 16) in *.
  assert (Hall : Forall (fun i => is_Some (Client.log_packet counter n i <$>
                                             Client.read_packet arrayBuffer (i * 16)))
                        (seqZ 0 n)).
  { apply Forall_forall. intros i Hi. apply elem_of_seqZ in Hi.
    destruct (read_packet_in arrayBuffer (i * 16)) as [p ->];
      [lia|fold byteLength; lia|]. cbn. eauto. }
  apply mapM_is_Some_2 in Hall. destruct Hall as [lines Hlines]. rewrite Hlines. cbn.
  exists (concat lines). split; [reflexivity|]. split; [intros [?|?]; lia|]. intros _.
  replace n with (Z.succ (Z.pred n)) in Hlines by lia.
  rewrite seqZ_cons in Hlines by lia. cbn [mapM] in Hlines.
  destruct (Client.read_packet arrayBuffer (0 * 16)) as [[sensorReadings timeMs]|] eqn:Hr;
    [|discriminate].
  cbn in Hlines.
  destruct (mapM _ (seqZ _ _)) as [rest|]; [|discriminate].
  cbn in Hlines. injection Hlines as <-.
  exists sensorReadings, timeMs, (concat rest). split; [exact Hr|reflexivity].
Qed.

End Library.

(** ** Worked instances

    Each theorem with a premise is applied once to the sketch's own
    registry and callbacks, the undefined conversion saturating. *)


Lemma C2_instance :
  snd (setVariableValueInternal int_cast_saturating 0 (JInteger 300) demo) = demo.
Proof.
  apply (proj1 (C2_failed_set_leaves_value int_cast_saturating)
           0 (JInteger 300) demo _ OutOfRange); [reflexivity|right; reflexivity].
Defined.

Lemma C3_instance :
  setVariableValueInternal int_cast_saturating 0 (JFloat (IEEE.double_of_dyadic 125 0)) demo =
  setVariableValueInternal int_cast_saturating 0 (JInteger 125) demo /\
  setVariableValueInternal int_cast_saturating 0 (JFloat (IEEE.double_of_dyadic 251 (-1))) demo =
  (TypeMismatch, demo).
Proof.
  destruct (C3_integer_variable_candidates int_cast_saturating demo configurableVariables 0
              {| name := "led_intensity"; type := TYPE_INT; intValue := 128;
                 floatValue := S754_zero false; stringValue := "";
                 minVal := IEEE.double_of_Z 0; maxVal := IEEE.double_of_Z 255;
                 hasLimits := true |}
              eq_refl ltac:(vm_compute; split; congruence) eq_refl eq_refl)
    as (Hint & _ & _ & H125 & H1255).
  split; [|exact H1255].
  rewrite (proj1 (H125 eq_refl)), (Hint 125 eq_refl). reflexivity.
Defined.

Lemma C4_instance :
  _isStreaming
    (run int_cast_saturating (Disconnect <$> take 2 [1; 2; 3]%N)
       (with_isStreaming (with_clients demo (list_to_set [1; 2; 3]%N)) true)) = true /\
  effects
    (run int_cast_saturating (Disconnect <$> take 2 [1; 2; 3]%N)
       (with_isStreaming (with_clients demo (list_to_set [1; 2; 3]%N)) true)) = [] /\
  effects
    (run int_cast_saturating (Disconnect <$> [1; 2; 3]%N)
       (with_isStreaming (with_clients demo (list_to_set [1; 2; 3]%N)) true)) =
  [Invoke OnStreamStop].
Proof.
  destruct (C4_auto_stop_once int_cast_saturating [1; 2; 3]%N
              (with_isStreaming (with_clients demo (list_to_set [1; 2; 3]%N)) true)
              application_onStreamStop)
    as (Hmid & Hall & _).
  - apply (bool_decide_unpack _). vm_compute. exact I.
  - discriminate.
  - reflexivity.
  - reflexivity.
  - reflexivity.
  - destruct (Hmid 2%nat ltac:(cbn; lia)) as (He & _ & Hs & _).
    split; [exact Hs|]. split; [exact He|exact Hall].
Defined.

Lemma C5_instance :
  effects
    (client_sends int_cast_saturating 2 0 (Some start_request)
       (client_sends int_cast_saturating 1 0 (Some start_request) demo)) =
  [Invoke OnStreamStart;
   SendText 1 (JObject [("status", JString "ok"); ("message", JString "Stream started.")]);
   SendText 2 (JObject [("status", JString "info");
                        ("message", JString "Stream was already active.")])].
Proof.
  destruct (C5_start_stream_twice int_cast_saturating demo 1 2 0 0 start_request start_request
              application_onStreamStart eq_refl eq_refl eq_refl eq_refl)
    as (H1 & _ & _ & _ & H2 & _).
  rewrite H2, effects_emit, H1. reflexivity.
Defined.

Lemma C6_instance :
  client_sends int_cast_saturating 1 0 (Some stop_request) power_on =
  sendStatusInternal 1 "error" "Streaming feature not implemented/configured." power_on.
Proof.
  apply (C6_stream_commands_without_callbacks int_cast_saturating power_on 1 0 stop_request);
    [right; reflexivity|reflexivity|reflexivity].
Defined.

Lemma C7_instance :
  exists chunk : list byte,
    effects
      (run int_cast_saturating (replicate 25 (Loop quiet))
         (client_sends int_cast_saturating 1 0 (Some start_request)
            (client_connects int_cast_saturating 1 demo))) =
    [Invoke OnStreamStart; SendText 1 (status_document "ok" "Stream started.");
     BinaryAll chunk] /\
    length chunk = 400%nat.
Proof.
  assert (Hreach : Reachable int_cast_saturating
                     (client_sends int_cast_saturating 1 0 (Some start_request)
                        (client_connects int_cast_saturating 1 demo))).
  { apply (reach_step int_cast_saturating
             (Event 1 (WS_EVT_DATA (text_frame 0) 0 (Some start_request)))).
    - apply (reach_step int_cast_saturating (Connect 1)); [apply reach_setup|exact I].
    - change (1%N ∈ ({[1%N]} ∪ ∅ : gset N)).
      apply elem_of_union_l, elem_of_singleton. reflexivity. }
  destruct (C7_chunk_of_25_samples int_cast_saturating _ Hreach eq_refl eq_refl) as [Hfull _].
  destruct (Hfull (replicate 25 (Loop quiet)) eq_refl eq_refl) as (chunk & Heff & Hlen & _).
  exists chunk. split; [exact Heff|exact Hlen].
Defined.

(** C8: the sketch's registry, after a client has set "device_label" to
    a label of 120 characters.  The set is accepted and a "get" answers
    the label.  The complete configuration list would take 569 bytes, the
    document it is built in has 4 * 100 + 128 = 528: the list has its four
    entries, but the copy of the label finds no room and the entry of
    "device_label" carries null where its value should be. *)
Lemma C8_config_list_overflow :
  let st := client_sends int_cast_saturating 1 0
              (Some (set_request "device_label" (JString long_label)))
              (client_connects int_cast_saturating 1 demo) in
  effects st =
    [SendText 1 (JObject [("variable", JString "device_label");
                          ("value", JString long_label)])] /\
  effects (client_sends int_cast_saturating 1 0 (Some (get_request "device_label")) st) =
    effects st ++ [SendText 1 (JObject [("variable", JString "device_label");
                                        ("value", JString long_label)])] /\
  (exists vars : list VariableConfig,
      _variables st = Some vars /\ _numVariables st = 4 /\ config_size vars = 569) /\
  exists entries : list JsonVariant,
    effects (client_sends int_cast_saturating 1 0 (Some config_request) st) =
      effects st ++ [SendText 1 (JObject [("status", JString "var_config_list");
                                          ("variables", JArray entries)])] /\
    length entries = 4%nat /\
    entries !! 3%nat =
      Some (JObject [("name", JString "device_label"); ("type", JString "STRING");
                     ("value", JNull); ("hasLimits", JBool false)]).
Proof.
  cbv zeta. split; [reflexivity|]. split; [reflexivity|]. split.
  - eexists. split; [reflexivity|]. split; reflexivity.
  - eexists. split; [reflexivity|]. split; reflexivity.
Qed.

Lemma C9_instance :
  onWebSocketEvent int_cast_saturating 1
    (WS_EVT_DATA {| info_opcode := WS_TEXT; info_final := false; info_index := 0; info_len := 5 |}
       5 (Some start_request)) demo = demo.
Proof.
  apply C9_incomplete_text_frame_dropped; [reflexivity|left; reflexivity].
Defined.

Lemma C10_instance :
  _isStreaming
    (client_disconnects int_cast_saturating 7
       (with_isStreaming (with_clients power_on {[7%N]}) true)) = true.
Proof.
  apply (C10_no_stop_callback_no_auto_stop int_cast_saturating
           (with_isStreaming (with_clients power_on {[7%N]}) true) 7);
    reflexivity.
Defined.

(** The candidate 125 + 2^-30 is a [double] with a fractional part; its
    single-precision value is 125.0, so the set succeeds, and 125 is
    stored. *)
Lemma C3_fraction_accepted :
  IEEE.valid_double (IEEE.double_of_dyadic (125 * 2 ^ 30 + 1) (-30)) = true /\
  IEEE.has_fraction (IEEE.double_of_dyadic (125 * 2 ^ 30 + 1) (-30)) = true /\
  fst (setVariableValueInternal int_cast_saturating 0
         (JFloat (IEEE.double_of_dyadic (125 * 2 ^ 30 + 1) (-30))) demo) = SetOk /\
  match _variables (snd (setVariableValueInternal int_cast_saturating 0
                           (JFloat (IEEE.double_of_dyadic (125 * 2 ^ 30 + 1) (-30))) demo)) with
  | Some vars => intValue <$> vars !! 0%nat
  | None => None
  end = Some 125.
Proof. vm_compute. repeat split. Qed.

(** ** Worked instances, the library as a whole *)

Lemma X1_instance :
  exists vars var,
    _variables demo = Some vars /\
    vars !! 0%nat = Some var /\ name var = "led_intensity".
Proof.
  pose proof (X1_find_first_match "led_intensity" demo) as H. cbv zeta in H.
  destruct H as (_ & Hfound & _).
  destruct (Hfound ltac:(vm_compute; discriminate)) as (vars & var & Hv & Hl & Hn & _).
  exists vars, var. exact (conj Hv (conj Hl Hn)).
Defined.

Lemma X2_instance :
  client_sends int_cast_saturating 1 0 (Some (get_request "speed")) demo =
  sendStatusInternal 1 "error" "Variable name not found." demo.
Proof.
  apply (X2_unknown_variable int_cast_saturating demo 1 0 (get_request "speed") "speed");
    [left; reflexivity|reflexivity|].
  intros vars j var Hv Hj Hl. injection Hv as <-.
  do 4 (destruct j as [|j]; [injection Hl as <-; cbn; discriminate|]).
  cbn in Hl. discriminate Hl.
Defined.

Lemma X4_instance :
  exists reply : JsonVariant,
    client_sends int_cast_saturating 1 0 (Some (get_request "led_intensity")) demo =
    emit (SendText 1 reply) demo.
Proof.
  apply (X4_requests_that_only_answer int_cast_saturating demo 1 0
           (Some (get_request "led_intensity"))).
  intros doc [= <-]. repeat split; vm_compute; discriminate.
Defined.

Lemma X5_instance :
  exists vars',
    _variables
      (run int_cast_saturating
         [Event 1 (WS_EVT_DATA (text_frame 0) 0
                     (Some (set_request "led_intensity" (JInteger 200))))] demo) =
      Some vars' /\
    length vars' = 4%nat.
Proof.
  destruct (proj2 (X5_configuration_is_fixed int_cast_saturating
                     [Event 1 (WS_EVT_DATA (text_frame 0) 0
                                 (Some (set_request "led_intensity" (JInteger 200))))] demo)
              configurableVariables eq_refl) as (vars' & Hv & Hlen & _).
  exists vars'. exact (conj Hv Hlen).
Defined.

Lemma X6_instance :
  registry_within_limits
    (run int_cast_saturating
       [Event 1 (WS_EVT_DATA (text_frame 0) 0
                   (Some (set_request "led_intensity" (JInteger 200))));
        Event 1 (WS_EVT_DATA (text_frame 0) 0
                   (Some (set_request "led_intensity" (JInteger 300))))] demo) = true.
Proof. apply X6_values_stay_within_limits. reflexivity. Defined.

Lemma X8_instance :
  _isStreaming
    (run int_cast_saturating
       [Event 1 (WS_EVT_DATA (text_frame 0) 0 (Some stop_request)); Disconnect 1]
       (with_isStreaming
          (with_clients (with_callbacks demo (Some application_onStreamStart) None) {[1%N]})
          true)) = true.
Proof.
  apply (proj1 (X8_stream_without_callback int_cast_saturating
                  [Event 1 (WS_EVT_DATA (text_frame 0) 0 (Some stop_request)); Disconnect 1]
                  (with_isStreaming
                     (with_clients (with_callbacks demo (Some application_onStreamStart) None)
                        {[1%N]})
                     true)));
    reflexivity.
Defined.

Lemma X10_instance :
  fst (setVariableValueInternal int_cast_saturating 0 (JInteger 5)
         (with_variables demo
            (Some [ {| name := "gain"; type := TYPE_FLOAT; intValue := 0;
                       floatValue := S754_zero false; stringValue := "";
                       minVal := IEEE.double_of_Z 0; maxVal := IEEE.double_of_Z 10;
                       hasLimits := true |} ]) 1)) = SetOk.
Proof.
  destruct (X10_float_variable int_cast_saturating
              (with_variables demo
                 (Some [ {| name := "gain"; type := TYPE_FLOAT; intValue := 0;
                            floatValue := S754_zero false; stringValue := "";
                            minVal := IEEE.double_of_Z 0; maxVal := IEEE.double_of_Z 10;
                            hasLimits := true |} ]) 1)
              _ 0 _ eq_refl ltac:(vm_compute; split; congruence) eq_refl eq_refl)
    as (_ & Hint & _).
  rewrite (proj1 (Hint 5 eq_refl)). reflexivity.
Defined.

Lemma X11_instance :
  fst (setVariableValueInternal int_cast_saturating 3 (JString "bench") demo) = SetOk /\
  setVariableValueInternal int_cast_saturating 3 (JInteger 7) demo = (TypeMismatch, demo).
Proof.
  destruct (X11_string_variable int_cast_saturating demo configurableVariables 3
              {| name := "device_label"; type := TYPE_STRING; intValue := 0;
                 floatValue := S754_zero false; stringValue := "ESP32-01";
                 minVal := IEEE.double_of_Z 0; maxVal := IEEE.double_of_Z 0;
                 hasLimits := false |}
              eq_refl ltac:(vm_compute; split; congruence) eq_refl eq_refl)
    as [Hstr Hother].
  split.
  - rewrite (proj1 (Hstr "bench")). reflexivity.
  - apply Hother. reflexivity.
Defined.

Lemma X12_instance :
  setVariableValueInternal int_cast_saturating 0 (JInteger (2 ^ 31)) demo =
    (TypeMismatch, demo) \/
  setVariableValueInternal int_cast_saturating 0 (JInteger (2 ^ 31)) demo =
    (OutOfRange, demo) \/
  setVariableValueInternal int_cast_saturating 0 (JInteger (2 ^ 31)) demo =
    (SetOk,
     with_variables demo
       (Some (<[0%nat :=
                 set_intValue {| name := "led_intensity"; type := TYPE_INT; intValue := 128;
                                 floatValue := S754_zero false; stringValue := "";
                                 minVal := IEEE.double_of_Z 0;
                                 maxVal := IEEE.double_of_Z 255;
                                 hasLimits := true |} 0]> configurableVariables))
       (_numVariables demo)).
Proof.
  apply (X12_integer_beyond_int int_cast_saturating demo configurableVariables 0
           {| name := "led_intensity"; type := TYPE_INT; intValue := 128;
              floatValue := S754_zero false; stringValue := "";
              minVal := IEEE.double_of_Z 0; maxVal := IEEE.double_of_Z 255;
              hasLimits := true |} (2 ^ 31)
           eq_refl ltac:(vm_compute; split; congruence) eq_refl eq_refl).
  right. reflexivity.
Defined.

Lemma X13_instance :
  exists reply : JsonVariant,
    client_sends int_cast_saturating 2 0 (Some (get_request "device_label")) demo =
      emit (SendText 2 reply) demo /\
    client_sends int_cast_saturating 2 0 (Some (get_request "device_label"))
      (client_sends int_cast_saturating 1 0
         (Some (set_request "led_intensity" (JInteger 200))) demo) =
      emit (SendText 2 reply)
        (client_sends int_cast_saturating 1 0
           (Some (set_request "led_intensity" (JInteger 200))) demo).
Proof.
  apply (X13_set_leaves_other_variables int_cast_saturating demo 1 2 0 0
           (set_request "led_intensity" (JInteger 200)) (get_request "device_label")
           "led_intensity" "device_label");
    try reflexivity.
  discriminate.
Defined.

Lemma X14_instance :
  broadcastVariableUpdate (Some "led_intensity") demo = None /\
  match broadcastVariableUpdate (Some "led_intensity") (with_clients demo {[1%N]}) with
  | Some doc =>
      client_sends int_cast_saturating 2 0 (Some (get_request "led_intensity"))
        (with_clients demo {[1%N]}) =
      emit (SendText 2 doc) (with_clients demo {[1%N]})
  | None =>
      client_sends int_cast_saturating 2 0 (Some (get_request "led_intensity"))
        (with_clients demo {[1%N]}) =
      sendStatusInternal 2 "error" "Variable name not found." (with_clients demo {[1%N]})
  end.
Proof.
  split.
  - apply (proj1 (X14_broadcast_agrees_with_get int_cast_saturating demo 2 0
                    (get_request "led_intensity") "led_intensity" eq_refl eq_refl)).
    reflexivity.
  - apply (proj1 (proj2 (X14_broadcast_agrees_with_get int_cast_saturating
                           (with_clients demo {[1%N]}) 2 0
                           (get_request "led_intensity") "led_intensity" eq_refl eq_refl))).
    intros He. apply (f_equal size) in He. vm_compute in He. discriminate He.
Defined.


(** The sketch's device after a client has connected and started the
    stream. *)
Lemma streaming_reachable :
  Reachable int_cast_saturating
    (client_sends int_cast_saturating 1 0 (Some start_request)
       (client_connects int_cast_saturating 1 demo)).
Proof.
  apply (reach_step int_cast_saturating
           (Event 1 (WS_EVT_DATA (text_frame 0) 0 (Some start_request)))).
  - apply (reach_step int_cast_saturating (Connect 1)); [apply reach_setup|exact I].
  - change (1%N ∈ ({[1%N]} ∪ ∅ : gset N)).
    apply elem_of_union_l, elem_of_singleton. reflexivity.
Qed.

Lemma X16_instance :
  isAppStreaming
    (sketch (run int_cast_saturating (replicate 24 (Loop quiet))
               (client_sends int_cast_saturating 1 0 (Some start_request)
                  (client_connects int_cast_saturating 1 demo)))) = true /\
  currentBufferIndex
    (sketch (run int_cast_saturating (replicate 24 (Loop quiet))
               (client_sends int_cast_saturating 1 0 (Some start_request)
                  (client_connects int_cast_saturating 1 demo)))) = 24 /\
  currentBufferIndex
    (sketch (loop quiet
               (run int_cast_saturating (replicate 24 (Loop quiet))
                  (client_sends int_cast_saturating 1 0 (Some start_request)
                     (client_connects int_cast_saturating 1 demo))))) = 0 /\
  length
    (sensorDataBuffer
       (sketch (loop quiet
                  (run int_cast_saturating (replicate 24 (Loop quiet))
                     (client_sends int_cast_saturating 1 0 (Some start_request)
                        (client_connects int_cast_saturating 1 demo)))))) =
    Z.to_nat SAMPLES_PER_CHUNK.
Proof.
  destruct (X16_buffer_index_in_bounds int_cast_saturating
              (run int_cast_saturating (replicate 24 (Loop quiet))
                 (client_sends int_cast_saturating 1 0 (Some start_request)
                    (client_connects int_cast_saturating 1 demo)))
              quiet)
    as (_ & _ & Hlen & _).
  - apply reachable_run; [exact streaming_reachable|reflexivity].
  - split; [reflexivity|]. split; [reflexivity|]. split; [reflexivity|exact Hlen].
Defined.

Lemma X17_instance :
  _isStreaming
    (client_sends int_cast_saturating 1 0 (Some start_request)
       (client_connects int_cast_saturating 1 demo)) = true /\
  isAppStreaming
    (sketch (client_sends int_cast_saturating 1 0 (Some start_request)
               (client_connects int_cast_saturating 1 demo))) = true /\
  ws_clients
    (client_sends int_cast_saturating 1 0 (Some start_request)
       (client_connects int_cast_saturating 1 demo)) <> ∅.
Proof.
  destruct (X17_streaming_needs_a_client int_cast_saturating
              (client_sends int_cast_saturating 1 0 (Some start_request)
                 (client_connects int_cast_saturating 1 demo))
              streaming_reachable)
    as (Hsame & Hclient & _).
  assert (Hs : _isStreaming
                 (client_sends int_cast_saturating 1 0 (Some start_request)
                    (client_connects int_cast_saturating 1 demo)) = true)
    by reflexivity.
  split; [exact Hs|]. split; [rewrite Hsame; exact Hs|exact (Hclient Hs)].
Defined.

Lemma X18_instance :
  length
    (default []
       (head (chunks (effects
          (run int_cast_saturating (replicate 25 (Loop quiet))
             (client_sends int_cast_saturating 1 0 (Some start_request)
                (client_connects int_cast_saturating 1 demo))))))) = 400%nat.
Proof.
  apply (X18_chunks_are_whole_buffers int_cast_saturating
           (run int_cast_saturating (replicate 25 (Loop quiet))
              (client_sends int_cast_saturating 1 0 (Some start_request)
                 (client_connects int_cast_saturating 1 demo)))).
  - apply reachable_run; [exact streaming_reachable|reflexivity].
  - vm_compute. apply list_elem_of_here.
Defined.

Lemma X19_instance :
  chunks (effects
    (run int_cast_saturating (replicate 25 (Loop quiet))
       (client_sends int_cast_saturating 1 0 (Some start_request)
          (client_connects int_cast_saturating 1 demo)))) =
  [buffer_bytes
     (samples_of int_cast_saturating (replicate 25 (Loop quiet))
        (client_sends int_cast_saturating 1 0 (Some start_request)
           (client_connects int_cast_saturating 1 demo)))].
Proof.
  exact (proj2 (X19_chunk_holds_the_records_taken int_cast_saturating
                  (client_sends int_cast_saturating 1 0 (Some start_request)
                     (client_connects int_cast_saturating 1 demo))
                  (replicate 25 (Loop quiet))
                  streaming_reachable eq_refl eq_refl eq_refl eq_refl)).
Defined.

Lemma X20_instance :
  exists new : list (list byte),
    effects
      (run int_cast_saturating (replicate 60 (Loop quiet))
         (client_sends int_cast_saturating 1 0 (Some start_request)
            (client_connects int_cast_saturating 1 demo))) =
    effects (client_sends int_cast_saturating 1 0 (Some start_request)
               (client_connects int_cast_saturating 1 demo)) ++ (BinaryAll <$> new) /\
    Z.of_nat (length new) = 2 /\
    currentBufferIndex
      (sketch
         (run int_cast_saturating (replicate 60 (Loop quiet))
            (client_sends int_cast_saturating 1 0 (Some start_request)
               (client_connects int_cast_saturating 1 demo)))) = 10.
Proof.
  destruct (X20_one_chunk_every_25_records int_cast_saturating (replicate 60 (Loop quiet))
              (client_sends int_cast_saturating 1 0 (Some start_request)
                 (client_connects int_cast_saturating 1 demo))
              streaming_reachable eq_refl eq_refl)
    as (new & He & Hn & _ & Hi & _).
  exists new. exact (conj He (conj Hn Hi)).
Defined.

Lemma X21_instance :
  sensorDataBuffer
    (sketch
       (loop quiet
          (run int_cast_saturating [Tick 5; Loop quiet; Tick 7]
             (client_sends int_cast_saturating 1 0 (Some start_request)
                (client_connects int_cast_saturating 1 demo))))) !! 1%nat =
  Some {| reading1 := 0; reading2 := 0; reading3 := 0; reading4 := 0; reading5 := 0;
          reading6 := 0; time_ms := 12 |}.
Proof.
  exact (X21_timestamps_count_from_the_start int_cast_saturating
           (client_connects int_cast_saturating 1 demo) 1 0 start_request
           [Tick 5; Loop quiet; Tick 7] quiet
           (reach_step int_cast_saturating (Connect 1) demo
              (reach_setup int_cast_saturating) I)
           ltac:(change (1%N ∈ ({[1%N]} ∪ ∅ : gset N));
                 apply elem_of_union_l, elem_of_singleton; reflexivity)
           eq_refl eq_refl eq_refl
           ltac:(vm_compute; split; [discriminate|reflexivity])).
Defined.

Lemma X22_instance :
  Client.read_packet
    (buffer_bytes [ {| reading1 := 1; reading2 := 2; reading3 := 3; reading4 := 4;
                       reading5 := 5; reading6 := 4095; time_ms := 70000 |} ]) 0 =
  Some ([1; 2; 3; 4; 5; 4095], 70000).
Proof.
  exact (X22_client_reads_the_records
           [ {| reading1 := 1; reading2 := 2; reading3 := 3; reading4 := 4;
                reading5 := 5; reading6 := 4095; time_ms := 70000 |} ] 0 _ eq_refl eq_refl).
Defined.

Lemma X23_instance :
  exists first last : SensorDataPacket,
    snd (Client.onBinaryDataHandler
           (default []
              (head (chunks (effects
                 (run int_cast_saturating (replicate 25 (Loop quiet))
                    (client_sends int_cast_saturating 1 0 (Some start_request)
                       (client_connects int_cast_saturating 1 demo)))))))
           {| Client.isClientStreaming := true; Client.binaryChunkCounter := 0 |}) =
    Some [Client.PacketLine 1 0 (readings_of first) (time_ms first);
          Client.OmittedLine 1 1 23;
          Client.PacketLine 1 24 (readings_of last) (time_ms last)].
Proof.
  destruct (X23_client_logs_every_chunk int_cast_saturating
              (run int_cast_saturating (replicate 25 (Loop quiet))
                 (client_sends int_cast_saturating 1 0 (Some start_request)
                    (client_connects int_cast_saturating 1 demo)))
              (default []
                 (head (chunks (effects
                    (run int_cast_saturating (replicate 25 (Loop quiet))
                       (client_sends int_cast_saturating 1 0 (Some start_request)
                          (client_connects int_cast_saturating 1 demo)))))))
              {| Client.isClientStreaming := true; Client.binaryChunkCounter := 0 |})
    as (buf & first & last & _ & _ & _ & Hlog).
  - apply reachable_run; [exact streaming_reachable|reflexivity].
  - vm_compute. apply list_elem_of_here.
  - exists first, last. rewrite Hlog. reflexivity.
Defined.

Lemma X25_instance :
  Client.onServerStatusHandler (status_document "ok" "Stream started.")
    {| Client.isClientStreaming := false; Client.binaryChunkCounter := 3 |} =
  Some ({| Client.isClientStreaming := false; Client.binaryChunkCounter := 3 |}, false).
Proof.
  destruct (X25_client_state_ignores_every_status int_cast_saturating
              (client_connects int_cast_saturating 1 demo) 1 0 (Some start_request)
              {| Client.isClientStreaming := false; Client.binaryChunkCounter := 3 |})
    as (doc & Hsent & Hquiet).
  vm_compute in Hsent. injection Hsent as <-.
  apply Hquiet. reflexivity.
Defined.

Lemma X26_instance :
  exists (sensorReadings : list Z) (timeMs : Z) (rest : list Client.LogLine),
    Client.processAndLogBinaryData (replicate 32 Byte.x00) 1 =
      Some (Client.PacketLine 1 0 sensorReadings timeMs :: rest).
Proof.
  pose proof (X26_client_reads_stay_in_bounds (replicate 32 Byte.x00) 1) as H.
  cbv zeta in H. destruct H as (lines & Hlog & _ & Hvalid).
  destruct (Hvalid ltac:(vm_compute; split; [discriminate|reflexivity]))
    as (sensorReadings & timeMs & rest & _ & ->).
  exists sensorReadings, timeMs, rest. exact Hlog.
Defined.

Lemma X27_instance :
  setVariableValueInternal int_cast_saturating 0 (JInteger 255) demo =
    (if (0 <=? 255) && (255 <=? 255)
     then (SetOk,
           with_variables demo
             (Some (<[0%nat :=
                       set_intValue {| name := "led_intensity"; type := TYPE_INT; intValue := 128;
                                       floatValue := S754_zero false; stringValue := "";
                                       minVal := IEEE.double_of_Z 0;
                                       maxVal := IEEE.double_of_Z 255;
                                       hasLimits := true |} 255]> configurableVariables))
             (_numVariables demo))
     else (OutOfRange, demo)).
Proof.
  apply (X27_integer_limits_are_inclusive int_cast_saturating demo configurableVariables 0
           {| name := "led_intensity"; type := TYPE_INT; intValue := 128;
              floatValue := S754_zero false; stringValue := "";
              minVal := IEEE.double_of_Z 0; maxVal := IEEE.double_of_Z 255;
              hasLimits := true |} 0 255 255
           eq_refl ltac:(vm_compute; split; congruence) eq_refl eq_refl eq_refl eq_refl eq_refl
           ltac:(vm_compute; reflexivity) ltac:(vm_compute; reflexivity)
           ltac:(vm_compute; split; congruence)).
Defined.

Lemma X28_instance :
  exists entries : list JsonVariant,
    effects (client_sends int_cast_saturating 1 0 (Some config_request) demo) =
      [SendText 1 (JObject [("status", JString "var_config_list");
                            ("variables", JArray entries)])] /\
    length entries = 4%nat /\
    exists entry : JsonVariant,
      entries !! 3%nat = Some entry /\
      Json.member "name" entry = JString "device_label" /\
      Json.member "value" entry = JString "ESP32-01" /\
      Json.containsKey "min" entry = false.
Proof.
  destruct (X28_config_list_complete_when_it_fits int_cast_saturating demo 1 0 config_request
              eq_refl) as [Hlist _].
  destruct (Hlist configurableVariables eq_refl eq_refl eq_refl)
    as (entries & Hsend & _ & Hfit).
  destruct (Hfit ltac:(vm_compute; discriminate)) as (Hlen & Hall).
  destruct (Hall 3%nat _ eq_refl) as (entry & Hl & Hname & _ & Hvalue & _ & Hmin & _).
  exists entries. rewrite Hsend. split; [reflexivity|]. split; [exact Hlen|].
  exists entry. split; [exact Hl|]. split; [exact Hname|]. split; [exact Hvalue|exact Hmin].
Defined.
